(** * convnetjs: layer computation model

    A shallow embedding of the TypeScript sources

      - convnet_layers_nonlinearities.ts  (Relu, Sigmoid, Maxout, Tanh)
      - convnet_layers_pool.ts            (Pool)
      - convnet_layers_dropout.ts         (Dropout)
      - convnet_layers_dotproducts.ts     (Conv, FullyConn)
      - convnet_layers_loss.ts            (Softmax, Regression, SVM)
      - convnet_layers_input.ts           (Input)
      - convnet_net.ts                    (smartBackward, Net)
      - layers.ts                         (ParamsAndGrads)

    Modelling conventions.

    - A JavaScript [number] is a real, one of the two infinities, or NaN
      (type [number] below).  Rounding, overflow and the sign of zero are
      not modelled: arithmetic on finite values is exact.  In particular
      [Math.exp] of a finite number is a positive real here, where a
      double overflows to [Infinity] above about 709.78 and underflows
      to 0 below about -745; a property that would read differently on
      doubles for that reason is stated with a bound on the argument,
      or with the ends of an interval included.
    - Arrays are [Float64Array]s: fixed length, a write outside the
      array is ignored, a read outside it gives [undefined], which every
      later numeric use coerces to [NaN]; the model reads [NaN] directly.
    - Dimensions, strides, paddings and switch indices are integers ([Z]).
    - A method is a function from the receiver's state (and arguments) to
      the new state and the returned value.  A field that is [undefined]
      until some method sets it is an [option].  Reading a property of
      [undefined] throws; methods that can do so return a [result].
    - Tensors are values.  Where two fields of a layer always hold one
      object ([in_act] and [out_act] of the layers whose [forward] is the
      identity), the model keeps one field.
    - [Math.random] reads a stream of numbers threaded explicitly.
    - A serialized layer is the record its class writes.  [Net.fromJSON]
      chooses the class by the [layer_type] field alone and that class
      reads its fields by name, whichever class wrote the record. *)

From Stdlib Require Import ZArith Reals Lra Lia List Bool String.
From stdpp Require Import base list strings gmap.
Import ListNotations.

Local Open Scope Z_scope.

(* ================================================================= *)
(** ** JavaScript numbers *)

Module JS.

Inductive number : Type :=
| Num (r : R)
| PInf
| NInf
| NaN.

Definition Rltb (x y : R) : bool := if Rlt_dec x y then true else false.
Definition Reqb (x y : R) : bool := if Req_dec_T x y then true else false.

Definition of_Z (z : Z) : number := Num (IZR z).

Definition inf_of_sign (positive : bool) : number :=
  if positive then PInf else NInf.

(** Unary minus. *)
Definition neg (a : number) : number :=
  match a with
  | Num r => Num (- r)
  | PInf => NInf
  | NInf => PInf
  | NaN => NaN
  end.

(** [a + b] *)
Definition add (a b : number) : number :=
  match a, b with
  | NaN, _ | _, NaN => NaN
  | Num x, Num y => Num (x + y)
  | PInf, NInf | NInf, PInf => NaN
  | PInf, _ | _, PInf => PInf
  | NInf, _ | _, NInf => NInf
  end.

(** [a - b] *)
Definition sub (a b : number) : number := add a (neg b).

(** [a * b] *)
Definition mul (a b : number) : number :=
  match a, b with
  | NaN, _ | _, NaN => NaN
  | Num x, Num y => Num (x * y)
  | Num x, PInf | PInf, Num x =>
      if Reqb x 0 then NaN else inf_of_sign (Rltb 0 x)
  | Num x, NInf | NInf, Num x =>
      if Reqb x 0 then NaN else inf_of_sign (Rltb x 0)
  | PInf, PInf | NInf, NInf => PInf
  | PInf, NInf | NInf, PInf => NInf
  end.

(** [a / b]; a zero divisor is the positive zero. *)
Definition div (a b : number) : number :=
  match a, b with
  | NaN, _ | _, NaN => NaN
  | Num x, Num y =>
      if Reqb y 0
      then (if Reqb x 0 then NaN else inf_of_sign (Rltb 0 x))
      else Num (x / y)
  | Num _, PInf | Num _, NInf => Num 0
  | PInf, Num y => inf_of_sign (negb (Rltb y 0))
  | NInf, Num y => inf_of_sign (Rltb y 0)
  | _, _ => NaN
  end.

(** [a < b]; every comparison with NaN is false. *)
Definition lt (a b : number) : bool :=
  match a, b with
  | Num x, Num y => Rltb x y
  | NInf, Num _ | NInf, PInf | Num _, PInf => true
  | _, _ => false
  end.

(** [a > b] *)
Definition gt (a b : number) : bool := lt b a.

(** [Math.exp] and [Math.log] on the extended reals; both are exact on
    finite arguments (no overflow, no underflow). *)
Definition Math_exp (a : number) : number :=
  match a with
  | Num r => Num (exp r)
  | PInf => PInf
  | NInf => Num 0
  | NaN => NaN
  end.

Definition Math_log (a : number) : number :=
  match a with
  | Num r => if Rltb r 0 then NaN else if Reqb r 0 then NInf else Num (ln r)
  | PInf => PInf
  | NInf => NaN
  | NaN => NaN
  end.

(** [y] is an odd integer. *)
Definition is_odd_integer (y : R) : bool :=
  Reqb (IZR (Zfloor y)) y && Z.odd (Zfloor y).

Definition is_integer (y : R) : bool := Reqb (IZR (Zfloor y)) y.

(** [Math.pow] *)
Definition Math_pow (a b : number) : number :=
  match a, b with
  | _, NaN => NaN
  | _, Num y =>
      if Reqb y 0 then Num 1
      else
        match a with
        | NaN => NaN
        | Num x =>
            if Rltb 0 x then Num (Rpower x y)
            else if Reqb x 0 then (if Rltb 0 y then Num 0 else PInf)
            else if is_odd_integer y then Num (- Rpower (- x) y)
            else if is_integer y then Num (Rpower (- x) y)
            else NaN
        | PInf => if Rltb 0 y then PInf else Num 0
        | NInf =>
            if Rltb 0 y then (if is_odd_integer y then NInf else PInf)
            else Num 0
        end
  | NaN, _ => NaN
  | Num x, PInf =>
      if Rltb 1 (Rabs x) then PInf
      else if Reqb (Rabs x) 1 then NaN else Num 0
  | Num x, NInf =>
      if Rltb 1 (Rabs x) then Num 0
      else if Reqb (Rabs x) 1 then NaN else PInf
  | _, PInf => PInf
  | _, NInf => Num 0
  end.

(** [Math.floor] of a number used as a dimension, an integer in the
    model; the infinities and NaN, which are no integer, read as 0. *)
Definition floorZ (a : number) : Z :=
  match a with
  | Num r => Zfloor r
  | _ => 0
  end.

(** [v || 0] on a number: NaN and zero are falsy. *)
Definition or_zero (v : number) : number :=
  match v with
  | NaN => Num 0
  | Num r => if Reqb r 0 then Num 0 else Num r
  | _ => v
  end.

(** What a method can do besides returning. *)
Inductive error : Type :=
| TypeError            (* property access on undefined *)
| InvalidCostType      (* [InvalidCostTypeError] of convnet_net.ts *)
| AssertionFailed (msg : string).

Inductive result (A : Type) : Type :=
| Ok (a : A)
| Throw (e : error).
Arguments Ok {A} a.
Arguments Throw {A} e.

Definition bind {A B} (m : result A) (k : A -> result B) : result B :=
  match m with
  | Ok a => k a
  | Throw e => Throw e
  end.

(** Reading [o.f] where [o] may be undefined. *)
Definition deref {A} (o : option A) : result A :=
  match o with
  | Some a => Ok a
  | None => Throw TypeError
  end.

(** ** Typed arrays *)

(** [a[i]] for a loop counter [i]. *)
Definition get (a : list number) (i : nat) : number := default NaN (a !! i).

(** [a[i]] for an arbitrary integer [i]. *)
Definition getZ (a : list number) (i : Z) : number :=
  if i <? 0 then NaN else get a (Z.to_nat i).

(** [a[i] = v] *)
Definition set (a : list number) (i : nat) (v : number) : list number :=
  <[i := v]> a.

Definition setZ (a : list number) (i : Z) (v : number) : list number :=
  if i <? 0 then a else set a (Z.to_nat i) v.

(** [for (let i = 0; i < n; i++) body], as a fold over the counter. *)
Definition for_each {S : Type} (n : nat) (body : nat -> S -> S) (s : S) : S :=
  fold_left (fun acc i => body i acc) (seq 0 n) s.

(** [for (let i = from; i < from + n; i++) body] *)
Definition for_from {S : Type} (from n : nat) (body : nat -> S -> S) (s : S) : S :=
  fold_left (fun acc i => body i acc) (seq from n) s.

(** A statement inside a loop either falls through to the next
    iteration or returns from the enclosing function. *)
Inductive control (S A : Type) : Type :=
| Continue (s : S)
| Return (a : A).
Arguments Continue {S A} s.
Arguments Return {S A} a.

Fixpoint for_return {S A : Type} (counters : list nat)
    (body : nat -> S -> control S A) (s : S) : control S A :=
  match counters with
  | [] => Continue s
  | i :: rest =>
      match body i s with
      | Continue s' => for_return rest body s'
      | Return a => Return a
      end
  end.

(** A loop whose body can throw. *)
Definition for_each_r {S : Type} (n : nat) (body : nat -> S -> result S)
    (s : S) : result S :=
  for_each n (fun i acc => bind acc (body i)) (Ok s).

Definition Rleb (x y : R) : bool := if Rle_dec x y then true else false.

(** [a <= b]; false when either side is NaN. *)
Definition le (a b : number) : bool :=
  match a, b with
  | NaN, _ | _, NaN => false
  | Num x, Num y => Rleb x y
  | NInf, _ | _, PInf => true
  | _, _ => false
  end.

End JS.

Import JS.

(* ================================================================= *)
(** ** convnet_util and convnet_vol *)

Module util.

(** Modelled from the spec: [util.zeros] (convnet_util is not among the
    sources); a zero-filled array of length [n]. *)
Definition zeros (n : Z) : list number := replicate (Z.to_nat n) (Num 0).

(** Switch arrays hold integer indices; the same zero-filled array. *)
Definition zerosZ (n : Z) : list Z := replicate (Z.to_nat n) 0.

End util.

Module Vol.

(** Modelled from the spec: the tensor container [Vol] (convnet_vol is
    not among the sources).  Dimensions [sx], [sy], [depth]; [w] and
    [dw] are flat, index order [((sx*y)+x)*depth + d]. *)
Record t : Type := mk {
  sx : Z;
  sy : Z;
  depth : Z;
  w : list number;
  dw : list number
}.

(** Modelled from the spec: [new Vol(sx, sy, depth, c)] with a constant
    fill value. *)
Definition new (sx sy depth : Z) (c : number) : t :=
  mk sx sy depth
     (replicate (Z.to_nat (sx * sy * depth)) c)
     (util.zeros (sx * sy * depth)).

Definition index (V : t) (x y d : Z) : Z := ((sx V * y) + x) * depth V + d.

Definition get (V : t) (x y d : Z) : number := JS.getZ (w V) (index V x y d).

Definition set (V : t) (x y d : Z) (v : number) : t :=
  mk (sx V) (sy V) (depth V) (JS.setZ (w V) (index V x y d) v) (dw V).

Definition get_grad (V : t) (x y d : Z) : number :=
  JS.getZ (dw V) (index V x y d).

Definition set_grad (V : t) (x y d : Z) (v : number) : t :=
  mk (sx V) (sy V) (depth V) (w V) (JS.setZ (dw V) (index V x y d) v).

Definition add_grad (V : t) (x y d : Z) (v : number) : t :=
  mk (sx V) (sy V) (depth V) (w V)
     (JS.setZ (dw V) (index V x y d) (JS.add (get_grad V x y d) v)).

Definition set_w (V : t) (ws : list number) : t :=
  mk (sx V) (sy V) (depth V) ws (dw V).

Definition set_dw (V : t) (dws : list number) : t :=
  mk (sx V) (sy V) (depth V) (w V) dws.

(** Modelled from the spec: [clone] copies [w] and [dw] into independent
    storage. *)
Definition clone (V : t) : t := mk (sx V) (sy V) (depth V) (w V) (dw V).

(** Modelled from the spec: [cloneAndZero], same dimensions, zero-filled. *)
Definition cloneAndZero (V : t) : t := new (sx V) (sy V) (depth V) (Num 0).

(** Modelled from the spec: a tensor serializes to its dimensions and
    its flat weights; gradients are not serialized and a reloaded tensor
    has zero gradients. *)
Record json : Type := mk_json {
  j_sx : Z;
  j_sy : Z;
  j_depth : Z;
  j_w : list number
}.

Definition toJSON (V : t) : json := mk_json (sx V) (sy V) (depth V) (w V).

Definition fromJSON (j : json) : t :=
  mk (j_sx j) (j_sy j) (j_depth j) (j_w j)
     (util.zeros (j_sx j * j_sy j * j_depth j)).

End Vol.

(* ================================================================= *)
(** ** convnet_layers_nonlinearities.ts *)

Module ReluLayer.

Record t : Type := mk {
  layer_type : string;
  out_sx : Z;
  out_sy : Z;
  out_depth : Z;
  in_act : option Vol.t;
  out_act : option Vol.t
}.

Record options : Type := mk_options {
  in_sx : Z;
  in_sy : Z;
  in_depth : Z
}.

Definition constructor (opt : options) : t :=
  mk "relu" (in_sx opt) (in_sy opt) (in_depth opt) None None.

(** The body of the loop of [forward]: the threshold, then the
    assignment to [out_act] and the [return], all inside the loop. *)
Definition forward_body (L : t) (i : nat) (V2 : Vol.t)
  : control Vol.t (t * option Vol.t) :=
  let V2 :=
    if JS.lt (JS.get (Vol.w V2) i) (Num 0)
    then Vol.set_w V2 (JS.set (Vol.w V2) i (Num 0))
    else V2 in
  Return (mk (layer_type L) (out_sx L) (out_sy L) (out_depth L)
             (in_act L) (Some V2),
          Some V2).

(** [forward] returns the new state and the returned value; [None] is
    [undefined], returned when the loop body never runs. *)
Definition forward (L : t) (V : Vol.t) : t * option Vol.t :=
  let L := mk (layer_type L) (out_sx L) (out_sy L) (out_depth L)
              (Some V) (out_act L) in
  let V2 := Vol.clone V in
  let N := length (Vol.w V) in
  match for_return (seq 0 N) (forward_body L) V2 with
  | Return r => r
  | Continue _ => (L, None)
  end.

(** One iteration of the loop of [backward]; [V2] is [this.out_act],
    first read here. *)
Definition backward_step (L : t) (i : nat) (dw : list number)
  : result (list number) :=
  bind (deref (out_act L)) (fun V2 =>
  if JS.le (JS.get (Vol.w V2) i) (Num 0)
  then Ok (JS.set dw i (Num 0))
  else Ok (JS.set dw i (JS.get (Vol.dw V2) i))).

(** [backward] writes the gradient into [this.in_act.dw]. *)
Definition backward (L : t) : result t :=
  bind (deref (in_act L)) (fun V =>
  let N := length (Vol.w V) in
  bind (for_each_r N (backward_step L) (util.zeros (Z.of_nat N))) (fun dw =>
  Ok (mk (layer_type L) (out_sx L) (out_sy L) (out_depth L)
         (Some (Vol.set_dw V dw)) (out_act L)))).

Record json : Type := mk_json {
  j_layer_type : string;
  j_out_sx : Z;
  j_out_sy : Z;
  j_out_depth : Z
}.

Definition toJSON (L : t) : json :=
  mk_json (layer_type L) (out_sx L) (out_sy L) (out_depth L).

Definition fromJSON (j : json) : t :=
  mk (j_layer_type j) (j_out_sx j) (j_out_sy j) (j_out_depth j) None None.

End ReluLayer.

(* ================================================================= *)
(** ** convnet_layers_loss.ts *)

(** The target handed to a loss layer's [backward]: a number (a class
    index, an integer in the model), an array, or a [{dim, val}] pair. *)
Inductive target : Type :=
| TNumber (y : Z)
| TArray (ys : list number)
| TObject (dim : Z) (val : number).

Module SoftmaxLayer.

Record t : Type := mk {
  layer_type : string;
  num_inputs : Z;
  out_sx : Z;
  out_sy : Z;
  out_depth : Z;
  in_act : option Vol.t;
  out_act : option Vol.t;
  es : option (list number)
}.

Record options : Type := mk_options {
  in_sx : Z;
  in_sy : Z;
  in_depth : Z
}.

Definition constructor (opt : options) : t :=
  let num_inputs := in_sx opt * in_sy opt * in_depth opt in
  mk "softmax" num_inputs 1 1 num_inputs None None None.

(** The three loops of [forward]. *)
Definition max_activation (as_ : list number) (n : nat) : number :=
  for_from 1 (n - 1)
    (fun i amax => if JS.gt (JS.get as_ i) amax then JS.get as_ i else amax)
    (JS.get as_ 0).

Definition exponentials (as_ : list number) (amax : number) (n : nat)
  : list number * number :=
  for_each n
    (fun i '(es, esum) =>
       let e := Math_exp (JS.sub (JS.get as_ i) amax) in
       (JS.set es i e, JS.add esum e))
    (util.zeros (Z.of_nat n), Num 0).

Definition normalize (es : list number) (esum : number) (A : Vol.t) (n : nat)
  : list number * Vol.t :=
  for_each n
    (fun i '(es, A) =>
       let es := JS.set es i (JS.div (JS.get es i) esum) in
       (es, Vol.set_w A (JS.set (Vol.w A) i (JS.get es i))))
    (es, A).

Definition forward (L : t) (V : Vol.t) : t * Vol.t :=
  let A := Vol.new 1 1 (out_depth L) (Num 0) in
  let n := Z.to_nat (out_depth L) in
  let as_ := Vol.w V in
  let amax := max_activation as_ n in
  let '(es, esum) := exponentials as_ amax n in
  let '(es, A) := normalize es esum A n in
  (mk (layer_type L) (num_inputs L) (out_sx L) (out_sy L) (out_depth L)
      (Some V) (Some A) (Some es),
   A).

(** [x.dw[i] = -(indicator - this.es[i])] for every class [i]. *)
Definition gradient (es : list number) (y : Z) (n : nat) (dw : list number)
  : list number :=
  for_each n
    (fun i dw =>
       let indicator := if Z.of_nat i =? y then Num 1 else Num 0 in
       let mul := JS.neg (JS.sub indicator (JS.get es i)) in
       JS.set dw i mul)
    dw.

(** [backward(y)] returns the new state, whose [in_act] carries the
    gradient, and the loss. *)
Definition backward (L : t) (y : Z) : result (t * number) :=
  bind (deref (in_act L)) (fun x =>
  bind (deref (es L)) (fun es =>
  let dw := util.zeros (Z.of_nat (length (Vol.w x))) in
  let dw := gradient es y (Z.to_nat (out_depth L)) dw in
  let x := Vol.set_dw x dw in
  Ok (mk (layer_type L) (num_inputs L) (out_sx L) (out_sy L) (out_depth L)
         (Some x) (out_act L) (Some es),
      JS.neg (Math_log (JS.getZ es y))))).

Record json : Type := mk_json {
  j_layer_type : string;
  j_out_sx : Z;
  j_out_sy : Z;
  j_out_depth : Z;
  j_num_inputs : Z
}.

Definition toJSON (L : t) : json :=
  mk_json (layer_type L) (out_sx L) (out_sy L) (out_depth L) (num_inputs L).

Definition fromJSON (j : json) : t :=
  mk (j_layer_type j) (j_num_inputs j) (j_out_sx j) (j_out_sy j)
     (j_out_depth j) None None None.

End SoftmaxLayer.

Module RegressionLayer.

Record t : Type := mk {
  layer_type : string;
  num_inputs : Z;
  out_sx : Z;
  out_sy : Z;
  out_depth : Z;
  in_act : option Vol.t
}.

(** [forward] stores the one object [V] in both [in_act] and [out_act]:
    the two fields are one tensor, and what [backward] writes into
    [in_act.dw] shows in [out_act] too. *)
Definition out_act (L : t) : option Vol.t := in_act L.

Record options : Type := mk_options {
  in_sx : Z;
  in_sy : Z;
  in_depth : Z
}.

Definition constructor (opt : options) : t :=
  let num_inputs := in_sx opt * in_sy opt * in_depth opt in
  mk "regression" num_inputs 1 1 num_inputs None.

Definition forward (L : t) (V : Vol.t) : t * Vol.t :=
  (mk (layer_type L) (num_inputs L) (out_sx L) (out_sy L) (out_depth L)
      (Some V),
   V).

(** [forward(undefined)]: the same assignments, of [undefined]. *)
Definition forward_undefined (L : t) : t :=
  mk (layer_type L) (num_inputs L) (out_sx L) (out_sy L) (out_depth L)
     None.

Definition half_square (dy : number) : number :=
  JS.mul (JS.mul (Num (1 / 2)) dy) dy.

Definition backward (L : t) (y : target) : result (t * number) :=
  bind (deref (in_act L)) (fun x =>
  let dw := util.zeros (Z.of_nat (length (Vol.w x))) in
  let '(dw, loss) :=
    match y with
    | TArray ys =>
        for_each (Z.to_nat (out_depth L))
          (fun i '(dw, loss) =>
             let dy := JS.sub (JS.get (Vol.w x) i) (JS.get ys i) in
             (JS.set dw i dy, JS.add loss (half_square dy)))
          (dw, Num 0)
    | TNumber y =>
        let dy := JS.sub (JS.get (Vol.w x) 0) (JS.of_Z y) in
        (JS.set dw 0 dy, JS.add (Num 0) (half_square dy))
    | TObject i yi =>
        let dy := JS.sub (JS.getZ (Vol.w x) i) yi in
        (JS.setZ dw i dy, JS.add (Num 0) (half_square dy))
    end in
  Ok (mk (layer_type L) (num_inputs L) (out_sx L) (out_sy L) (out_depth L)
         (Some (Vol.set_dw x dw)),
      loss)).

Record json : Type := mk_json {
  j_layer_type : string;
  j_out_sx : Z;
  j_out_sy : Z;
  j_out_depth : Z;
  j_num_inputs : Z
}.

Definition toJSON (L : t) : json :=
  mk_json (layer_type L) (out_sx L) (out_sy L) (out_depth L) (num_inputs L).

Definition fromJSON (j : json) : t :=
  mk (j_layer_type j) (j_num_inputs j) (j_out_sx j) (j_out_sy j)
     (j_out_depth j) None.

End RegressionLayer.

Module SVMLayer.

Record t : Type := mk {
  layer_type : string;
  num_inputs : Z;
  out_sx : Z;
  out_sy : Z;
  out_depth : Z;
  in_act : option Vol.t
}.

(** [forward] stores the one object [V] in both [in_act] and [out_act]:
    the two fields are one tensor, and what [backward] writes into
    [in_act.dw] shows in [out_act] too. *)
Definition out_act (L : t) : option Vol.t := in_act L.

Record options : Type := mk_options {
  in_sx : Z;
  in_sy : Z;
  in_depth : Z
}.

Definition constructor (opt : options) : t :=
  let num_inputs := in_sx opt * in_sy opt * in_depth opt in
  mk "svm" num_inputs 1 1 num_inputs None.

Definition forward (L : t) (V : Vol.t) : t * Vol.t :=
  (mk (layer_type L) (num_inputs L) (out_sx L) (out_sy L) (out_depth L)
      (Some V),
   V).

(** [forward(undefined)]: the same assignments, of [undefined]. *)
Definition forward_undefined (L : t) : t :=
  mk (layer_type L) (num_inputs L) (out_sx L) (out_sy L) (out_depth L)
     None.

Definition margin : number := Num 1.

(** [-yscore + x.w[i] + margin] *)
Definition ydiff (xw : list number) (y : Z) (i : nat) : number :=
  JS.add (JS.add (JS.neg (JS.getZ xw y)) (JS.get xw i)) margin.

(** One iteration of the loop of [backward] on [(x.dw, loss)]. *)
Definition backward_body (xw : list number) (y : Z) (i : nat)
    (s : list number * number) : list number * number :=
  let '(dw, loss) := s in
  if y =? Z.of_nat i then s
  else
    if JS.gt (ydiff xw y i) (Num 0)
    then
      let dw := JS.set dw i (JS.add (JS.get dw i) (Num 1)) in
      let dw := JS.setZ dw y (JS.sub (JS.getZ dw y) (Num 1)) in
      (dw, JS.add loss (ydiff xw y i))
    else s.

Definition backward (L : t) (y : Z) : result (t * number) :=
  bind (deref (in_act L)) (fun x =>
  let dw := util.zeros (Z.of_nat (length (Vol.w x))) in
  let '(dw, loss) :=
    for_each (Z.to_nat (out_depth L)) (backward_body (Vol.w x) y)
             (dw, Num 0) in
  Ok (mk (layer_type L) (num_inputs L) (out_sx L) (out_sy L) (out_depth L)
         (Some (Vol.set_dw x dw)),
      loss)).

Record json : Type := mk_json {
  j_layer_type : string;
  j_out_sx : Z;
  j_out_sy : Z;
  j_out_depth : Z;
  j_num_inputs : Z
}.

Definition toJSON (L : t) : json :=
  mk_json (layer_type L) (out_sx L) (out_sy L) (out_depth L) (num_inputs L).

Definition fromJSON (j : json) : t :=
  mk (j_layer_type j) (j_num_inputs j) (j_out_sx j) (j_out_sy j)
     (j_out_depth j) None.

End SVMLayer.

(** The layers a network ends in; [smartBackward] is only called on the
    last layer, "assumed to be loss layer". *)
Inductive LossLayer : Type :=
| LRegression (L : RegressionLayer.t)
| LSoftmax (L : SoftmaxLayer.t)
| LSVM (L : SVMLayer.t).

(** [smartBackward] of convnet_net.ts; arrays and [{dim, val}] pairs are
    the targets that are [instanceof Object]. *)
Definition smartBackward (y : target) (layer : LossLayer)
  : result (LossLayer * number) :=
  match layer with
  | LRegression L =>
      bind (RegressionLayer.backward L y) (fun '(L, loss) =>
      Ok (LRegression L, loss))
  | LSoftmax L =>
      match y with
      | TNumber y =>
          bind (SoftmaxLayer.backward L y) (fun '(L, loss) =>
          Ok (LSoftmax L, or_zero loss))
      | _ => Throw InvalidCostType
      end
  | LSVM L =>
      match y with
      | TNumber y =>
          bind (SVMLayer.backward L y) (fun '(L, loss) =>
          Ok (LSVM L, or_zero loss))
      | _ => Throw InvalidCostType
      end
  end.

(* ================================================================= *)
(** ** convnet_layers_nonlinearities.ts, continued *)

Module SigmoidLayer.

Record t : Type := mk {
  layer_type : string;
  out_sx : Z;
  out_sy : Z;
  out_depth : Z;
  in_act : option Vol.t;
  out_act : option Vol.t
}.

Record options : Type := mk_options {
  in_sx : Z;
  in_sy : Z;
  in_depth : Z
}.

Definition constructor (opt : options) : t :=
  mk "sigmoid" (in_sx opt) (in_sy opt) (in_depth opt) None None.

(** [1.0 / (1.0 + Math.exp(-x))] *)
Definition sigmoid (x : number) : number :=
  JS.div (Num 1) (JS.add (Num 1) (Math_exp (JS.neg x))).

Definition forward (L : t) (V : Vol.t) : t * Vol.t :=
  let V2 := Vol.cloneAndZero V in
  let N := length (Vol.w V) in
  let V2w :=
    for_each N (fun i V2w => JS.set V2w i (sigmoid (JS.get (Vol.w V) i)))
             (Vol.w V2) in
  let V2 := Vol.set_w V2 V2w in
  (mk (layer_type L) (out_sx L) (out_sy L) (out_depth L) (Some V) (Some V2),
   V2).

(** [V.dw[i] = v2wi * (1.0 - v2wi) * V2.dw[i]] *)
Definition backward_step (L : t) (i : nat) (dw : list number)
  : result (list number) :=
  bind (deref (out_act L)) (fun V2 =>
  let v2wi := JS.get (Vol.w V2) i in
  Ok (JS.set dw i
        (JS.mul (JS.mul v2wi (JS.sub (Num 1) v2wi)) (JS.get (Vol.dw V2) i)))).

Definition backward (L : t) : result t :=
  bind (deref (in_act L)) (fun V =>
  let N := length (Vol.w V) in
  bind (for_each_r N (backward_step L) (util.zeros (Z.of_nat N))) (fun dw =>
  Ok (mk (layer_type L) (out_sx L) (out_sy L) (out_depth L)
         (Some (Vol.set_dw V dw)) (out_act L)))).

Record json : Type := mk_json {
  j_layer_type : string;
  j_out_sx : Z;
  j_out_sy : Z;
  j_out_depth : Z
}.

Definition toJSON (L : t) : json :=
  mk_json (layer_type L) (out_sx L) (out_sy L) (out_depth L).

Definition fromJSON (j : json) : t :=
  mk (j_layer_type j) (j_out_sx j) (j_out_sy j) (j_out_depth j) None None.

End SigmoidLayer.

Module MaxoutLayer.

Record t : Type := mk {
  layer_type : string;
  out_sx : Z;
  out_sy : Z;
  out_depth : Z;
  group_size : Z;
  switches : list Z;
  in_act : option Vol.t;
  out_act : option Vol.t
}.

Record options : Type := mk_options {
  in_sx : Z;
  in_sy : Z;
  in_depth : Z;
  opt_group_size : option Z
}.

Definition constructor (opt : options) : t :=
  let out_sx := in_sx opt in
  let out_sy := in_sy opt in
  let group_size := default 2 (opt_group_size opt) in
  let out_depth :=
    JS.floorZ (JS.div (JS.of_Z (in_depth opt)) (JS.of_Z group_size)) in
  mk "maxout" out_sx out_sy out_depth group_size
     (util.zerosZ (out_sx * out_sy * out_depth)) None None.

Definition set_acts (L : t) (sw : list Z) (i o : option Vol.t) : t :=
  mk (layer_type L) (out_sx L) (out_sy L) (out_depth L) (group_size L)
     sw i o.

(** The inner loop over a group: the running maximum [a] and the offset
    [ai] of the winner, reading the group through [read]. *)
Definition group_max (L : t) (read : Z -> number) (ix : Z) : number * Z :=
  for_from 1 (Z.to_nat (group_size L) - 1)
    (fun j '(a, ai) =>
       let a2 := read (ix + Z.of_nat j) in
       if JS.gt a2 a then (a2, Z.of_nat j) else (a, ai))
    (read ix, 0).

(** The branch taken when [out_sx === 1 && out_sy === 1]. *)
Definition forward_flat (L : t) (V V2 : Vol.t) : Vol.t * list Z :=
  for_each (Z.to_nat (out_depth L))
    (fun i '(V2, sw) =>
       let ix := Z.of_nat i * group_size L in
       let '(a, ai) := group_max L (JS.getZ (Vol.w V)) ix in
       (Vol.set_w V2 (JS.set (Vol.w V2) i a), <[i := ix + ai]> sw))
    (V2, switches L).

(** The other branch, over the coordinates of [V]; [n] counts the
    switches. *)
Definition forward_coord (L : t) (V V2 : Vol.t) : Vol.t * list Z * nat :=
  for_each (Z.to_nat (Vol.sx V))
    (fun x s =>
       for_each (Z.to_nat (Vol.sy V))
         (fun y s =>
            for_each (Z.to_nat (out_depth L))
              (fun i '(V2, sw, n) =>
                 let ix := Z.of_nat i * group_size L in
                 let '(a, ai) :=
                   group_max L (Vol.get V (Z.of_nat x) (Z.of_nat y)) ix in
                 (Vol.set V2 (Z.of_nat x) (Z.of_nat y) (Z.of_nat i) a,
                  <[n := ix + ai]> sw,
                  S n))
              s)
         s)
    (V2, switches L, O).

Definition forward (L : t) (V : Vol.t) : t * Vol.t :=
  let V2 := Vol.new (out_sx L) (out_sy L) (out_depth L) (Num 0) in
  let '(V2, sw) :=
    if (out_sx L =? 1) && (out_sy L =? 1)
    then forward_flat L V V2
    else fst (forward_coord L V V2) in
  (set_acts L sw (Some V) (Some V2), V2).

(** [forward(undefined)]: the flat branch reads [V.w] in its first
    iteration, the other branch reads [V.sx] at once. *)
Definition forward_undefined (L : t) : result (t * Vol.t) :=
  let V2 := Vol.new (out_sx L) (out_sy L) (out_depth L) (Num 0) in
  if (out_sx L =? 1) && (out_sy L =? 1) && negb (0 <? out_depth L)
  then Ok (set_acts L (switches L) None (Some V2), V2)
  else Throw TypeError.

(** [V.dw[this.switches[i]] = chain_grad]; an undefined switch names no
    element. *)
Definition backward_flat (L : t) (V V2 : Vol.t) : Vol.t :=
  for_each (Z.to_nat (out_depth L))
    (fun i V =>
       let chain_grad := JS.get (Vol.dw V2) i in
       match switches L !! i with
       | Some s => Vol.set_dw V (JS.setZ (Vol.dw V) s chain_grad)
       | None => V
       end)
    V.

Definition backward_coord (L : t) (V V2 : Vol.t) : Vol.t * nat :=
  for_each (Z.to_nat (Vol.sx V2))
    (fun x s =>
       for_each (Z.to_nat (Vol.sy V2))
         (fun y s =>
            for_each (Z.to_nat (out_depth L))
              (fun i '(V, n) =>
                 let chain_grad :=
                   Vol.get_grad V2 (Z.of_nat x) (Z.of_nat y) (Z.of_nat i) in
                 (match switches L !! n with
                  | Some s =>
                      Vol.set_grad V (Z.of_nat x) (Z.of_nat y) s chain_grad
                  | None => V
                  end,
                  S n))
              s)
         s)
    (V, O).

(** [backward]: [out_act] is first read inside the loops, so the flat
    branch needs it only when its loop runs. *)
Definition backward (L : t) : result t :=
  bind (deref (in_act L)) (fun V =>
  let V := Vol.set_dw V (util.zeros (Z.of_nat (length (Vol.w V)))) in
  if (out_sx L =? 1) && (out_sy L =? 1)
  then
    if 0 <? out_depth L
    then bind (deref (out_act L)) (fun V2 =>
         Ok (set_acts L (switches L) (Some (backward_flat L V V2))
                      (out_act L)))
    else Ok (set_acts L (switches L) (Some V) (out_act L))
  else
    bind (deref (out_act L)) (fun V2 =>
    Ok (set_acts L (switches L) (Some (fst (backward_coord L V V2)))
                 (out_act L)))).

Record json : Type := mk_json {
  j_layer_type : string;
  j_out_sx : Z;
  j_out_sy : Z;
  j_out_depth : Z;
  j_group_size : Z
}.

Definition toJSON (L : t) : json :=
  mk_json (layer_type L) (out_sx L) (out_sy L) (out_depth L) (group_size L).

Definition fromJSON (j : json) : t :=
  mk (j_layer_type j) (j_out_sx j) (j_out_sy j) (j_out_depth j)
     (j_group_size j) (util.zerosZ (j_group_size j)) None None.

End MaxoutLayer.

Module TanhLayer.

Record t : Type := mk {
  layer_type : string;
  out_sx : Z;
  out_sy : Z;
  out_depth : Z;
  in_act : option Vol.t;
  out_act : option Vol.t
}.

Record options : Type := mk_options {
  in_sx : Z;
  in_sy : Z;
  in_depth : Z
}.

Definition constructor (opt : options) : t :=
  mk "tanh" (in_sx opt) (in_sy opt) (in_depth opt) None None.

(** The helper [tanh]: [y = Math.exp(2 * x); (y - 1) / (y + 1)]. *)
Definition tanh (x : number) : number :=
  let y := Math_exp (JS.mul (Num 2) x) in
  JS.div (JS.sub y (Num 1)) (JS.add y (Num 1)).

Definition forward (L : t) (V : Vol.t) : t * Vol.t :=
  let V2 := Vol.cloneAndZero V in
  let N := length (Vol.w V) in
  let V2w :=
    for_each N (fun i V2w => JS.set V2w i (tanh (JS.get (Vol.w V) i)))
             (Vol.w V2) in
  let V2 := Vol.set_w V2 V2w in
  (mk (layer_type L) (out_sx L) (out_sy L) (out_depth L) (Some V) (Some V2),
   V2).

(** [V.dw[i] = (1.0 - v2wi * v2wi) * V2.dw[i]] *)
Definition backward_step (L : t) (i : nat) (dw : list number)
  : result (list number) :=
  bind (deref (out_act L)) (fun V2 =>
  let v2wi := JS.get (Vol.w V2) i in
  Ok (JS.set dw i
        (JS.mul (JS.sub (Num 1) (JS.mul v2wi v2wi)) (JS.get (Vol.dw V2) i)))).

Definition backward (L : t) : result t :=
  bind (deref (in_act L)) (fun V =>
  let N := length (Vol.w V) in
  bind (for_each_r N (backward_step L) (util.zeros (Z.of_nat N))) (fun dw =>
  Ok (mk (layer_type L) (out_sx L) (out_sy L) (out_depth L)
         (Some (Vol.set_dw V dw)) (out_act L)))).

Record json : Type := mk_json {
  j_layer_type : string;
  j_out_sx : Z;
  j_out_sy : Z;
  j_out_depth : Z
}.

Definition toJSON (L : t) : json :=
  mk_json (layer_type L) (out_sx L) (out_sy L) (out_depth L).

Definition fromJSON (j : json) : t :=
  mk (j_layer_type j) (j_out_sx j) (j_out_sy j) (j_out_depth j) None None.

End TanhLayer.

(* ================================================================= *)
(** ** convnet_layers_pool.ts *)

Module PoolLayer.

Record t : Type := mk {
  layer_type : string;
  sx : Z;
  sy : Z;
  in_depth : Z;
  in_sx : option Z;
  in_sy : option Z;
  stride : Z;
  pad : Z;
  out_depth : Z;
  out_sx : Z;
  out_sy : Z;
  switchx : list Z;
  switchy : list Z;
  in_act : option Vol.t;
  out_act : option Vol.t
}.

Record options : Type := mk_options {
  opt_sx : Z;
  opt_sy : option Z;
  opt_stride : option Z;
  opt_pad : option Z;
  opt_in_sx : Z;
  opt_in_sy : Z;
  opt_in_depth : Z
}.

Definition constructor (opt : options) : t :=
  let sx := opt_sx opt in
  let in_depth := opt_in_depth opt in
  let in_sx := opt_in_sx opt in
  let in_sy := opt_in_sy opt in
  let sy := default sx (opt_sy opt) in
  let stride := default 2 (opt_stride opt) in
  let pad := default 0 (opt_pad opt) in
  let out_depth := in_depth in
  let out_sx :=
    JS.floorZ (JS.add (JS.div (JS.of_Z (in_sx + pad * 2 - sx))
                              (JS.of_Z stride))
                      (Num 1)) in
  let out_sy :=
    JS.floorZ (JS.add (JS.div (JS.of_Z (in_sy + pad * 2 - sy))
                              (JS.of_Z stride))
                      (Num 1)) in
  mk "pool" sx sy in_depth (Some in_sx) (Some in_sy) stride pad
     out_depth out_sx out_sy
     (util.zerosZ (out_sx * out_sy * out_depth))
     (util.zerosZ (out_sx * out_sy * out_depth))
     None None.

Definition sentinel : number := Num (-99999).

(** [oy >= 0 && oy < V.sy && ox >= 0 && ox < V.sx] *)
Definition in_bounds (V : Vol.t) (ox oy : Z) : bool :=
  (oy >=? 0) && (oy <? Vol.sy V) && (ox >=? 0) && (ox <? Vol.sx V).

(** One window position: the running maximum [a] and the coordinates
    [(winx, winy)] it came from. *)
Definition window_step (V : Vol.t) (x y : Z) (d : Z) (fx fy : nat)
    (s : number * Z * Z) : number * Z * Z :=
  let '(a, winx, winy) := s in
  let oy := y + Z.of_nat fy in
  let ox := x + Z.of_nat fx in
  if in_bounds V ox oy
  then
    let v := Vol.get V ox oy d in
    if JS.gt v a then (v, ox, oy) else (a, winx, winy)
  else (a, winx, winy).

(** The two loops over the filter, at the window whose corner is
    [(x, y)]. *)
Definition window (L : t) (V : Vol.t) (x y : Z) (d : Z) : number * Z * Z :=
  for_each (Z.to_nat (sx L))
    (fun fx s =>
       for_each (Z.to_nat (sy L)) (fun fy s => window_step V x y d fx fy s) s)
    (sentinel, -1, -1).

(** The corner of the window of output column (row) [a]: the loop
    header starts at [-pad] and adds [stride] per step. *)
Definition corner (L : t) (a : nat) : Z := - pad L + Z.of_nat a * stride L.

(** The body of the three loops of [forward], on the output [A], the
    switch arrays and the switch counter [n]. *)
Definition forward_step (L : t) (V : Vol.t) (d ax ay : nat)
    (s : Vol.t * list Z * list Z * nat) : Vol.t * list Z * list Z * nat :=
  let '(A, switchx, switchy, n) := s in
  let '(a, winx, winy) :=
    window L V (corner L ax) (corner L ay) (Z.of_nat d) in
  (Vol.set A (Z.of_nat ax) (Z.of_nat ay) (Z.of_nat d) a,
   <[n := winx]> switchx,
   <[n := winy]> switchy,
   S n).

Definition forward_loops (L : t) (V : Vol.t)
  : Vol.t * list Z * list Z * nat :=
  for_each (Z.to_nat (out_depth L))
    (fun d s =>
       for_each (Z.to_nat (out_sx L))
         (fun ax s =>
            for_each (Z.to_nat (out_sy L))
              (fun ay s => forward_step L V d ax ay s) s)
         s)
    (Vol.new (out_sx L) (out_sy L) (out_depth L) (Num 0),
     switchx L, switchy L, O).

Definition set_state (L : t) (swx swy : list Z) (i o : option Vol.t) : t :=
  mk (layer_type L) (sx L) (sy L) (in_depth L) (in_sx L) (in_sy L)
     (stride L) (pad L) (out_depth L) (out_sx L) (out_sy L) swx swy i o.

Definition forward (L : t) (V : Vol.t) : t * Vol.t :=
  let '(A, switchx, switchy, _) := forward_loops L V in
  (set_state L switchx switchy (Some V) (Some A), A).

(** [forward(undefined)]: [V.sy] is read by the first window test whose
    [oy >= 0] holds.  If no window position gets there, no test passes
    and the loops write what they write for a tensor without positions. *)
Definition reads_input (L : t) : bool :=
  (0 <? out_depth L) && (0 <? out_sx L) && (0 <? sx L) &&
  existsb (fun ay =>
     existsb (fun fy => corner L ay + Z.of_nat fy >=? 0)
             (seq 0 (Z.to_nat (sy L))))
     (seq 0 (Z.to_nat (out_sy L))).

Definition forward_undefined (L : t) : result (t * Vol.t) :=
  if reads_input L then Throw TypeError
  else
    let '(A, switchx, switchy, _) := forward_loops L (Vol.mk 0 0 0 [] []) in
    Ok (set_state L switchx switchy None (Some A), A).

(** The body of the three loops of [backward], on the input tensor and
    the switch counter [n]: [this.out_act] is first read here; a switch
    that is [undefined] names no position. *)
Definition backward_step (L : t) (d ax ay : nat) (s : Vol.t * nat)
  : result (Vol.t * nat) :=
  let '(V, n) := s in
  bind (deref (out_act L)) (fun A =>
  let chain_grad :=
    Vol.get_grad A (Z.of_nat ax) (Z.of_nat ay) (Z.of_nat d) in
  Ok (match switchx L !! n, switchy L !! n with
      | Some x, Some y => Vol.add_grad V x y (Z.of_nat d) chain_grad
      | _, _ => V
      end,
      S n)).

Definition backward (L : t) : result t :=
  bind (deref (in_act L)) (fun V =>
  let V := Vol.set_dw V (util.zeros (Z.of_nat (length (Vol.w V)))) in
  bind (for_each_r (Z.to_nat (out_depth L))
          (fun d s =>
             for_each_r (Z.to_nat (out_sx L))
               (fun ax s =>
                  for_each_r (Z.to_nat (out_sy L))
                    (fun ay s => backward_step L d ax ay s) s)
               s)
          (V, O)) (fun '(V, _) =>
  Ok (set_state L (switchx L) (switchy L) (Some V) (out_act L)))).

Record json : Type := mk_json {
  j_layer_type : string;
  j_out_sx : Z;
  j_out_sy : Z;
  j_out_depth : Z;
  j_in_depth : Z;
  j_sx : Z;
  j_sy : Z;
  j_stride : Z;
  j_pad : option Z
}.

Definition toJSON (L : t) : json :=
  mk_json (layer_type L) (out_sx L) (out_sy L) (out_depth L) (in_depth L)
          (sx L) (sy L) (stride L) (Some (pad L)).

Definition fromJSON (j : json) : t :=
  let out_depth := j_out_depth j in
  let out_sx := j_out_sx j in
  let out_sy := j_out_sy j in
  mk (j_layer_type j) (j_sx j) (j_sy j) (j_in_depth j) None None
     (j_stride j) (default 0 (j_pad j)) out_depth out_sx out_sy
     (util.zerosZ (out_sx * out_sy * out_depth))
     (util.zerosZ (out_sx * out_sy * out_depth))
     None None.

End PoolLayer.

(* ================================================================= *)
(** ** convnet_layers_dropout.ts *)

(** [Math.random]: the numbers it will return, and how many were drawn. *)
Record rng : Type := mk_rng {
  draws : nat -> number;
  drawn : nat
}.

Definition Math_random (g : rng) : number * rng :=
  (draws g (drawn g), mk_rng (draws g) (S (drawn g))).

Module DropoutLayer.

Record t : Type := mk {
  layer_type : string;
  out_sx : Z;
  out_sy : Z;
  out_depth : Z;
  drop_prob : number;
  dropped : list bool;
  in_act : option Vol.t;
  out_act : option Vol.t
}.

Record options : Type := mk_options {
  in_sx : Z;
  in_sy : Z;
  in_depth : Z;
  opt_drop_prob : option number
}.

(** [util.zeros(n).map((v) => v !== 0)] *)
Definition no_drops (n : Z) : list bool :=
  map (fun v => negb (match v with Num r => Reqb r 0 | _ => false end))
      (util.zeros n).

Definition constructor (opt : options) : t :=
  let out_sx := in_sx opt in
  let out_sy := in_sy opt in
  let out_depth := in_depth opt in
  mk "dropout" out_sx out_sy out_depth
     (default (Num (1 / 2)) (opt_drop_prob opt))
     (no_drops (out_sx * out_sy * out_depth)) None None.

(** The training loop, on [V2.w], the mask and the random source. *)
Definition drop_step (L : t) (i : nat) (s : list number * list bool * rng)
  : list number * list bool * rng :=
  let '(V2w, dropped, g) := s in
  let '(r, g) := Math_random g in
  if JS.lt r (drop_prob L)
  then (JS.set V2w i (Num 0), <[i := true]> dropped, g)
  else (V2w, <[i := false]> dropped, g).

(** The prediction loop: [V2.w[i] *= this.drop_prob]. *)
Definition scale_step (L : t) (i : nat) (V2w : list number) : list number :=
  JS.set V2w i (JS.mul (JS.get V2w i) (drop_prob L)).

Definition forward (L : t) (V : Vol.t) (is_training : option bool) (g : rng)
  : t * Vol.t * rng :=
  let is_training := default false is_training in
  let V2 := Vol.clone V in
  let N := length (Vol.w V) in
  let '(V2w, dropped, g) :=
    if is_training
    then for_each N (drop_step L) (Vol.w V2, dropped L, g)
    else (for_each N (scale_step L) (Vol.w V2), dropped L, g) in
  let V2 := Vol.set_w V2 V2w in
  (mk (layer_type L) (out_sx L) (out_sy L) (out_depth L) (drop_prob L)
      dropped (Some V) (Some V2),
   V2, g).

(** One iteration of the loop of [backward]: the gradient of
    [this.out_act] is copied where the unit was not dropped;
    [!this.dropped[i]] holds too where the mask has no entry. *)
Definition backward_step (L : t) (i : nat) (dw : list number)
  : result (list number) :=
  match dropped L !! i with
  | Some true => Ok dw
  | _ =>
      bind (deref (out_act L)) (fun chain_grad =>
      Ok (JS.set dw i (JS.get (Vol.dw chain_grad) i)))
  end.

Definition backward (L : t) : result t :=
  bind (deref (in_act L)) (fun V =>
  let n := length (Vol.w V) in
  bind (for_each_r n (backward_step L) (util.zeros (Z.of_nat n))) (fun dw =>
  Ok (mk (layer_type L) (out_sx L) (out_sy L) (out_depth L) (drop_prob L)
         (dropped L) (Some (Vol.set_dw V dw)) (out_act L)))).

Record json : Type := mk_json {
  j_layer_type : string;
  j_out_sx : Z;
  j_out_sy : Z;
  j_out_depth : Z;
  j_drop_prob : number
}.

Definition toJSON (L : t) : json :=
  mk_json (layer_type L) (out_sx L) (out_sy L) (out_depth L) (drop_prob L).

Definition fromJSON (j : json) : t :=
  let out_depth := j_out_depth j in
  let out_sx := j_out_sx j in
  let out_sy := j_out_sy j in
  mk (j_layer_type j) out_sx out_sy out_depth (j_drop_prob j)
     (no_drops (out_sx * out_sy * out_depth)) None None.

End DropoutLayer.

(* ================================================================= *)
(** ** convnet_layers_dotproducts.ts *)

(** [ParamsAndGrads] of layers.ts: a parameter array, its gradient
    array and the weight-decay multipliers of the two. *)
Module ParamsAndGrads.

Record t : Type := mk {
  params : list number;
  grads : list number;
  l2_decay_mul : number;
  l1_decay_mul : number
}.

End ParamsAndGrads.

Module ConvLayer.

Record t : Type := mk {
  layer_type : string;
  l1_decay_mul : number;
  l2_decay_mul : number;
  filters : list Vol.t;
  biases : Vol.t;
  out_depth : Z;
  sx : Z;
  in_depth : Z;
  in_sx : option Z;
  in_sy : option Z;
  sy : Z;
  stride : Z;
  pad : Z;
  out_sx : Z;
  out_sy : Z;
  in_act : option Vol.t;
  out_act : option Vol.t
}.

Record options : Type := mk_options {
  opt_filters : Z;
  opt_sx : Z;
  opt_sy : option Z;
  opt_stride : option Z;
  opt_pad : option Z;
  opt_bias_pref : option number;
  opt_l1_decay_mul : option number;
  opt_l2_decay_mul : option number;
  opt_in_sx : Z;
  opt_in_sy : Z;
  opt_in_depth : Z
}.

(** Modelled from the spec: [new Vol(sx, sy, depth)] without a fill
    value draws its weights at random; [draw i] is the weight drawn for
    position [i]. *)
Definition random_vol (sx sy depth : Z) (draw : nat -> number) : Vol.t :=
  Vol.mk sx sy depth
         (map draw (seq 0 (Z.to_nat (sx * sy * depth))))
         (util.zeros (sx * sy * depth)).

(** [draw i] gives the weights drawn for filter [i]. *)
Definition constructor (opt : options) (draw : nat -> nat -> number) : t :=
  let l1_decay_mul := default (Num 0) (opt_l1_decay_mul opt) in
  let l2_decay_mul := default (Num 1) (opt_l2_decay_mul opt) in
  let out_depth := opt_filters opt in
  let sx := opt_sx opt in
  let in_depth := opt_in_depth opt in
  let in_sx := opt_in_sx opt in
  let in_sy := opt_in_sy opt in
  let sy := default sx (opt_sy opt) in
  let stride := default 1 (opt_stride opt) in
  let pad := default 0 (opt_pad opt) in
  let out_sx :=
    JS.floorZ (JS.add (JS.div (JS.of_Z (in_sx + pad * 2 - sx))
                              (JS.of_Z stride))
                      (Num 1)) in
  let out_sy :=
    JS.floorZ (JS.add (JS.div (JS.of_Z (in_sy + pad * 2 - sy))
                              (JS.of_Z stride))
                      (Num 1)) in
  let filters :=
    map (fun i => random_vol sx sy in_depth (draw i))
        (seq 0 (Z.to_nat out_depth)) in
  let bias := default (Num 0) (opt_bias_pref opt) in
  mk "conv" l1_decay_mul l2_decay_mul filters
     (Vol.new 1 1 out_depth bias)
     out_depth sx in_depth (Some in_sx) (Some in_sy) sy stride pad
     out_sx out_sy None None.

(** The three innermost loops: the filter [f] applied at the window
    whose corner is [(x, y)]. *)
Definition convolve (f V : Vol.t) (x y : Z) : number :=
  for_each (Z.to_nat (Vol.sy f))
    (fun fy a =>
       let oy := y + Z.of_nat fy in
       for_each (Z.to_nat (Vol.sx f))
         (fun fx a =>
            let ox := x + Z.of_nat fx in
            if (oy >=? 0) && (oy <? Vol.sy V) && (ox >=? 0) && (ox <? Vol.sx V)
            then
              for_each (Z.to_nat (Vol.depth f))
                (fun fd a =>
                   JS.add a
                     (JS.mul
                        (JS.getZ (Vol.w f)
                           (((Vol.sx f * Z.of_nat fy) + Z.of_nat fx)
                            * Vol.depth f + Z.of_nat fd))
                        (JS.getZ (Vol.w V)
                           (((Vol.sx V * oy) + ox) * Vol.depth V
                            + Z.of_nat fd))))
                a
            else a)
         a)
    (Num 0).

(** The corner of the window of output column (row) [a].  The source
    coerces the padding and the stride with [| 0]; on integers of 32
    bits that is the identity, and the coercion is left out here. *)
Definition corner (L : t) (a : nat) : Z := - pad L + Z.of_nat a * stride L.

(** The body of the loops over the output; [this.filters[d]] is read
    as [f.sy] here, which throws if there is no such filter. *)
Definition forward_step (L : t) (V : Vol.t) (d ay ax : nat) (A : Vol.t)
  : result Vol.t :=
  bind (deref (filters L !! d)) (fun f =>
  let a := convolve f V (corner L ax) (corner L ay) in
  let a := JS.add a (JS.get (Vol.w (biases L)) d) in
  Ok (Vol.set A (Z.of_nat ax) (Z.of_nat ay) (Z.of_nat d) a)).

Definition forward_loops (L : t) (V : Vol.t) : result Vol.t :=
  for_each_r (Z.to_nat (out_depth L))
    (fun d A =>
       for_each_r (Z.to_nat (out_sy L))
         (fun ay A =>
            for_each_r (Z.to_nat (out_sx L))
              (fun ax A => forward_step L V d ay ax A) A)
         A)
    (Vol.new (out_sx L) (out_sy L) (out_depth L) (Num 0)).

Definition set_acts (L : t) (i o : option Vol.t) : t :=
  mk (layer_type L) (l1_decay_mul L) (l2_decay_mul L) (filters L) (biases L)
     (out_depth L) (sx L) (in_depth L) (in_sx L) (in_sy L) (sy L)
     (stride L) (pad L) (out_sx L) (out_sy L) i o.

Definition forward (L : t) (V : Vol.t) : result (t * Vol.t) :=
  bind (forward_loops L V) (fun A =>
  Ok (set_acts L (Some V) (Some A), A)).

(** [getParamsAndGrads]: one entry for each of the [out_depth] filters,
    then the biases; [this.filters[i].w] throws where there is no such
    filter. *)
Definition getParamsAndGrads (L : t) : result (list ParamsAndGrads.t) :=
  bind (for_each_r (Z.to_nat (out_depth L))
          (fun i response =>
             bind (deref (filters L !! i)) (fun f =>
             Ok (response ++
                 [ParamsAndGrads.mk (Vol.w f) (Vol.dw f)
                                    (l2_decay_mul L) (l1_decay_mul L)])))
          []) (fun response =>
  Ok (response ++
      [ParamsAndGrads.mk (Vol.w (biases L)) (Vol.dw (biases L))
                         (Num 0) (Num 0)])).

Record json : Type := mk_json {
  j_layer_type : string;
  j_out_sx : Z;
  j_out_sy : Z;
  j_out_depth : Z;
  j_sx : Z;
  j_sy : Z;
  j_stride : Z;
  j_in_depth : Z;
  j_l1_decay_mul : option number;
  j_l2_decay_mul : option number;
  j_pad : option Z;
  j_filters : list Vol.json;
  j_biases : Vol.json
}.

Definition toJSON (L : t) : json :=
  mk_json (layer_type L) (out_sx L) (out_sy L) (out_depth L) (sx L) (sy L)
          (stride L) (in_depth L) (Some (l1_decay_mul L))
          (Some (l2_decay_mul L)) (Some (pad L))
          (map Vol.toJSON (filters L)) (Vol.toJSON (biases L)).

Definition fromJSON (j : json) : t :=
  mk (j_layer_type j)
     (default (Num 1) (j_l1_decay_mul j))
     (default (Num 1) (j_l2_decay_mul j))
     (map Vol.fromJSON (j_filters j))
     (Vol.fromJSON (j_biases j))
     (j_out_depth j) (j_sx j) (j_in_depth j) None None (j_sy j)
     (j_stride j) (default 0 (j_pad j)) (j_out_sx j) (j_out_sy j)
     None None.

End ConvLayer.

Module FullyConnLayer.

Record t : Type := mk {
  layer_type : string;
  l1_decay_mul : number;
  l2_decay_mul : number;
  filters : list Vol.t;
  biases : Vol.t;
  out_depth : Z;
  num_inputs : Z;
  out_sx : Z;
  out_sy : Z;
  in_act : option Vol.t;
  out_act : option Vol.t
}.

Record options : Type := mk_options {
  opt_num_neurons : option Z;
  opt_filters : Z;
  opt_bias_pref : option number;
  opt_l1_decay_mul : option number;
  opt_l2_decay_mul : option number;
  opt_in_sx : Z;
  opt_in_sy : Z;
  opt_in_depth : Z
}.

Definition constructor (opt : options) (draw : nat -> nat -> number) : t :=
  let l1_decay_mul := default (Num 0) (opt_l1_decay_mul opt) in
  let l2_decay_mul := default (Num 1) (opt_l2_decay_mul opt) in
  let out_depth := default (opt_filters opt) (opt_num_neurons opt) in
  let num_inputs := opt_in_sx opt * opt_in_sy opt * opt_in_depth opt in
  let filters :=
    map (fun i => ConvLayer.random_vol 1 1 num_inputs (draw i))
        (seq 0 (Z.to_nat out_depth)) in
  let bias := default (Num 0) (opt_bias_pref opt) in
  mk "fc" l1_decay_mul l2_decay_mul filters (Vol.new 1 1 out_depth bias)
     out_depth num_inputs 1 1 None None.

(** [a += Vw[d] * wi[d]] over the inputs. *)
Definition dot (L : t) (Vw wi : list number) : number :=
  for_each (Z.to_nat (num_inputs L))
    (fun d a => JS.add a (JS.mul (JS.get Vw d) (JS.get wi d)))
    (Num 0).

Definition forward_step (L : t) (V : Vol.t) (i : nat) (A : Vol.t)
  : result Vol.t :=
  bind (deref (filters L !! i)) (fun f =>
  let a := dot L (Vol.w V) (Vol.w f) in
  let a := JS.add a (JS.get (Vol.w (biases L)) i) in
  Ok (Vol.set_w A (JS.set (Vol.w A) i a))).

Definition set_acts (L : t) (i o : option Vol.t) : t :=
  mk (layer_type L) (l1_decay_mul L) (l2_decay_mul L) (filters L) (biases L)
     (out_depth L) (num_inputs L) (out_sx L) (out_sy L) i o.

Definition forward (L : t) (V : Vol.t) : result (t * Vol.t) :=
  bind (for_each_r (Z.to_nat (out_depth L)) (forward_step L V)
                   (Vol.new 1 1 (out_depth L) (Num 0))) (fun A =>
  Ok (set_acts L (Some V) (Some A), A)).

(** The inner loop of [backward] for one filter, on [V.dw] and the
    gradient [tfi.dw] of the filter. *)
Definition backward_inner (tfi : Vol.t) (chain_grad : number)
    (Vw : list number) (d : nat) (s : list number * list number)
  : list number * list number :=
  let '(Vdw, fdw) := s in
  (JS.set Vdw d
     (JS.add (JS.get Vdw d) (JS.mul (JS.get (Vol.w tfi) d) chain_grad)),
   JS.set fdw d
     (JS.add (JS.get fdw d) (JS.mul (JS.get Vw d) chain_grad))).

(** The body of the outer loop, on [V.dw], the filters and
    [this.biases.dw]; [this.out_act] is read here, and a filter that is
    [undefined] when the inner loop runs. *)
Definition backward_step (L : t) (V : Vol.t) (i : nat)
    (s : list number * list Vol.t * list number)
  : result (list number * list Vol.t * list number) :=
  let '(Vdw, filters, bdw) := s in
  bind (deref (out_act L)) (fun A =>
  let chain_grad := JS.get (Vol.dw A) i in
  bind (match filters !! i with
        | Some tfi =>
            let '(Vdw, fdw) :=
              for_each (Z.to_nat (num_inputs L))
                (backward_inner tfi chain_grad (Vol.w V))
                (Vdw, Vol.dw tfi) in
            Ok (Vdw, <[i := Vol.set_dw tfi fdw]> filters)
        | None =>
            if 0 <? num_inputs L then Throw TypeError else Ok (Vdw, filters)
        end) (fun '(Vdw, filters) =>
  Ok (Vdw, filters, JS.set bdw i (JS.add (JS.get bdw i) chain_grad)))).

(** [backward] accumulates into the gradients of the filters and of the
    biases, and overwrites the gradient of the input. *)
Definition backward (L : t) : result t :=
  bind (deref (in_act L)) (fun V =>
  bind (for_each_r (Z.to_nat (out_depth L)) (backward_step L V)
          (util.zeros (Z.of_nat (length (Vol.w V))), filters L,
           Vol.dw (biases L))) (fun '(Vdw, filters, bdw) =>
  Ok (mk (layer_type L) (l1_decay_mul L) (l2_decay_mul L) filters
         (Vol.set_dw (biases L) bdw) (out_depth L) (num_inputs L)
         (out_sx L) (out_sy L) (Some (Vol.set_dw V Vdw)) (out_act L)))).

Definition getParamsAndGrads (L : t) : result (list ParamsAndGrads.t) :=
  bind (for_each_r (Z.to_nat (out_depth L))
          (fun i response =>
             bind (deref (filters L !! i)) (fun f =>
             Ok (response ++
                 [ParamsAndGrads.mk (Vol.w f) (Vol.dw f)
                                    (l2_decay_mul L) (l1_decay_mul L)])))
          []) (fun response =>
  Ok (response ++
      [ParamsAndGrads.mk (Vol.w (biases L)) (Vol.dw (biases L))
                         (Num 0) (Num 0)])).

Record json : Type := mk_json {
  j_layer_type : string;
  j_out_sx : Z;
  j_out_sy : Z;
  j_out_depth : Z;
  j_num_inputs : Z;
  j_l1_decay_mul : option number;
  j_l2_decay_mul : option number;
  j_filters : list Vol.json;
  j_biases : Vol.json
}.

Definition toJSON (L : t) : json :=
  mk_json (layer_type L) (out_sx L) (out_sy L) (out_depth L) (num_inputs L)
          (Some (l1_decay_mul L)) (Some (l2_decay_mul L))
          (map Vol.toJSON (filters L)) (Vol.toJSON (biases L)).

Definition fromJSON (j : json) : t :=
  mk (j_layer_type j)
     (default (Num 1) (j_l1_decay_mul j))
     (default (Num 1) (j_l2_decay_mul j))
     (map Vol.fromJSON (j_filters j))
     (Vol.fromJSON (j_biases j))
     (j_out_depth j) (j_num_inputs j) (j_out_sx j) (j_out_sy j) None None.

End FullyConnLayer.

(* ================================================================= *)
(** ** convnet_layers_input.ts *)

Module InputLayer.

Record t : Type := mk {
  layer_type : string;
  out_depth : Z;
  out_sx : Z;
  out_sy : Z;
  in_act : option Vol.t
}.

(** [forward] stores the one object [V] in both [in_act] and [out_act]. *)
Definition out_act (L : t) : option Vol.t := in_act L.

(** The constructor reads its options through [getopt] of convnet_util,
    which is not among the sources; no property below needs it.

    [forward] never looks at [V]: it hands on whatever it is given. *)
Definition forward (L : t) (V : option Vol.t) : t * option Vol.t :=
  (mk (layer_type L) (out_depth L) (out_sx L) (out_sy L) V, V).

Record json : Type := mk_json {
  j_layer_type : string;
  j_out_sx : Z;
  j_out_sy : Z;
  j_out_depth : Z
}.

Definition toJSON (L : t) : json :=
  mk_json (layer_type L) (out_sx L) (out_sy L) (out_depth L).

Definition fromJSON (j : json) : t :=
  mk (j_layer_type j) (j_out_depth j) (j_out_sx j) (j_out_sy j) None.

End InputLayer.

(* ================================================================= *)
(** ** convnet_layers_normalization *)

Module LocalResponseNormalizationLayer.

(** Modelled from the spec: the local response normalization layer
    (convnet_layers_normalization is not among the sources).  The
    neighbourhood size [n] and the constants [k], [alpha], [beta] are its
    configuration; each value is divided by a power of
    [k + alpha * (sum of squares)] over the channels within the radius
    [n / 2] at the same position, and the denominators are cached. *)
Record t : Type := mk {
  layer_type : string;
  k : number;
  n : Z;
  alpha : number;
  beta : number;
  out_sx : Z;
  out_sy : Z;
  out_depth : Z;
  in_act : option Vol.t;
  out_act : option Vol.t;
  S_cache_ : option Vol.t
}.

(** Modelled from the spec: the sum of squares over the neighbourhood
    of channel [i] at [(x, y)]. *)
Definition sum_squares (L : t) (V : Vol.t) (x y i : Z) : number :=
  let lo := Z.max 0 (i - n L / 2) in
  let hi := Z.min (i + n L / 2) (Vol.depth V - 1) in
  for_each (Z.to_nat (hi - lo + 1))
    (fun j den =>
       let aa := Vol.get V x y (lo + Z.of_nat j) in
       JS.add den (JS.mul aa aa))
    (Num 0).

(** Modelled from the spec: [forward], see the record above. *)
Definition forward (L : t) (V : Vol.t) : t * Vol.t :=
  let '(A, cache) :=
    for_each (Z.to_nat (Vol.sx V))
      (fun x s =>
         for_each (Z.to_nat (Vol.sy V))
           (fun y s =>
              for_each (Z.to_nat (Vol.depth V))
                (fun i '(A, cache) =>
                   let x := Z.of_nat x in
                   let y := Z.of_nat y in
                   let i := Z.of_nat i in
                   let ai := Vol.get V x y i in
                   let den :=
                     JS.add (k L) (JS.mul (alpha L) (sum_squares L V x y i)) in
                   (Vol.set A x y i (JS.div ai (Math_pow den (beta L))),
                    Vol.set cache x y i den))
                s)
           s)
      (Vol.cloneAndZero V, Vol.cloneAndZero V) in
  (mk (layer_type L) (k L) (n L) (alpha L) (beta L)
      (out_sx L) (out_sy L) (out_depth L) (Some V) (Some A) (Some cache),
   A).

Record json : Type := mk_json {
  j_layer_type : string;
  j_k : number;
  j_n : Z;
  j_alpha : number;
  j_beta : number;
  j_out_sx : Z;
  j_out_sy : Z;
  j_out_depth : Z
}.

(** Modelled from the spec: the serialized record carries the tag, the
    output dimensions and the configuration. *)
Definition toJSON (L : t) : json :=
  mk_json (layer_type L) (k L) (n L) (alpha L) (beta L)
          (out_sx L) (out_sy L) (out_depth L).

Definition fromJSON (j : json) : t :=
  mk (j_layer_type j) (j_k j) (j_n j) (j_alpha j) (j_beta j)
     (j_out_sx j) (j_out_sy j) (j_out_depth j) None None None.

End LocalResponseNormalizationLayer.

(* ================================================================= *)
(** ** convnet_net.ts: Net *)

(** [LayerType] and [SerializedLayerType] of typings: the unions of the
    thirteen layer classes and of their serialized records, told apart
    by the [layer_type] tag. *)
Inductive LayerType : Type :=
| Input (L : InputLayer.t)
| Relu (L : ReluLayer.t)
| Sigmoid (L : SigmoidLayer.t)
| Tanh (L : TanhLayer.t)
| Dropout (L : DropoutLayer.t)
| Conv (L : ConvLayer.t)
| Pool (L : PoolLayer.t)
| LRN (L : LocalResponseNormalizationLayer.t)
| Softmax (L : SoftmaxLayer.t)
| Regression (L : RegressionLayer.t)
| FullyConn (L : FullyConnLayer.t)
| Maxout (L : MaxoutLayer.t)
| SVM (L : SVMLayer.t).

Inductive SerializedLayerType : Type :=
| SerializedInput (j : InputLayer.json)
| SerializedRelu (j : ReluLayer.json)
| SerializedSigmoid (j : SigmoidLayer.json)
| SerializedTanh (j : TanhLayer.json)
| SerializedDropout (j : DropoutLayer.json)
| SerializedConv (j : ConvLayer.json)
| SerializedPool (j : PoolLayer.json)
| SerializedLocalResponseNormalization
    (j : LocalResponseNormalizationLayer.json)
| SerializedSoftmax (j : SoftmaxLayer.json)
| SerializedRegression (j : RegressionLayer.json)
| SerializedFullyConn (j : FullyConnLayer.json)
| SerializedMaxout (j : MaxoutLayer.json)
| SerializedSVM (j : SVMLayer.json).

Module Net.

Record t : Type := mk { layers : list LayerType }.

Record SerializedNet : Type := mk_json {
  j_layers : option (list SerializedLayerType)
}.

(** [this.layers[i].toJSON()] *)
Definition layer_toJSON (L : LayerType) : SerializedLayerType :=
  match L with
  | Input L => SerializedInput (InputLayer.toJSON L)
  | Relu L => SerializedRelu (ReluLayer.toJSON L)
  | Sigmoid L => SerializedSigmoid (SigmoidLayer.toJSON L)
  | Tanh L => SerializedTanh (TanhLayer.toJSON L)
  | Dropout L => SerializedDropout (DropoutLayer.toJSON L)
  | Conv L => SerializedConv (ConvLayer.toJSON L)
  | Pool L => SerializedPool (PoolLayer.toJSON L)
  | LRN L =>
      SerializedLocalResponseNormalization
        (LocalResponseNormalizationLayer.toJSON L)
  | Softmax L => SerializedSoftmax (SoftmaxLayer.toJSON L)
  | Regression L => SerializedRegression (RegressionLayer.toJSON L)
  | FullyConn L => SerializedFullyConn (FullyConnLayer.toJSON L)
  | Maxout L => SerializedMaxout (MaxoutLayer.toJSON L)
  | SVM L => SerializedSVM (SVMLayer.toJSON L)
  end.

Definition toJSON (net : t) : SerializedNet :=
  mk_json (Some (map layer_toJSON (layers net))).

(** The four fields every serialized layer carries, read by name from
    whichever record [layer] is. *)
Definition json_layer_type (layer : SerializedLayerType) : string :=
  match layer with
  | SerializedInput j => InputLayer.j_layer_type j
  | SerializedRelu j => ReluLayer.j_layer_type j
  | SerializedSigmoid j => SigmoidLayer.j_layer_type j
  | SerializedTanh j => TanhLayer.j_layer_type j
  | SerializedDropout j => DropoutLayer.j_layer_type j
  | SerializedConv j => ConvLayer.j_layer_type j
  | SerializedPool j => PoolLayer.j_layer_type j
  | SerializedLocalResponseNormalization j =>
      LocalResponseNormalizationLayer.j_layer_type j
  | SerializedSoftmax j => SoftmaxLayer.j_layer_type j
  | SerializedRegression j => RegressionLayer.j_layer_type j
  | SerializedFullyConn j => FullyConnLayer.j_layer_type j
  | SerializedMaxout j => MaxoutLayer.j_layer_type j
  | SerializedSVM j => SVMLayer.j_layer_type j
  end.

Definition json_out_sx (layer : SerializedLayerType) : Z :=
  match layer with
  | SerializedInput j => InputLayer.j_out_sx j
  | SerializedRelu j => ReluLayer.j_out_sx j
  | SerializedSigmoid j => SigmoidLayer.j_out_sx j
  | SerializedTanh j => TanhLayer.j_out_sx j
  | SerializedDropout j => DropoutLayer.j_out_sx j
  | SerializedConv j => ConvLayer.j_out_sx j
  | SerializedPool j => PoolLayer.j_out_sx j
  | SerializedLocalResponseNormalization j =>
      LocalResponseNormalizationLayer.j_out_sx j
  | SerializedSoftmax j => SoftmaxLayer.j_out_sx j
  | SerializedRegression j => RegressionLayer.j_out_sx j
  | SerializedFullyConn j => FullyConnLayer.j_out_sx j
  | SerializedMaxout j => MaxoutLayer.j_out_sx j
  | SerializedSVM j => SVMLayer.j_out_sx j
  end.

Definition json_out_sy (layer : SerializedLayerType) : Z :=
  match layer with
  | SerializedInput j => InputLayer.j_out_sy j
  | SerializedRelu j => ReluLayer.j_out_sy j
  | SerializedSigmoid j => SigmoidLayer.j_out_sy j
  | SerializedTanh j => TanhLayer.j_out_sy j
  | SerializedDropout j => DropoutLayer.j_out_sy j
  | SerializedConv j => ConvLayer.j_out_sy j
  | SerializedPool j => PoolLayer.j_out_sy j
  | SerializedLocalResponseNormalization j =>
      LocalResponseNormalizationLayer.j_out_sy j
  | SerializedSoftmax j => SoftmaxLayer.j_out_sy j
  | SerializedRegression j => RegressionLayer.j_out_sy j
  | SerializedFullyConn j => FullyConnLayer.j_out_sy j
  | SerializedMaxout j => MaxoutLayer.j_out_sy j
  | SerializedSVM j => SVMLayer.j_out_sy j
  end.

Definition json_out_depth (layer : SerializedLayerType) : Z :=
  match layer with
  | SerializedInput j => InputLayer.j_out_depth j
  | SerializedRelu j => ReluLayer.j_out_depth j
  | SerializedSigmoid j => SigmoidLayer.j_out_depth j
  | SerializedTanh j => TanhLayer.j_out_depth j
  | SerializedDropout j => DropoutLayer.j_out_depth j
  | SerializedConv j => ConvLayer.j_out_depth j
  | SerializedPool j => PoolLayer.j_out_depth j
  | SerializedLocalResponseNormalization j =>
      LocalResponseNormalizationLayer.j_out_depth j
  | SerializedSoftmax j => SoftmaxLayer.j_out_depth j
  | SerializedRegression j => RegressionLayer.j_out_depth j
  | SerializedFullyConn j => FullyConnLayer.j_out_depth j
  | SerializedMaxout j => MaxoutLayer.j_out_depth j
  | SerializedSVM j => SVMLayer.j_out_depth j
  end.

(** [layer.num_inputs]: the records of the three loss layers and of the
    fully connected layer have the field. *)
Definition json_num_inputs (layer : SerializedLayerType) : option Z :=
  match layer with
  | SerializedSoftmax j => Some (SoftmaxLayer.j_num_inputs j)
  | SerializedRegression j => Some (RegressionLayer.j_num_inputs j)
  | SerializedSVM j => Some (SVMLayer.j_num_inputs j)
  | SerializedFullyConn j => Some (FullyConnLayer.j_num_inputs j)
  | _ => None
  end.

(** The fields [PoolLayer.fromJSON] reads ([sx], [sy], [stride],
    [in_depth], [pad]): the records of the pooling and of the
    convolution layer have them. *)
Definition json_pool (layer : SerializedLayerType) : option PoolLayer.json :=
  match layer with
  | SerializedPool j => Some j
  | SerializedConv j =>
      Some (PoolLayer.mk_json (ConvLayer.j_layer_type j) (ConvLayer.j_out_sx j)
              (ConvLayer.j_out_sy j) (ConvLayer.j_out_depth j)
              (ConvLayer.j_in_depth j) (ConvLayer.j_sx j) (ConvLayer.j_sy j)
              (ConvLayer.j_stride j) (ConvLayer.j_pad j))
  | _ => None
  end.

(** [layer.filters] is defined: the records of the convolution and of
    the fully connected layer. *)
Definition json_has_filters (layer : SerializedLayerType) : bool :=
  match layer with
  | SerializedConv _ | SerializedFullyConn _ => true
  | _ => false
  end.

(** What [fromJSON] pushes on [this.layers] for one record.  The class
    is chosen by the tag alone, and its [fromJSON] reads its fields by
    name from whatever record carries the tag.  [Loaded L]: the record
    has every field the class reads.  [LoadedUndefined]: no test on
    the tag passed and [L] was never assigned.  [LoadedPartial]: the
    record lacks a field the class reads, so the layer has that field
    [undefined]; the layer records above have no place for an undefined
    dimension, so such a layer is kept as the tag and the record it was
    read from, and its methods are not modelled. *)
Inductive loaded : Type :=
| Loaded (L : LayerType)
| LoadedUndefined
| LoadedPartial (layer_type : string) (layer : SerializedLayerType).

(** The thirteen tests on [layer.layer_type] in the loop of [fromJSON],
    in their order; the tags differ, so at most one passes.  The
    [fromJSON] of the two classes with weights reads
    [json.filters.length], which throws on a record without filters. *)
Definition layer_fromJSON (layer : SerializedLayerType) : result loaded :=
  let layer_type := json_layer_type layer in
  let out_sx := json_out_sx layer in
  let out_sy := json_out_sy layer in
  let out_depth := json_out_depth layer in
  if String.eqb layer_type "input" then
    Ok (Loaded (Input (InputLayer.fromJSON
         (InputLayer.mk_json layer_type out_sx out_sy out_depth))))
  else if String.eqb layer_type "relu" then
    Ok (Loaded (Relu (ReluLayer.fromJSON
         (ReluLayer.mk_json layer_type out_sx out_sy out_depth))))
  else if String.eqb layer_type "sigmoid" then
    Ok (Loaded (Sigmoid (SigmoidLayer.fromJSON
         (SigmoidLayer.mk_json layer_type out_sx out_sy out_depth))))
  else if String.eqb layer_type "tanh" then
    Ok (Loaded (Tanh (TanhLayer.fromJSON
         (TanhLayer.mk_json layer_type out_sx out_sy out_depth))))
  else if String.eqb layer_type "dropout" then
    match layer with
    | SerializedDropout j => Ok (Loaded (Dropout (DropoutLayer.fromJSON j)))
    | _ => Ok (LoadedPartial layer_type layer)
    end
  else if String.eqb layer_type "conv" then
    match layer with
    | SerializedConv j => Ok (Loaded (Conv (ConvLayer.fromJSON j)))
    | _ =>
        if json_has_filters layer then Ok (LoadedPartial layer_type layer)
        else Throw TypeError
    end
  else if String.eqb layer_type "pool" then
    match json_pool layer with
    | Some j => Ok (Loaded (Pool (PoolLayer.fromJSON j)))
    | None => Ok (LoadedPartial layer_type layer)
    end
  else if String.eqb layer_type "lrn" then
    match layer with
    | SerializedLocalResponseNormalization j =>
        Ok (Loaded (LRN (LocalResponseNormalizationLayer.fromJSON j)))
    | _ => Ok (LoadedPartial layer_type layer)
    end
  else if String.eqb layer_type "softmax" then
    match json_num_inputs layer with
    | Some num_inputs =>
        Ok (Loaded (Softmax (SoftmaxLayer.fromJSON
             (SoftmaxLayer.mk_json layer_type out_sx out_sy out_depth
                                   num_inputs))))
    | None => Ok (LoadedPartial layer_type layer)
    end
  else if String.eqb layer_type "regression" then
    match json_num_inputs layer with
    | Some num_inputs =>
        Ok (Loaded (Regression (RegressionLayer.fromJSON
             (RegressionLayer.mk_json layer_type out_sx out_sy out_depth
                                      num_inputs))))
    | None => Ok (LoadedPartial layer_type layer)
    end
  else if String.eqb layer_type "fc" then
    match layer with
    | SerializedFullyConn j =>
        Ok (Loaded (FullyConn (FullyConnLayer.fromJSON j)))
    | _ =>
        if json_has_filters layer then Ok (LoadedPartial layer_type layer)
        else Throw TypeError
    end
  else if String.eqb layer_type "maxout" then
    match layer with
    | SerializedMaxout j => Ok (Loaded (Maxout (MaxoutLayer.fromJSON j)))
    | _ => Ok (LoadedPartial layer_type layer)
    end
  else if String.eqb layer_type "svm" then
    match json_num_inputs layer with
    | Some num_inputs =>
        Ok (Loaded (SVM (SVMLayer.fromJSON
             (SVMLayer.mk_json layer_type out_sx out_sy out_depth
                               num_inputs))))
    | None => Ok (LoadedPartial layer_type layer)
    end
  else Ok LoadedUndefined.

(** The loop of [fromJSON] over [json.layers]. *)
Fixpoint fromJSON_loop (layers : list SerializedLayerType)
  : result (list loaded) :=
  match layers with
  | [] => Ok []
  | layer :: rest =>
      bind (layer_fromJSON layer) (fun L =>
      bind (fromJSON_loop rest) (fun Ls => Ok (L :: Ls)))
  end.

(** [fromJSON] reads [json.layers.length]; what it returns here is
    [this.layers] as the loop leaves it. *)
Definition fromJSON (json : SerializedNet) : result (list loaded) :=
  bind (deref (j_layers json)) fromJSON_loop.

(** [layer.forward(act, is_training)] for whatever [act] is.  An
    activation is [undefined] only when a layer before returned that;
    the layers that read a property of [V] then throw. *)
Definition layer_forward (L : LayerType) (act : option Vol.t)
    (is_training : bool) (g : rng)
  : result (LayerType * option Vol.t * rng) :=
  match L, act with
  | Input L, _ =>
      let '(L, V) := InputLayer.forward L act in Ok (Input L, V, g)
  | Regression L, Some V =>
      let '(L, V) := RegressionLayer.forward L V in
      Ok (Regression L, Some V, g)
  | Regression L, None =>
      Ok (Regression (RegressionLayer.forward_undefined L), None, g)
  | SVM L, Some V =>
      let '(L, V) := SVMLayer.forward L V in Ok (SVM L, Some V, g)
  | SVM L, None => Ok (SVM (SVMLayer.forward_undefined L), None, g)
  | Relu L, Some V =>
      let '(L, V) := ReluLayer.forward L V in Ok (Relu L, V, g)
  | Sigmoid L, Some V =>
      let '(L, V) := SigmoidLayer.forward L V in Ok (Sigmoid L, Some V, g)
  | Tanh L, Some V =>
      let '(L, V) := TanhLayer.forward L V in Ok (Tanh L, Some V, g)
  | Dropout L, Some V =>
      let '(L, V, g) := DropoutLayer.forward L V (Some is_training) g in
      Ok (Dropout L, Some V, g)
  | Conv L, Some V =>
      bind (ConvLayer.forward L V) (fun '(L, V) => Ok (Conv L, Some V, g))
  | Pool L, Some V =>
      let '(L, V) := PoolLayer.forward L V in Ok (Pool L, Some V, g)
  | Pool L, None =>
      bind (PoolLayer.forward_undefined L) (fun '(L, V) =>
      Ok (Pool L, Some V, g))
  | LRN L, Some V =>
      let '(L, V) := LocalResponseNormalizationLayer.forward L V in
      Ok (LRN L, Some V, g)
  | Softmax L, Some V =>
      let '(L, V) := SoftmaxLayer.forward L V in Ok (Softmax L, Some V, g)
  | FullyConn L, Some V =>
      bind (FullyConnLayer.forward L V) (fun '(L, V) =>
      Ok (FullyConn L, Some V, g))
  | Maxout L, Some V =>
      let '(L, V) := MaxoutLayer.forward L V in Ok (Maxout L, Some V, g)
  | Maxout L, None =>
      bind (MaxoutLayer.forward_undefined L) (fun '(L, V) =>
      Ok (Maxout L, Some V, g))
  | _, None => Throw TypeError
  end.

(** The loop of [forward] over the layers after the first. *)
Fixpoint forward_rest (rest : list LayerType) (act : option Vol.t)
    (is_training : bool) (g : rng)
  : result (list LayerType * option Vol.t * rng) :=
  match rest with
  | [] => Ok ([], act, g)
  | L :: rest =>
      bind (layer_forward L act is_training g) (fun '(L, act, g) =>
      bind (forward_rest rest act is_training g) (fun '(rest, act, g) =>
      Ok (L :: rest, act, g)))
  end.

(** [forward(V, is_training)] returns the network with the activations
    its layers cached, the last activation, and the random source. *)
Definition forward (net : t) (V : Vol.t) (is_training : option bool) (g : rng)
  : result (t * option Vol.t * rng) :=
  let is_training := default false is_training in
  match layers net with
  | [] => Throw TypeError
  | L0 :: rest =>
      bind (layer_forward L0 (Some V) is_training g) (fun '(L0, act, g) =>
      bind (forward_rest rest act is_training g) (fun '(rest, act, g) =>
      Ok (mk (L0 :: rest), act, g)))
  end.

(** [this.layers[i].getParamsAndGrads()]: every class but the two with
    weights returns the empty array (modelled from the spec for the
    normalization layer, which is not among the sources). *)
Definition layer_getParamsAndGrads (L : LayerType)
  : result (list ParamsAndGrads.t) :=
  match L with
  | Conv L => ConvLayer.getParamsAndGrads L
  | FullyConn L => FullyConnLayer.getParamsAndGrads L
  | _ => Ok []
  end.

(** [getParamsAndGrads] pushes the entries of every layer, in order. *)
Definition getParamsAndGrads (net : t) : result (list ParamsAndGrads.t) :=
  for_each_r (length (layers net))
    (fun i response =>
       bind (deref (layers net !! i)) (fun L =>
       bind (layer_getParamsAndGrads L) (fun layer_reponse =>
       Ok (for_each (length layer_reponse)
             (fun j response =>
                match layer_reponse !! j with
                | Some e => response ++ [e]
                | None => response
                end)
             response))))
    [].

(** [S.layer_type] *)
Definition layer_type_of (L : LayerType) : string :=
  match L with
  | Input L => InputLayer.layer_type L
  | Relu L => ReluLayer.layer_type L
  | Sigmoid L => SigmoidLayer.layer_type L
  | Tanh L => TanhLayer.layer_type L
  | Dropout L => DropoutLayer.layer_type L
  | Conv L => ConvLayer.layer_type L
  | Pool L => PoolLayer.layer_type L
  | LRN L => LocalResponseNormalizationLayer.layer_type L
  | Softmax L => SoftmaxLayer.layer_type L
  | Regression L => RegressionLayer.layer_type L
  | FullyConn L => FullyConnLayer.layer_type L
  | Maxout L => MaxoutLayer.layer_type L
  | SVM L => SVMLayer.layer_type L
  end.

(** What [getPrediction] throws: an error of the kinds above, or the
    plain [Error] of its last statement. *)
Inductive exception : Type :=
| Thrown (e : error)
| PlainError (msg : string).

(** The loop of [getPrediction] over [p], on [maxv] and [maxi]. *)
Definition argmax (p : list number) : number * nat :=
  for_from 1 (length p - 1)
    (fun i '(maxv, maxi) =>
       if JS.gt (JS.get p i) maxv then (JS.get p i, i) else (maxv, maxi))
    (JS.get p 0, O).

(** [getPrediction]: [S] is [undefined] in a network without layers;
    [assert] (modelled from the spec, convnet_util is not among the
    sources) throws when the tag of [S] is not softmax. *)
Definition getPrediction (net : t) : exception + nat :=
  match last (layers net) with
  | None => inl (Thrown TypeError)
  | Some S_ =>
      if String.eqb (layer_type_of S_) "softmax"
      then
        match S_ with
        | Softmax S_ =>
            match SoftmaxLayer.out_act S_ with
            | Some A => inr (snd (argmax (Vol.w A)))
            | None => inl (Thrown TypeError)
            end
        | _ =>
            inl (PlainError "to getPrediction, the last layer must be softmax")
        end
      else
        inl (Thrown (AssertionFailed
          "getPrediction function assumes softmax as last layer of the net!"))
  end.

End Net.

(* ================================================================= *)
(** ** convnet_net.ts: makeLayers, the desugaring pass *)

(** A layer definition is an object literal: a finite map from field
    names to values.  [prop def k] is [def.k], [has def k] is
    [k in def]. *)
Inductive value : Type :=
| VNum (n : number)
| VStr (s : string)
| VUndefined.

Abbreviation LayerDef := (gmap string value).

Definition prop (def : LayerDef) (k : string) : value :=
  default VUndefined (def !! k).

Definition has (def : LayerDef) (k : string) : bool :=
  bool_decide (is_Some (def !! k)).



Module makeLayers.



(** Modelled from the spec: [util.assert] (convnet_util is not among the
    sources) fails fast when the condition is false. *)
Definition assert (condition : bool) (message : string) : result unit :=
  if condition then Ok tt else Throw (AssertionFailed message).


End makeLayers.

(* ================================================================= *)
(** * Vocabulary of the properties, and the inputs of the examples *)

(** ** For: ReluLayer.forward *)

Definition relu_tensor : Vol.t :=
  Vol.mk 1 1 2 [Num 1; Num (-2)] [Num 0; Num 0].

(** ** For: SoftmaxLayer *)

Definition indicator (i : nat) (y : Z) : number :=
  if Z.of_nat i =? y then Num 1 else Num 0.

Definition two_scores : Vol.t :=
  Vol.mk 1 1 2 [Num 0; Num 0] [Num 0; Num 0].

Definition softmax_after_forward : SoftmaxLayer.t :=
  fst (SoftmaxLayer.forward
         (SoftmaxLayer.constructor (SoftmaxLayer.mk_options 1 1 2))
         two_scores).

Definition softmax_cached : SoftmaxLayer.t :=
  SoftmaxLayer.mk "softmax" 2 1 1 2 (Some two_scores) None
                  (Some [Num (1 / 2); Num (1 / 2)]).

(** ** For: SVMLayer.backward *)

(** The margin violation [x_i - x_y + 1] of class [i] against the true
    class [y], on the scores [xw]. *)
Definition margin_violation (xw : list number) (y : Z) (i : nat) : number :=
  JS.add (JS.sub (JS.get xw i) (JS.getZ xw y)) (Num 1).

(** Class [i] is another class than [y] and its margin violation is
    positive. *)
Definition violates (xw : list number) (y : Z) (i : nat) : bool :=
  negb (y =? Z.of_nat i) && JS.gt (margin_violation xw y i) (Num 0).

(** The violating classes among the first [n], in increasing order. *)
Definition violators (xw : list number) (y : Z) (n : nat) : list nat :=
  List.filter (violates xw y) (seq 0 n).

(** The positive margin violations, added up in that order. *)
Definition hinge_loss (xw : list number) (y : Z) (n : nat) : number :=
  fold_left JS.add (map (margin_violation xw y) (violators xw y n)) (Num 0).

Definition svm_scores : Vol.t :=
  Vol.mk 1 1 2 [Num 3; Num 1] [Num 0; Num 0].

Definition svm_after_forward : SVMLayer.t :=
  fst (SVMLayer.forward (SVMLayer.constructor (SVMLayer.mk_options 1 1 2))
                        svm_scores).

(** ** For: the output size of ConvLayer and PoolLayer *)

(** [floor((in_size + 2*pad - filter_size)/stride + 1)], over the reals. *)
Definition output_size (in_size pad filter_size stride : Z) : Z :=
  Zfloor (IZR (in_size + 2 * pad - filter_size) / IZR stride + 1).

Definition conv_5_3 (pad : Z) : ConvLayer.options :=
  ConvLayer.mk_options 1 3 None (Some 1) (Some pad) None None None 5 5 1.

Definition pool_5_3 (pad : Z) : PoolLayer.options :=
  PoolLayer.mk_options 3 None (Some 1) (Some pad) 5 5 1.

Definition no_draw : nat -> nat -> number := fun _ _ => Num 0.

(** ** For: DropoutLayer.forward *)

(** What [forward] returns in prediction mode. *)
Definition scaled (L : DropoutLayer.t) (V : Vol.t) : Vol.t :=
  Vol.mk (Vol.sx V) (Vol.sy V) (Vol.depth V)
         (map (fun v => JS.mul v (DropoutLayer.drop_prob L)) (Vol.w V))
         (Vol.dw V).

(** ** For: the switch and mask arrays *)

Definition maxout_6_2 : MaxoutLayer.t :=
  MaxoutLayer.constructor (MaxoutLayer.mk_options 1 1 6 (Some 2)).

(** ** For: the desugaring pass of makeLayers *)










(** ** For: MaxoutLayer: the two code paths *)

Definition maxout_input : Vol.t :=
  Vol.mk 1 1 4 [Num 1; Num 5; Num 7; Num 2] [Num 0; Num 0; Num 0; Num 0].

Definition maxout_4_2 : MaxoutLayer.t :=
  MaxoutLayer.mk "maxout" 1 1 2 2 [0; 0] None None.

(** A 1x1 maxout layer over one group of four channels, as the
    constructor builds it (one switch), and the layer [fromJSON] makes
    of its record (as many switches as the group has channels). *)
Definition maxout_4_4 : MaxoutLayer.t :=
  MaxoutLayer.mk "maxout" 1 1 1 4 [0] None None.

Definition maxout_reloaded : MaxoutLayer.t :=
  MaxoutLayer.fromJSON (MaxoutLayer.toJSON maxout_4_4).

(** A tensor two positions wide. *)
Definition maxout_wide_input : Vol.t :=
  Vol.mk 2 1 4
    [Num 1; Num 2; Num 3; Num 4; Num 1; Num 2; Num 3; Num 4]
    [Num 0; Num 0; Num 0; Num 0; Num 0; Num 0; Num 0; Num 0].

(** ** For: nested loops as one pass over the positions visited *)

(** The pairs [(i, j)], [i < a], [j < b], in the order two nested loops
    visit them. *)
Definition pairs (a b : nat) : list (nat * nat) :=
  seq 0 a ≫= (fun i => (fun j => (i, j)) <$> seq 0 b).

(** ** For: PoolLayer: one window *)

(** The input position the filter offset [p] looks at from the corner
    [(x, y)], whether it is inside the input, and the value there. *)
Definition window_x (x : Z) (p : nat * nat) : Z := x + Z.of_nat (fst p).

Definition window_y (y : Z) (p : nat * nat) : Z := y + Z.of_nat (snd p).

Definition window_in (V : Vol.t) (x y : Z) (p : nat * nat) : bool :=
  PoolLayer.in_bounds V (window_x x p) (window_y y p).

Definition window_value (V : Vol.t) (x y d : Z) (p : nat * nat) : number :=
  Vol.get V (window_x x p) (window_y y p) d.

(** What holds of the running maximum after the offsets [l]. *)
Definition window_inv (V : Vol.t) (x y d : Z) (l : list (nat * nat))
    (r : number * Z * Z) : Prop :=
  exists a winx winy,
    r = (a, winx, winy) /\
    (forall q, q ∈ l -> window_in V x y q = true ->
       JS.gt (window_value V x y d q) a = false) /\
    ((a, winx, winy) = (PoolLayer.sentinel, -1, -1) \/
     exists p, p ∈ l /\ window_in V x y p = true /\
       a = window_value V x y d p /\
       winx = window_x x p /\ winy = window_y y p /\
       JS.gt a PoolLayer.sentinel = true).

(** The input position [(ox, oy)] is one that the window of the output
    position [(ax, ay)] covers, and it is inside the input: the window
    starts at [-pad + a * stride] in each direction and is [sx] wide
    and [sy] high. *)
Definition in_window (L : PoolLayer.t) (V : Vol.t) (ax ay : nat)
    (ox oy : Z) : Prop :=
  let x := - PoolLayer.pad L + Z.of_nat ax * PoolLayer.stride L in
  let y := - PoolLayer.pad L + Z.of_nat ay * PoolLayer.stride L in
  (x <= ox < x + PoolLayer.sx L /\ y <= oy < y + PoolLayer.sy L) /\
  (0 <= ox < Vol.sx V /\ 0 <= oy < Vol.sy V).

(** ** For: PoolLayer.forward: every output position *)

(** The output positions [(d, ax, ay)] in the order [forward] visits
    them; the switch counter [n] is the place in this list. *)
Definition positions (L : PoolLayer.t) : list (nat * nat * nat) :=
  seq 0 (Z.to_nat (PoolLayer.out_depth L)) ≫= (fun d =>
    (fun p => (d, fst p, snd p))
      <$> pairs (Z.to_nat (PoolLayer.out_sx L)) (Z.to_nat (PoolLayer.out_sy L))).

Definition pool_step (L : PoolLayer.t) (V : Vol.t)
    (s : Vol.t * list Z * list Z * nat) (p : nat * nat * nat)
  : Vol.t * list Z * list Z * nat :=
  PoolLayer.forward_step L V (fst (fst p)) (snd (fst p)) (snd p) s.

(** The flat index of the output position [p] in a tensor of the
    layer's output dimensions. *)
Definition out_index (L : PoolLayer.t) (p : nat * nat * nat) : Z :=
  ((PoolLayer.out_sx L * Z.of_nat (snd p)) + Z.of_nat (snd (fst p)))
  * PoolLayer.out_depth L + Z.of_nat (fst (fst p)).

(** The window [forward] computes for the output position [p]. *)
Definition pool_window (L : PoolLayer.t) (V : Vol.t) (p : nat * nat * nat)
  : number * Z * Z :=
  PoolLayer.window L V (PoolLayer.corner L (snd (fst p)))
                   (PoolLayer.corner L (snd p)) (Z.of_nat (fst (fst p))).

Definition pool_2x2 : PoolLayer.t :=
  PoolLayer.mk "pool" 2 2 1 (Some 2) (Some 2) 2 0 1 1 1 [0] [0] None None.

Definition pool_input : Vol.t :=
  Vol.mk 2 2 1 [Num 1; Num 4; Num 3; Num 2] [Num 0; Num 0; Num 0; Num 0].

(** ** For: the serialization round trip *)


(** A layer, serialized by the [toJSON] of its class and read back by
    the [fromJSON] of the same class. *)
Definition reload (L : LayerType) : LayerType :=
  match L with
  | Input L => Input (InputLayer.fromJSON (InputLayer.toJSON L))
  | Relu L => Relu (ReluLayer.fromJSON (ReluLayer.toJSON L))
  | Sigmoid L => Sigmoid (SigmoidLayer.fromJSON (SigmoidLayer.toJSON L))
  | Tanh L => Tanh (TanhLayer.fromJSON (TanhLayer.toJSON L))
  | Dropout L => Dropout (DropoutLayer.fromJSON (DropoutLayer.toJSON L))
  | Conv L => Conv (ConvLayer.fromJSON (ConvLayer.toJSON L))
  | Pool L => Pool (PoolLayer.fromJSON (PoolLayer.toJSON L))
  | LRN L =>
      LRN (LocalResponseNormalizationLayer.fromJSON
             (LocalResponseNormalizationLayer.toJSON L))
  | Softmax L => Softmax (SoftmaxLayer.fromJSON (SoftmaxLayer.toJSON L))
  | Regression L =>
      Regression (RegressionLayer.fromJSON (RegressionLayer.toJSON L))
  | FullyConn L =>
      FullyConn (FullyConnLayer.fromJSON (FullyConnLayer.toJSON L))
  | Maxout L => Maxout (MaxoutLayer.fromJSON (MaxoutLayer.toJSON L))
  | SVM L => SVM (SVMLayer.fromJSON (SVMLayer.toJSON L))
  end.

(** The tag the constructor of each class gives its layers. *)
Definition class_tag (L : LayerType) : string :=
  match L with
  | Input _ => "input"
  | Relu _ => "relu"
  | Sigmoid _ => "sigmoid"
  | Tanh _ => "tanh"
  | Dropout _ => "dropout"
  | Conv _ => "conv"
  | Pool _ => "pool"
  | LRN _ => "lrn"
  | Softmax _ => "softmax"
  | Regression _ => "regression"
  | FullyConn _ => "fc"
  | Maxout _ => "maxout"
  | SVM _ => "svm"
  end.

(** The layer carries the tag of its class, as every layer a
    constructor built does. *)
Definition well_tagged (L : LayerType) : Prop :=
  Net.layer_type_of L = class_tag L.




(** ** Gradients arriving from the next layer *)

(** The next layer's [backward] writes the gradient [g] into its input
    tensor, which is this layer's [out_act]. *)
Definition receive (g : list number) (out_act : option Vol.t) : option Vol.t :=
  (fun A => Vol.set_dw A g) <$> out_act.

(** A layer after [forward(V)] and after the next layer has written [g]. *)
Definition relu_run (L : ReluLayer.t) (V : Vol.t) (g : list number)
  : ReluLayer.t :=
  let L1 := fst (ReluLayer.forward L V) in
  ReluLayer.mk (ReluLayer.layer_type L1) (ReluLayer.out_sx L1)
    (ReluLayer.out_sy L1) (ReluLayer.out_depth L1) (ReluLayer.in_act L1)
    (receive g (ReluLayer.out_act L1)).

Definition sigmoid_run (L : SigmoidLayer.t) (V : Vol.t) (g : list number)
  : SigmoidLayer.t :=
  let L1 := fst (SigmoidLayer.forward L V) in
  SigmoidLayer.mk (SigmoidLayer.layer_type L1) (SigmoidLayer.out_sx L1)
    (SigmoidLayer.out_sy L1) (SigmoidLayer.out_depth L1)
    (SigmoidLayer.in_act L1) (receive g (SigmoidLayer.out_act L1)).

Definition tanh_run (L : TanhLayer.t) (V : Vol.t) (g : list number)
  : TanhLayer.t :=
  let L1 := fst (TanhLayer.forward L V) in
  TanhLayer.mk (TanhLayer.layer_type L1) (TanhLayer.out_sx L1)
    (TanhLayer.out_sy L1) (TanhLayer.out_depth L1)
    (TanhLayer.in_act L1) (receive g (TanhLayer.out_act L1)).

(** A function of the code on the finite numbers, as a real function. *)
Definition real_fn (f : number -> number) (x : R) : R :=
  match f (Num x) with
  | Num r => r
  | _ => 0%R
  end.

Definition small_tensor : Vol.t :=
  Vol.mk 1 1 2 [Num 1; Num (-2)] [Num 0; Num 0].

(** The tensor holds as many weights as its dimensions say. *)
Definition well_formed (V : Vol.t) : Prop :=
  length (Vol.w V) = Z.to_nat (Vol.sx V * Vol.sy V * Vol.depth V).

Definition maxout_run (L : MaxoutLayer.t) (V : Vol.t) (g : list number)
  : MaxoutLayer.t :=
  let L1 := fst (MaxoutLayer.forward L V) in
  MaxoutLayer.set_acts L1 (MaxoutLayer.switches L1) (MaxoutLayer.in_act L1)
    (receive g (MaxoutLayer.out_act L1)).

Definition dropout_run (L : DropoutLayer.t) (V : Vol.t) (r : rng)
    (g : list number) : DropoutLayer.t :=
  let L1 := fst (fst (DropoutLayer.forward L V (Some true) r)) in
  DropoutLayer.mk (DropoutLayer.layer_type L1) (DropoutLayer.out_sx L1)
    (DropoutLayer.out_sy L1) (DropoutLayer.out_depth L1)
    (DropoutLayer.drop_prob L1) (DropoutLayer.dropped L1)
    (DropoutLayer.in_act L1) (receive g (DropoutLayer.out_act L1)).

(** Unit [i] is dropped in a training pass that starts at [r]. *)
Definition drops (L : DropoutLayer.t) (r : rng) (i : nat) : bool :=
  JS.lt (draws r (drawn r + i)) (DropoutLayer.drop_prob L).

Definition fair_coin : rng :=
  mk_rng (fun n => if Nat.even n then Num (1 / 4) else Num (3 / 4)) 0.

(** ** The softmax function *)

Definition sum_R (l : list R) : R := foldr Rplus 0%R l.

Definition softmax (xs : list R) : list R :=
  map (fun x => (exp x / sum_R (map exp xs))%R) xs.

(** ** Affine maps *)

Definition dot_R (xs ws : list R) : R := sum_R (zip_with Rmult xs ws).

(** One row of weights and one bias for each output. *)
Definition affine (Ws : list (list R)) (bs xs : list R) : list R :=
  zip_with (fun W b => (dot_R xs W + b)%R) Ws bs.

(** The integers of 32 bits, on which [x | 0] is [x]: [ConvLayer]
    coerces its dimensions this way, and the model leaves the coercion
    out. *)
Definition int32 (x : Z) : Prop := - 2 ^ 31 <= x < 2 ^ 31.

(** The fully connected layer with the filters and biases of a
    convolution layer. *)
Definition as_fc (L : ConvLayer.t) : FullyConnLayer.t :=
  FullyConnLayer.mk "fc" (ConvLayer.l1_decay_mul L) (ConvLayer.l2_decay_mul L)
    (ConvLayer.filters L) (ConvLayer.biases L) (ConvLayer.out_depth L)
    (ConvLayer.in_depth L) 1 1 None None.

(** The value a method returned, whatever the state it left. *)
Definition returned {S A : Type} (r : result (S * A)) : result A :=
  match r with
  | Ok (_, a) => Ok a
  | Throw e => Throw e
  end.

(** Two 1x1 filters over two channels. *)
Definition conv_1x1 : ConvLayer.t :=
  ConvLayer.mk "conv" (Num 0) (Num 1)
    [Vol.mk 1 1 2 [Num 1; Num 2] [Num 0; Num 0];
     Vol.mk 1 1 2 [Num 3; Num (-1)] [Num 0; Num 0]]
    (Vol.new 1 1 2 (Num 0)) 2 1 2 (Some 1) (Some 1) 1 1 0 1 1 None None.

(** ** Parameters *)

(** A parameter entry without its gradient. *)
Definition forget_grads (e : ParamsAndGrads.t)
  : list number * number * number :=
  (ParamsAndGrads.params e, ParamsAndGrads.l1_decay_mul e,
   ParamsAndGrads.l2_decay_mul e).

(** The parameters and decay multipliers a call returned, or what it
    threw. *)
Definition parameters (r : result (list ParamsAndGrads.t))
  : result (list (list number * number * number)) :=
  match r with
  | Ok l => Ok (map forget_grads l)
  | Throw e => Throw e
  end.

Definition fc_net : Net.t :=
  Net.mk [FullyConn (as_fc conv_1x1); Conv conv_1x1].

(** ** For: PoolLayer.backward *)

(** The gradient the [k]-th output position [p] adds to the input
    element with flat index [j]: its own gradient when the switches
    recorded for it name that element. *)
Definition pool_contribution (L : PoolLayer.t) (V A : Vol.t) (j : Z)
    (k : nat) (p : nat * nat * nat) : option number :=
  match PoolLayer.switchx L !! k, PoolLayer.switchy L !! k with
  | Some x, Some y =>
      if Vol.index V x y (Z.of_nat (fst (fst p))) =? j
      then Some (Vol.get_grad A (Z.of_nat (snd (fst p))) (Z.of_nat (snd p))
                              (Z.of_nat (fst (fst p))))
      else None
  | _, _ => None
  end.

Definition pool_contributions (L : PoolLayer.t) (V A : Vol.t) (j : Z)
  : list number :=
  omap (fun c => c) (imap (pool_contribution L V A j) (positions L)).

(** The body of the loops of [backward] when [out_act] is there. *)
Definition pool_back_step (L : PoolLayer.t) (A : Vol.t) (s : Vol.t * nat)
    (p : nat * nat * nat) : Vol.t * nat :=
  (match PoolLayer.switchx L !! snd s, PoolLayer.switchy L !! snd s with
   | Some x, Some y =>
       Vol.add_grad (fst s) x y (Z.of_nat (fst (fst p)))
         (Vol.get_grad A (Z.of_nat (snd (fst p))) (Z.of_nat (snd p))
                       (Z.of_nat (fst (fst p))))
   | _, _ => fst s
   end,
   S (snd s)).

(** Half the squared distance between a prediction and its target. *)
Definition half_squared_error (xs ys : list R) : R :=
  sum_R (zip_with (fun x y => (1 / 2 * (x - y) * (x - y))%R) xs ys).

(** The indicator vector of class [y] among [n] classes. *)
Definition one_hot (n y : nat) : list R :=
  map (fun i => if (i =? y)%nat then 1%R else 0%R) (seq 0 n).

(** ** Prediction mode *)

(** Two runs of [forward] agree on everything but the random source,
    which each leaves where it was. *)
Definition same_run {S A : Type} (g1 g2 : rng)
    (r1 r2 : result (S * A * rng)) : Prop :=
  match r1, r2 with
  | Ok (s1, a1, g1'), Ok (s2, a2, g2') =>
      s1 = s2 /\ a1 = a2 /\ g1' = g1 /\ g2' = g2
  | Throw e1, Throw e2 => e1 = e2
  | _, _ => False
  end.

Definition softmax_net : Net.t :=
  Net.mk [Softmax (SoftmaxLayer.constructor (SoftmaxLayer.mk_options 1 1 2))].

(** The pooling layer of the example after [forward], with the gradient
    5 written into its output. *)
Definition pool_ran : PoolLayer.t :=
  PoolLayer.set_state pool_2x2 [1] [0] (Some pool_input)
    (Some (Vol.mk 1 1 1 [Num 4] [Num 5])).

(** A convolution layer loaded from a record without filters. *)
Definition conv_without_filters : ConvLayer.t :=
  ConvLayer.mk "conv" (Num 0) (Num 1) [] (Vol.new 1 1 1 (Num 0))
    1 1 2 (Some 1) (Some 1) 1 1 0 1 1 None None.

(** ** For: FullyConnLayer.backward *)

(** Weight [d] of filter [i], as the code reads it. *)
Definition fc_weight (L : FullyConnLayer.t) (i d : nat) : number :=
  JS.get (from_option Vol.w [] (FullyConnLayer.filters L !! i)) d.

(** The sum, in the order of the loop, of weight [d] of each of the
    first [n] filters times the gradient of its output. *)
Definition fc_input_gradient (L : FullyConnLayer.t) (g : list number)
    (n d : nat) : number :=
  fold_left (fun acc i => JS.add acc (JS.mul (fc_weight L i d) (JS.get g i)))
            (seq 0 n) (Num 0).

(** The fully connected layer of the example after [forward], with the
    gradient [5, 7] written into its output. *)
Definition fc_ran : FullyConnLayer.t :=
  FullyConnLayer.set_acts (as_fc conv_1x1) (Some small_tensor)
    (Some (Vol.mk 1 1 2 [Num (-3); Num 5] [Num 5; Num 7])).

(** What holds of [V.dw], the filters and [biases.dw] after the first
    [k] iterations of the outer loop of [backward], started from
    [Vdw0] and [bdw0]; [A] is [this.out_act]. *)
Definition fc_backward_inv (L : FullyConnLayer.t) (V A : Vol.t)
    (Vdw0 bdw0 : list number) (k : nat)
    (s : list number * list Vol.t * list number) : Prop :=
  let D := Z.to_nat (FullyConnLayer.num_inputs L) in
  let g := Vol.dw A in
  let '(Vdw, fs, bdw) := s in
  length Vdw = length Vdw0 /\
  length fs = length (FullyConnLayer.filters L) /\
  length bdw = length bdw0 /\
  (forall d, (d < length Vdw0)%nat ->
     JS.get Vdw d
     = if (d <? D)%nat
       then fold_left
              (fun acc i => JS.add acc (JS.mul (fc_weight L i d) (JS.get g i)))
              (seq 0 k) (JS.get Vdw0 d)
       else JS.get Vdw0 d) /\
  (forall i f, FullyConnLayer.filters L !! i = Some f ->
     exists f',
       fs !! i = Some f' /\ Vol.w f' = Vol.w f /\
       (Vol.sx f', Vol.sy f', Vol.depth f') = (Vol.sx f, Vol.sy f, Vol.depth f) /\
       length (Vol.dw f') = length (Vol.dw f) /\
       forall d, (d < length (Vol.dw f))%nat ->
         JS.get (Vol.dw f') d
         = if (i <? k)%nat && (d <? D)%nat
           then JS.add (JS.get (Vol.dw f) d)
                       (JS.mul (JS.get (Vol.w V) d) (JS.get g i))
           else JS.get (Vol.dw f) d) /\
  (forall i, (i < length bdw0)%nat ->
     JS.get bdw i
     = if (i <? k)%nat then JS.add (JS.get bdw0 i) (JS.get g i)
       else JS.get bdw0 i).

(* ================================================================= *)
(** * Properties *)

Section number_facts.
Local Open Scope R_scope.

Lemma Rltb_true x y : x < y -> Rltb x y = true.
Proof. intros H. unfold Rltb. destruct (Rlt_dec x y); [reflexivity | contradiction]. Qed.

Lemma Rltb_false x y : ~ x < y -> Rltb x y = false.
Proof. intros H. unfold Rltb. destruct (Rlt_dec x y); [contradiction | reflexivity]. Qed.

Lemma Rltb_IZR a b : Rltb (IZR a) (IZR b) = (a <? b)%Z.
Proof.
  destruct (Z.ltb_spec a b) as [H | H].
  - apply Rltb_true, IZR_lt, H.
  - apply Rltb_false. apply Rle_not_lt, IZR_le, H.
Qed.

Lemma Reqb_true x y : x = y -> Reqb x y = true.
Proof. intros H. unfold Reqb. destruct (Req_dec_T x y); [reflexivity | contradiction]. Qed.

Lemma Reqb_false x y : x <> y -> Reqb x y = false.
Proof. intros H. unfold Reqb. destruct (Req_dec_T x y); [contradiction | reflexivity]. Qed.

End number_facts.

(** ** ReluLayer.forward *)

(** What [forward] does on every tensor: it thresholds the first element
    only, and returns [undefined] for a tensor without elements. *)
Lemma relu_forward_first_only (L : ReluLayer.t) (V : Vol.t) :
  snd (ReluLayer.forward L V)
  = match Vol.w V with
    | [] => None
    | v :: ws =>
        Some (Vol.mk (Vol.sx V) (Vol.sy V) (Vol.depth V)
                     ((if JS.lt v (Num 0) then Num 0 else v) :: ws)
                     (Vol.dw V))
    end.
Proof.
  unfold ReluLayer.forward.
  destruct V as [sx sy depth [| v ws] dw]; cbn; [reflexivity |].
  destruct (JS.lt v (Num 0)); reflexivity.
Qed.

(** C1, at the tensor [1, -2]: [forward] returns after its first
    iteration, so the negative second activation is returned as it is,
    not thresholded to zero. *)
Lemma C1_relu_forward_keeps_negative :
  snd (ReluLayer.forward (ReluLayer.constructor (ReluLayer.mk_options 1 1 2))
                         relu_tensor)
  = Some (Vol.mk 1 1 2 [Num 1; Num (-2)] [Num 0; Num 0]).
Proof.
  unfold ReluLayer.forward, relu_tensor. cbn.
  rewrite Rltb_false by lra. reflexivity.
Qed.

(** ** Loops and arrays *)

Lemma for_each_0 {S : Type} (body : nat -> S -> S) (s : S) :
  for_each 0 body s = s.
Proof. reflexivity. Qed.

Lemma for_each_S {S : Type} (n : nat) (body : nat -> S -> S) (s : S) :
  for_each (Datatypes.S n) body s = body n (for_each n body s).
Proof.
  unfold for_each. rewrite seq_S, fold_left_app. reflexivity.
Qed.

Lemma for_from_S {S : Type} (from n : nat) (body : nat -> S -> S) (s : S) :
  for_from from (Datatypes.S n) body s
  = body (from + n)%nat (for_from from n body s).
Proof.
  unfold for_from. rewrite seq_S, fold_left_app. reflexivity.
Qed.

Lemma get_set_eq (a : list number) (i : nat) (v : number) :
  (i < length a)%nat -> JS.get (JS.set a i v) i = v.
Proof.
  intros H. unfold JS.get, JS.set.
  rewrite list_lookup_insert_eq by exact H. reflexivity.
Qed.

Lemma get_set_ne (a : list number) (i j : nat) (v : number) :
  i <> j -> JS.get (JS.set a i v) j = JS.get a j.
Proof.
  intros H. unfold JS.get, JS.set.
  rewrite list_lookup_insert_ne by exact H. reflexivity.
Qed.

Lemma get_set_ge (a : list number) (i : nat) (v : number) :
  (length a <= i)%nat -> JS.set a i v = a.
Proof. intros H. unfold JS.set. apply list_insert_ge, H. Qed.

Lemma length_set (a : list number) (i : nat) (v : number) :
  length (JS.set a i v) = length a.
Proof. unfold JS.set. apply length_insert. Qed.

Lemma length_setZ (a : list number) (i : Z) (v : number) :
  length (JS.setZ a i v) = length a.
Proof. unfold JS.setZ. destruct (i <? 0); [reflexivity | apply length_set]. Qed.

Lemma getZ_of_nat (a : list number) (i : nat) :
  JS.getZ a (Z.of_nat i) = JS.get a i.
Proof.
  unfold JS.getZ. destruct (Z.ltb_spec (Z.of_nat i) 0); [lia |].
  rewrite Nat2Z.id. reflexivity.
Qed.

Lemma setZ_of_nat (a : list number) (i : nat) (v : number) :
  JS.setZ a (Z.of_nat i) v = JS.set a i v.
Proof.
  unfold JS.setZ. destruct (Z.ltb_spec (Z.of_nat i) 0); [lia |].
  rewrite Nat2Z.id. reflexivity.
Qed.

Lemma get_ge (a : list number) (i : nat) :
  (length a <= i)%nat -> JS.get a i = NaN.
Proof.
  intros H. unfold JS.get. rewrite lookup_ge_None_2 by exact H. reflexivity.
Qed.

Lemma getZ_out_of_range (a : list number) (i : Z) :
  ~ (0 <= i < Z.of_nat (length a)) -> JS.getZ a i = NaN.
Proof.
  intros H. unfold JS.getZ. destruct (Z.ltb_spec i 0); [reflexivity |].
  apply get_ge. lia.
Qed.

Lemma get_zeros (n : Z) (i : nat) :
  (i < Z.to_nat n)%nat -> JS.get (util.zeros n) i = Num 0.
Proof.
  intros H. unfold JS.get, util.zeros.
  rewrite lookup_replicate_2 by exact H. reflexivity.
Qed.

Lemma length_zeros (n : Z) : length (util.zeros n) = Z.to_nat n.
Proof. unfold util.zeros. apply length_replicate. Qed.

Lemma get_lookup (a : list number) (i : nat) (v : number) :
  a !! i = Some v -> JS.get a i = v.
Proof. intros H. unfold JS.get. rewrite H. reflexivity. Qed.

Lemma lookup_get (a : list number) (i : nat) :
  (i < length a)%nat -> a !! i = Some (JS.get a i).
Proof.
  intros H. unfold JS.get.
  destruct (lookup_lt_is_Some_2 a i H) as [v Hv]. rewrite Hv. reflexivity.
Qed.

(** ** SoftmaxLayer *)

Lemma neg_sub_indicator (c : R) (p : number) :
  JS.neg (JS.sub (Num c) p) = JS.sub p (Num c).
Proof.
  destruct p; cbn; try reflexivity. f_equal. lra.
Qed.

Lemma softmax_gradient_length es y n dw :
  length (SoftmaxLayer.gradient es y n dw) = length dw.
Proof.
  unfold SoftmaxLayer.gradient.
  induction n as [| n IH]; [reflexivity |].
  rewrite for_each_S, length_set. exact IH.
Qed.

Lemma softmax_gradient_get es y n dw i :
  (i < length dw)%nat ->
  JS.get (SoftmaxLayer.gradient es y n dw) i
  = if (i <? n)%nat then JS.sub (JS.get es i) (indicator i y)
    else JS.get dw i.
Proof.
  intros Hi. unfold SoftmaxLayer.gradient.
  induction n as [| n IH]; [reflexivity |].
  rewrite for_each_S.
  destruct (Nat.eq_dec n i) as [-> | Hne].
  - rewrite get_set_eq.
    + destruct (Nat.ltb_spec i (S i)); [| lia].
      unfold indicator. destruct (Z.of_nat i =? y); apply neg_sub_indicator.
    + fold (SoftmaxLayer.gradient es y i dw).
      rewrite softmax_gradient_length. exact Hi.
  - rewrite get_set_ne by exact Hne. rewrite IH.
    destruct (Nat.ltb_spec i n), (Nat.ltb_spec i (S n)); try lia; reflexivity.
Qed.

Lemma softmax_exponentials_length as_ amax n :
  length (fst (SoftmaxLayer.exponentials as_ amax n)) = n.
Proof.
  unfold SoftmaxLayer.exponentials.
  assert (H : forall k,
    length (fst (for_each k
      (fun i '(es, esum) =>
         let e := Math_exp (JS.sub (JS.get as_ i) amax) in
         (JS.set es i e, JS.add esum e))
      (util.zeros (Z.of_nat n), Num 0))) = n).
  { induction k as [| k IH].
    - cbn. rewrite length_zeros. lia.
    - rewrite for_each_S.
      destruct (for_each k _ _) as [es esum]. cbn in *.
      rewrite length_set. exact IH. }
  apply H.
Qed.

Lemma softmax_normalize_length es esum A n :
  length (fst (SoftmaxLayer.normalize es esum A n)) = length es.
Proof.
  unfold SoftmaxLayer.normalize.
  induction n as [| n IH]; [reflexivity |].
  rewrite for_each_S.
  destruct (for_each n _ _) as [es' A']. cbn in *.
  rewrite length_set. exact IH.
Qed.

(** After [forward] the cached probability vector has [out_depth]
    entries. *)
Lemma softmax_forward_es L V :
  exists es,
    SoftmaxLayer.es (fst (SoftmaxLayer.forward L V)) = Some es /\
    length es = Z.to_nat (SoftmaxLayer.out_depth L) /\
    SoftmaxLayer.in_act (fst (SoftmaxLayer.forward L V)) = Some V /\
    SoftmaxLayer.out_depth (fst (SoftmaxLayer.forward L V))
    = SoftmaxLayer.out_depth L.
Proof.
  unfold SoftmaxLayer.forward.
  pose proof (softmax_exponentials_length (Vol.w V)
    (SoftmaxLayer.max_activation (Vol.w V) (Z.to_nat (SoftmaxLayer.out_depth L)))
    (Z.to_nat (SoftmaxLayer.out_depth L))) as He.
  destruct (SoftmaxLayer.exponentials _ _ _) as [es esum].
  pose proof (softmax_normalize_length es esum
    (Vol.new 1 1 (SoftmaxLayer.out_depth L) (Num 0))
    (Z.to_nat (SoftmaxLayer.out_depth L))) as Hn.
  destruct (SoftmaxLayer.normalize _ _ _ _) as [es' A].
  cbn in *. exists es'. repeat split. congruence.
Qed.

(** The loss and the gradient [backward] computes, whatever [y] is. *)
Lemma softmax_backward_spec L x es y :
  SoftmaxLayer.in_act L = Some x ->
  SoftmaxLayer.es L = Some es ->
  length (Vol.w x) = Z.to_nat (SoftmaxLayer.out_depth L) ->
  exists L' x',
    SoftmaxLayer.backward L y
    = Ok (L', JS.neg (Math_log (JS.getZ es y))) /\
    SoftmaxLayer.in_act L' = Some x' /\
    length (Vol.dw x') = length (Vol.w x) /\
    forall i, (i < length (Vol.w x))%nat ->
      JS.get (Vol.dw x') i = JS.sub (JS.get es i) (indicator i y).
Proof.
  intros Hx Hes Hlen. unfold SoftmaxLayer.backward.
  rewrite Hx, Hes. cbn.
  eexists _, _. split; [reflexivity |].
  split; [reflexivity |].
  cbn [Vol.set_dw Vol.dw].
  split.
  - rewrite softmax_gradient_length, length_zeros. lia.
  - intros i Hi. rewrite softmax_gradient_get by (rewrite length_zeros; lia).
    destruct (Nat.ltb_spec i (Z.to_nat (SoftmaxLayer.out_depth L))); [reflexivity | lia].
Qed.

Lemma sub_zero (p : number) : JS.sub p (Num 0) = p.
Proof.
  destruct p; cbn; try reflexivity. f_equal. lra.
Qed.

Lemma indicator_out_of_range (i : nat) (y n : Z) :
  ~ (0 <= y < n) -> Z.of_nat i < n -> indicator i y = Num 0.
Proof.
  intros Hy Hi. unfold indicator.
  destruct (Z.eqb_spec (Z.of_nat i) y); [lia | reflexivity].
Qed.

(** C2, as stated, fails: after a forward pass over two classes,
    [backward(2)] raises no error; it returns NaN, and [smartBackward]
    turns that NaN into the loss 0. *)
Lemma C2_softmax_backward_out_of_range_returns :
  (forall e, SoftmaxLayer.backward softmax_after_forward 2 <> Throw e) /\
  (exists L', SoftmaxLayer.backward softmax_after_forward 2 = Ok (L', NaN) /\
              smartBackward (TNumber 2) (LSoftmax softmax_after_forward)
              = Ok (LSoftmax L', Num 0)).
Proof.
  unfold softmax_after_forward.
  destruct (softmax_forward_es
              (SoftmaxLayer.constructor (SoftmaxLayer.mk_options 1 1 2))
              two_scores) as (es & Hes & Hlen & Hin & Hd).
  destruct (softmax_backward_spec _ two_scores es 2 Hin Hes)
    as (L' & x' & Hb & _).
  { rewrite Hd. reflexivity. }
  rewrite getZ_out_of_range in Hb by (rewrite Hlen; cbn; lia).
  cbn in Hb.
  split.
  - intros e He. rewrite Hb in He. discriminate He.
  - exists L'. split; [exact Hb |].
    unfold smartBackward. rewrite Hb. reflexivity.
Qed.

(** C2 (amended): [SoftmaxLayer.backward] has no range check.  For every
    integer [y] it returns [-log(es[y])] and sets the input gradient to
    [p_i - 1{i==y}]; for [y] outside [[0, out_depth)] the read [es[y]] is
    undefined, so the value returned is NaN (no error is raised), the
    gradient is [p_i], and [smartBackward] reports the loss 0. *)
Theorem C2_softmax_backward_has_no_range_check
    (L : SoftmaxLayer.t) (x : Vol.t) (es : list number) (y : Z) :
  SoftmaxLayer.in_act L = Some x ->
  SoftmaxLayer.es L = Some es ->
  length es = Z.to_nat (SoftmaxLayer.out_depth L) ->
  length (Vol.w x) = Z.to_nat (SoftmaxLayer.out_depth L) ->
  exists L' x',
    SoftmaxLayer.backward L y = Ok (L', JS.neg (Math_log (JS.getZ es y))) /\
    SoftmaxLayer.in_act L' = Some x' /\
    length (Vol.dw x') = length (Vol.w x) /\
    (forall i, (i < Z.to_nat (SoftmaxLayer.out_depth L))%nat ->
       JS.get (Vol.dw x') i = JS.sub (JS.get es i) (indicator i y)) /\
    (~ (0 <= y < SoftmaxLayer.out_depth L) ->
       SoftmaxLayer.backward L y = Ok (L', NaN) /\
       smartBackward (TNumber y) (LSoftmax L) = Ok (LSoftmax L', Num 0) /\
       forall i, (i < Z.to_nat (SoftmaxLayer.out_depth L))%nat ->
         JS.get (Vol.dw x') i = JS.get es i).
Proof.
  intros Hx Hes Hlen Hw.
  destruct (softmax_backward_spec L x es y Hx Hes Hw)
    as (L' & x' & Hb & Hin & Hdl & Hg).
  exists L', x'. split; [exact Hb |]. split; [exact Hin |].
  split; [exact Hdl |]. split.
  - intros i Hi. apply Hg. lia.
  - intros Hy.
    assert (Hnan : JS.neg (Math_log (JS.getZ es y)) = NaN).
    { rewrite getZ_out_of_range by lia. reflexivity. }
    rewrite Hnan in Hb. split; [exact Hb |]. split.
    + unfold smartBackward. rewrite Hb. reflexivity.
    + intros i Hi. rewrite Hg by lia.
      rewrite (indicator_out_of_range i y (SoftmaxLayer.out_depth L)) by lia.
      apply sub_zero.
Qed.

(** The statement above at a layer caching two probabilities and the class index 5. *)
Lemma C2_softmax_backward_has_no_range_check_witness :
  exists L' x',
    SoftmaxLayer.backward softmax_cached 5
    = Ok (L', JS.neg (Math_log (JS.getZ [Num (1 / 2); Num (1 / 2)] 5))) /\
    SoftmaxLayer.in_act L' = Some x' /\
    length (Vol.dw x') = length (Vol.w two_scores) /\
    (forall i, (i < Z.to_nat (SoftmaxLayer.out_depth softmax_cached))%nat ->
       JS.get (Vol.dw x') i
       = JS.sub (JS.get [Num (1 / 2); Num (1 / 2)] i) (indicator i 5)) /\
    (~ (0 <= 5 < SoftmaxLayer.out_depth softmax_cached) ->
       SoftmaxLayer.backward softmax_cached 5 = Ok (L', NaN) /\
       smartBackward (TNumber 5) (LSoftmax softmax_cached)
       = Ok (LSoftmax L', Num 0) /\
       forall i, (i < Z.to_nat (SoftmaxLayer.out_depth softmax_cached))%nat ->
         JS.get (Vol.dw x') i = JS.get [Num (1 / 2); Num (1 / 2)] i).
Proof.
  apply (C2_softmax_backward_has_no_range_check
           softmax_cached two_scores [Num (1 / 2); Num (1 / 2)] 5);
    reflexivity.
Defined.

(** ** SVMLayer.backward *)






Section svm_loop.
Variables (xw : list number) (yn len : nat).
Hypothesis Hyn : (yn < len)%nat.

Let y : Z := Z.of_nat yn.


End svm_loop.




(** ** Output size of ConvLayer and PoolLayer *)

Lemma Zfloor_quotient (a s : Z) :
  s <> 0 -> Zfloor (IZR a / IZR s + 1) = a / s + 1.
Proof.
  intros Hs. apply Zfloor_eq.
  pose proof (Z.div_mod a s Hs) as Hdm.
  assert (HR : (IZR a = IZR s * IZR (a / s) + IZR (a mod s))%R).
  { rewrite <- mult_IZR, <- plus_IZR. f_equal. exact Hdm. }
  assert (Hs0 : (IZR s <> 0)%R) by (apply not_0_IZR; exact Hs).
  assert (Hq : (IZR a / IZR s = IZR (a / s) + IZR (a mod s) / IZR s)%R).
  { rewrite HR. field. exact Hs0. }
  rewrite Hq, plus_IZR.
  set (x := (IZR (a mod s) / IZR s)%R).
  assert (Hx : (x * IZR s = IZR (a mod s))%R).
  { unfold x. field. exact Hs0. }
  assert (0 <= x < 1)%R as [Hx0 Hx1].
  { destruct (Z.lt_total s 0) as [Hneg | [Hz | Hpos]]; [| lia |].
    - pose proof (Z.mod_neg_bound a s Hneg) as [Hlo Hhi].
      apply IZR_lt in Hneg, Hlo. apply IZR_le in Hhi.
      rewrite <- Hx in Hlo, Hhi. split; nra.
    - pose proof (Z.mod_pos_bound a s Hpos) as [Hlo Hhi].
      apply IZR_lt in Hpos, Hhi. apply IZR_le in Hlo.
      rewrite <- Hx in Hlo, Hhi. split; nra. }
  split; lra.
Qed.

Lemma floor_quotient_plus_one (a s : Z) :
  s <> 0 ->
  JS.floorZ (JS.add (JS.div (JS.of_Z a) (JS.of_Z s)) (Num 1))
  = Zfloor (IZR a / IZR s + 1).
Proof.
  intros Hs. unfold JS.of_Z. cbn.
  rewrite Reqb_false by (apply not_0_IZR; exact Hs). reflexivity.
Qed.

Lemma output_size_div in_size pad filter_size stride :
  stride <> 0 ->
  output_size in_size pad filter_size stride
  = (in_size + 2 * pad - filter_size) / stride + 1.
Proof. apply Zfloor_quotient. Qed.

(** C3: the output size of a ConvLayer and of a PoolLayer is, per axis,
    [floor((in_size + 2*pad - filter_size)/stride + 1)], with the
    defaults [sy = sx], [pad = 0] and [stride = 1] (conv) or [2] (pool);
    for a stride that is not zero this is the floored integer quotient
    plus one.  For [in_sx = 5], [sx = 3], [stride = 1] it is 3 with
    [pad = 0] and 5 with [pad = 1]. *)
Theorem C3_output_size
    (copt : ConvLayer.options) (draw : nat -> nat -> number)
    (popt : PoolLayer.options) :
  default 1 (ConvLayer.opt_stride copt) <> 0 ->
  default 2 (PoolLayer.opt_stride popt) <> 0 ->
  let conv := ConvLayer.constructor copt draw in
  let pool := PoolLayer.constructor popt in
  (ConvLayer.out_sx conv
   = output_size (ConvLayer.opt_in_sx copt) (ConvLayer.pad conv)
                 (ConvLayer.sx conv) (ConvLayer.stride conv) /\
   ConvLayer.out_sy conv
   = output_size (ConvLayer.opt_in_sy copt) (ConvLayer.pad conv)
                 (ConvLayer.sy conv) (ConvLayer.stride conv) /\
   ConvLayer.out_sx conv
   = (ConvLayer.opt_in_sx copt + 2 * ConvLayer.pad conv - ConvLayer.sx conv)
     / ConvLayer.stride conv + 1 /\
   ConvLayer.out_sy conv
   = (ConvLayer.opt_in_sy copt + 2 * ConvLayer.pad conv - ConvLayer.sy conv)
     / ConvLayer.stride conv + 1) /\
  (PoolLayer.out_sx pool
   = output_size (PoolLayer.opt_in_sx popt) (PoolLayer.pad pool)
                 (PoolLayer.sx pool) (PoolLayer.stride pool) /\
   PoolLayer.out_sy pool
   = output_size (PoolLayer.opt_in_sy popt) (PoolLayer.pad pool)
                 (PoolLayer.sy pool) (PoolLayer.stride pool) /\
   PoolLayer.out_sx pool
   = (PoolLayer.opt_in_sx popt + 2 * PoolLayer.pad pool - PoolLayer.sx pool)
     / PoolLayer.stride pool + 1 /\
   PoolLayer.out_sy pool
   = (PoolLayer.opt_in_sy popt + 2 * PoolLayer.pad pool - PoolLayer.sy pool)
     / PoolLayer.stride pool + 1) /\
  (ConvLayer.out_sx (ConvLayer.constructor (conv_5_3 0) draw) = 3 /\
   ConvLayer.out_sx (ConvLayer.constructor (conv_5_3 1) draw) = 5 /\
   PoolLayer.out_sx (PoolLayer.constructor (pool_5_3 0)) = 3 /\
   PoolLayer.out_sx (PoolLayer.constructor (pool_5_3 1)) = 5).
Proof.
  intros Hc Hp conv pool.
  assert (E : forall a p f s, s <> 0 ->
            JS.floorZ (JS.add (JS.div (JS.of_Z (a + p * 2 - f)) (JS.of_Z s))
                              (Num 1))
            = output_size a p f s).
  { intros a p f s Hs. rewrite floor_quotient_plus_one by exact Hs.
    unfold output_size.
    replace (a + p * 2 - f) with (a + 2 * p - f) by lia. reflexivity. }
  split; [| split].
  - subst conv. unfold ConvLayer.constructor.
    cbn [ConvLayer.out_sx ConvLayer.out_sy ConvLayer.pad ConvLayer.sx
         ConvLayer.sy ConvLayer.stride].
    rewrite !E by exact Hc. rewrite !output_size_div by exact Hc.
    repeat split; reflexivity.
  - subst pool. unfold PoolLayer.constructor.
    cbn [PoolLayer.out_sx PoolLayer.out_sy PoolLayer.pad PoolLayer.sx
         PoolLayer.sy PoolLayer.stride].
    rewrite !E by exact Hp. rewrite !output_size_div by exact Hp.
    repeat split; reflexivity.
  - unfold ConvLayer.constructor, PoolLayer.constructor, conv_5_3, pool_5_3.
    cbn [ConvLayer.out_sx PoolLayer.out_sx
         ConvLayer.opt_sx ConvLayer.opt_stride ConvLayer.opt_pad
         ConvLayer.opt_in_sx PoolLayer.opt_sx PoolLayer.opt_stride
         PoolLayer.opt_pad PoolLayer.opt_in_sx default].
    unfold Datatypes.id.
    rewrite (E 5 0 3 1), (E 5 1 3 1) by lia.
    rewrite !output_size_div by lia.
    repeat split; reflexivity.
Qed.

(** The statement above at the two layers of the spec's example. *)
Lemma C3_output_size_witness :
  ConvLayer.out_sx (ConvLayer.constructor (conv_5_3 0) no_draw) = 3 /\
  PoolLayer.out_sx (PoolLayer.constructor (pool_5_3 1)) = 5.
Proof.
  assert (Hc : default 1 (ConvLayer.opt_stride (conv_5_3 0)) <> 0)
    by (cbn; lia).
  assert (Hp : default 2 (PoolLayer.opt_stride (pool_5_3 1)) <> 0)
    by (cbn; lia).
  pose proof (C3_output_size (conv_5_3 0) no_draw (pool_5_3 1) Hc Hp)
    as (_ & _ & H3 & _ & _ & H5).
  split; [exact H3 | exact H5].
Defined.

(** ** Elementwise loops *)

Section elementwise.
Variable f : nat -> number -> number.

Let body (i : nat) (a : list number) : list number :=
  JS.set a i (f i (JS.get a i)).

Lemma for_each_elementwise_length n l :
  length (for_each n body l) = length l.
Proof.
  induction n as [| n IH]; [reflexivity |].
  rewrite for_each_S. unfold body at 1. rewrite length_set. exact IH.
Qed.

Lemma for_each_elementwise_get n l i :
  (i < length l)%nat ->
  JS.get (for_each n body l) i
  = if (i <? n)%nat then f i (JS.get l i) else JS.get l i.
Proof.
  intros Hi. induction n as [| n IH]; [reflexivity |].
  rewrite for_each_S. unfold body at 1.
  destruct (Nat.eq_dec n i) as [-> | Hne].
  - rewrite get_set_eq by (rewrite for_each_elementwise_length; exact Hi).
    rewrite IH.
    destruct (Nat.ltb_spec i i), (Nat.ltb_spec i (S i)); try lia; reflexivity.
  - rewrite get_set_ne by exact Hne. rewrite IH.
    destruct (Nat.ltb_spec i n), (Nat.ltb_spec i (S n)); try lia; reflexivity.
Qed.

Lemma for_each_elementwise l :
  for_each (length l) body l = imap f l.
Proof.
  apply list_eq. intros i.
  destruct (Nat.lt_ge_cases i (length l)) as [Hi | Hi].
  - rewrite lookup_get by (rewrite for_each_elementwise_length; exact Hi).
    rewrite for_each_elementwise_get by exact Hi.
    destruct (Nat.ltb_spec i (length l)); [| lia].
    rewrite list_lookup_imap, (lookup_get l i Hi). reflexivity.
  - rewrite !lookup_ge_None_2; [reflexivity | |].
    + rewrite length_imap. exact Hi.
    + rewrite for_each_elementwise_length. exact Hi.
Qed.

End elementwise.

(** ** DropoutLayer.forward *)

Lemma dropout_scale (L : DropoutLayer.t) (ws : list number) :
  for_each (length ws) (DropoutLayer.scale_step L) ws
  = map (fun v => JS.mul v (DropoutLayer.drop_prob L)) ws.
Proof.
  pose proof (for_each_elementwise
                (fun _ v => JS.mul v (DropoutLayer.drop_prob L)) ws) as H.
  cbn in H. unfold DropoutLayer.scale_step.
  rewrite H. apply list_eq. intros i.
  rewrite list_lookup_imap, list_lookup_fmap. reflexivity.
Qed.

Lemma dropout_forward_prediction L V is_training g :
  default false is_training = false ->
  DropoutLayer.forward L V is_training g
  = (DropoutLayer.mk (DropoutLayer.layer_type L) (DropoutLayer.out_sx L)
       (DropoutLayer.out_sy L) (DropoutLayer.out_depth L)
       (DropoutLayer.drop_prob L) (DropoutLayer.dropped L)
       (Some V) (Some (scaled L V)),
     scaled L V, g).
Proof.
  intros Ht. unfold DropoutLayer.forward. rewrite Ht.
  cbn [Vol.clone Vol.w]. rewrite dropout_scale. reflexivity.
Qed.

(** C7: with [is_training] false (or left out), [DropoutLayer.forward]
    draws no random number: whatever the random source, it returns the
    same tensor, of the input's dimensions, each element the input
    element times [drop_prob], and leaves the source where it was. *)
Theorem C7_dropout_prediction_deterministic
    (L : DropoutLayer.t) (V : Vol.t) (g1 g2 : rng) :
  let out := scaled L V in
  (forall i, (i < length (Vol.w V))%nat ->
     JS.get (Vol.w out) i
     = JS.mul (JS.get (Vol.w V) i) (DropoutLayer.drop_prob L)) /\
  length (Vol.w out) = length (Vol.w V) /\
  (Vol.sx out, Vol.sy out, Vol.depth out)
  = (Vol.sx V, Vol.sy V, Vol.depth V) /\
  snd (fst (DropoutLayer.forward L V (Some false) g1)) = out /\
  snd (fst (DropoutLayer.forward L V (Some false) g2)) = out /\
  snd (fst (DropoutLayer.forward L V None g1)) = out /\
  fst (fst (DropoutLayer.forward L V (Some false) g1))
  = fst (fst (DropoutLayer.forward L V (Some false) g2)) /\
  snd (DropoutLayer.forward L V (Some false) g1) = g1 /\
  snd (DropoutLayer.forward L V None g1) = g1.
Proof.
  intros out.
  rewrite !dropout_forward_prediction by reflexivity. cbn [fst snd].
  split; [| repeat split; try reflexivity].
  - intros i Hi. subst out. unfold scaled. cbn [Vol.w].
    unfold JS.get at 1. rewrite list_lookup_fmap, (lookup_get _ i Hi).
    reflexivity.
  - subst out. unfold scaled. cbn [Vol.w]. apply length_map.
Qed.

(** ** Switch and mask arrays after construction and after fromJSON *)

Lemma floor_quotient (a s : Z) :
  s <> 0 -> JS.floorZ (JS.div (JS.of_Z a) (JS.of_Z s)) = a / s.
Proof.
  intros Hs. unfold JS.of_Z. cbn.
  rewrite Reqb_false by (apply not_0_IZR; exact Hs). cbn.
  pose proof (Zfloor_quotient a s Hs) as H.
  change 1%R with (IZR 1) in H. rewrite Zfloor_addz in H. lia.
Qed.

Lemma length_zerosZ (n : Z) : length (util.zerosZ n) = Z.to_nat n.
Proof. unfold util.zerosZ. apply length_replicate. Qed.

Lemma no_drops_replicate (n : Z) :
  DropoutLayer.no_drops n = replicate (Z.to_nat n) false.
Proof.
  unfold DropoutLayer.no_drops, util.zeros.
  induction (Z.to_nat n) as [| k IH]; [reflexivity |].
  cbn. rewrite Reqb_true by reflexivity. cbn. f_equal. exact IH.
Qed.

(** The arrays of PoolLayer and DropoutLayer, and those the MaxoutLayer
    constructor allocates, have [out_sx*out_sy*out_depth] zero (false)
    entries. *)
Lemma switch_arrays_zero_filled :
  (forall opt, let L := PoolLayer.constructor opt in
     PoolLayer.switchx L
     = replicate (Z.to_nat (PoolLayer.out_sx L * PoolLayer.out_sy L
                            * PoolLayer.out_depth L)) 0 /\
     PoolLayer.switchy L = PoolLayer.switchx L) /\
  (forall j, let L := PoolLayer.fromJSON j in
     PoolLayer.switchx L
     = replicate (Z.to_nat (PoolLayer.out_sx L * PoolLayer.out_sy L
                            * PoolLayer.out_depth L)) 0 /\
     PoolLayer.switchy L = PoolLayer.switchx L) /\
  (forall opt, let L := DropoutLayer.constructor opt in
     DropoutLayer.dropped L
     = replicate (Z.to_nat (DropoutLayer.out_sx L * DropoutLayer.out_sy L
                            * DropoutLayer.out_depth L)) false) /\
  (forall j, let L := DropoutLayer.fromJSON j in
     DropoutLayer.dropped L
     = replicate (Z.to_nat (DropoutLayer.out_sx L * DropoutLayer.out_sy L
                            * DropoutLayer.out_depth L)) false) /\
  (forall opt, let L := MaxoutLayer.constructor opt in
     MaxoutLayer.switches L
     = replicate (Z.to_nat (MaxoutLayer.out_sx L * MaxoutLayer.out_sy L
                            * MaxoutLayer.out_depth L)) 0).
Proof.
  repeat split; try reflexivity; intros x; cbn; apply no_drops_replicate.
Qed.

(** C8, at a maxout layer over six channels in groups of two: the
    constructor allocates [out_sx*out_sy*out_depth = 3] switches, but
    [fromJSON] allocates [group_size = 2]. *)
Lemma C8_maxout_fromJSON_switches_length :
  let L := MaxoutLayer.fromJSON (MaxoutLayer.toJSON maxout_6_2) in
  MaxoutLayer.out_sx L * MaxoutLayer.out_sy L * MaxoutLayer.out_depth L = 3 /\
  length (MaxoutLayer.switches maxout_6_2) = 3%nat /\
  MaxoutLayer.switches L = [0; 0].
Proof.
  assert (H : MaxoutLayer.out_depth maxout_6_2 = 3).
  { unfold maxout_6_2, MaxoutLayer.constructor.
    cbn [MaxoutLayer.out_depth MaxoutLayer.in_depth
         MaxoutLayer.opt_group_size default from_option].
    unfold Datatypes.id. rewrite floor_quotient by lia. reflexivity. }
  cbn zeta.
  unfold MaxoutLayer.fromJSON, MaxoutLayer.toJSON.
  cbn [MaxoutLayer.out_sx MaxoutLayer.out_sy MaxoutLayer.out_depth
       MaxoutLayer.switches MaxoutLayer.j_out_sx MaxoutLayer.j_out_sy
       MaxoutLayer.j_out_depth MaxoutLayer.j_group_size].
  rewrite H. split; [reflexivity |]. split; [| reflexivity].
  unfold maxout_6_2, MaxoutLayer.constructor in *.
  cbn [MaxoutLayer.switches MaxoutLayer.out_depth] in *.
  rewrite H, length_zerosZ. reflexivity.
Qed.

(** ** The desugaring pass of makeLayers *)

Lemma prop_insert_ne (def : LayerDef) (k k' : string) (v : value) :
  k <> k' -> prop (<[k := v]> def) k' = prop def k'.
Proof. intros H. unfold prop. rewrite lookup_insert_ne by exact H. reflexivity. Qed.

Lemma has_insert_ne (def : LayerDef) (k k' : string) (v : value) :
  k <> k' -> has (<[k := v]> def) k' = has def k'.
Proof. intros H. unfold has. rewrite lookup_insert_ne by exact H. reflexivity. Qed.












(** ** MaxoutLayer: the two code paths *)

Lemma for_each_ext {S : Type} (n : nat) (body body' : nat -> S -> S) (s : S) :
  (forall i s, (i < n)%nat -> body i s = body' i s) ->
  for_each n body s = for_each n body' s.
Proof.
  induction n as [| n IH]; intros H; [reflexivity |].
  rewrite !for_each_S, IH by (intros; apply H; lia).
  apply H. lia.
Qed.

Lemma for_from_ext {S : Type} (from n : nat) (body body' : nat -> S -> S)
    (s : S) :
  (forall i s, body i s = body' i s) ->
  for_from from n body s = for_from from n body' s.
Proof.
  induction n as [| n IH]; intros H; [reflexivity |].
  rewrite !for_from_S, IH by exact H. apply H.
Qed.

Lemma for_each_1 {S : Type} (body : nat -> S -> S) (s : S) :
  for_each 1 body s = body O s.
Proof. reflexivity. Qed.

Lemma index_origin (V : Vol.t) (d : Z) : Vol.index V 0 0 d = d.
Proof. unfold Vol.index. lia. Qed.

Lemma maxout_group_max_ext (L : MaxoutLayer.t) (read read' : Z -> number)
    (ix : Z) :
  (forall z, read z = read' z) ->
  MaxoutLayer.group_max L read ix = MaxoutLayer.group_max L read' ix.
Proof.
  intros H. unfold MaxoutLayer.group_max. rewrite H.
  apply for_from_ext. intros j [a ai]. rewrite H. reflexivity.
Qed.

Lemma maxout_forward_paths (L : MaxoutLayer.t) (V V2 : Vol.t) :
  Vol.sx V = 1 -> Vol.sy V = 1 ->
  MaxoutLayer.forward_coord L V V2
  = (MaxoutLayer.forward_flat L V V2, Z.to_nat (MaxoutLayer.out_depth L)).
Proof.
  intros Hsx Hsy. unfold MaxoutLayer.forward_coord, MaxoutLayer.forward_flat.
  rewrite Hsx, Hsy. change (Z.to_nat 1) with 1%nat. rewrite !for_each_1.
  induction (Z.to_nat (MaxoutLayer.out_depth L)) as [| k IH];
    [reflexivity |].
  rewrite !for_each_S, IH.
  destruct (for_each k _ (V2, MaxoutLayer.switches L)) as [V2k swk].
  cbn [Z.of_nat].
  rewrite (maxout_group_max_ext L (Vol.get V 0 0) (JS.getZ (Vol.w V)))
    by (intros z; unfold Vol.get; rewrite index_origin; reflexivity).
  destruct (MaxoutLayer.group_max L _ _) as [a ai].
  unfold Vol.set, Vol.set_w. rewrite index_origin, setZ_of_nat. reflexivity.
Qed.

Lemma maxout_backward_paths (L : MaxoutLayer.t) (V V2 : Vol.t) :
  Vol.sx V2 = 1 -> Vol.sy V2 = 1 ->
  MaxoutLayer.backward_coord L V V2
  = (MaxoutLayer.backward_flat L V V2, Z.to_nat (MaxoutLayer.out_depth L)).
Proof.
  intros Hsx Hsy. unfold MaxoutLayer.backward_coord, MaxoutLayer.backward_flat.
  rewrite Hsx, Hsy. change (Z.to_nat 1) with 1%nat. rewrite !for_each_1.
  induction (Z.to_nat (MaxoutLayer.out_depth L)) as [| k IH];
    [reflexivity |].
  rewrite !for_each_S, IH. cbn [Z.of_nat].
  unfold Vol.get_grad. rewrite index_origin, getZ_of_nat.
  destruct (MaxoutLayer.switches L !! k) as [s |]; [| reflexivity].
  unfold Vol.set_grad, Vol.set_dw. rewrite index_origin. reflexivity.
Qed.

(** C9: for a MaxoutLayer with [out_sx = out_sy = 1] and an input tensor
    of that spatial size, the flat branch and the coordinate branch of
    [forward] compute the same output and the same switches, and on the
    1x1 output tensor the two branches of [backward] compute the same
    input gradient.  (On a wider input the two branches of [forward]
    can differ, as the last section shows.) *)
Theorem C9_maxout_paths_agree (L : MaxoutLayer.t) (V V2 G : Vol.t) :
  MaxoutLayer.out_sx L = 1 ->
  MaxoutLayer.out_sy L = 1 ->
  Vol.sx V = MaxoutLayer.out_sx L ->
  Vol.sy V = MaxoutLayer.out_sy L ->
  Vol.sx G = MaxoutLayer.out_sx L ->
  Vol.sy G = MaxoutLayer.out_sy L ->
  fst (MaxoutLayer.forward_coord L V V2) = MaxoutLayer.forward_flat L V V2 /\
  fst (MaxoutLayer.backward_coord L V G) = MaxoutLayer.backward_flat L V G.
Proof.
  intros Hx Hy HVx HVy HGx HGy.
  rewrite maxout_forward_paths, maxout_backward_paths by congruence.
  split; reflexivity.
Qed.

(** The statement above at a 1x1 maxout layer over four channels in groups of two. *)
Lemma C9_maxout_paths_agree_witness :
  fst (MaxoutLayer.forward_coord maxout_4_2 maxout_input
         (Vol.new 1 1 2 (Num 0)))
  = MaxoutLayer.forward_flat maxout_4_2 maxout_input (Vol.new 1 1 2 (Num 0)) /\
  fst (MaxoutLayer.backward_coord maxout_4_2 maxout_input
         (Vol.new 1 1 2 (Num 0)))
  = MaxoutLayer.backward_flat maxout_4_2 maxout_input (Vol.new 1 1 2 (Num 0)).
Proof.
  apply (C9_maxout_paths_agree maxout_4_2 maxout_input
           (Vol.new 1 1 2 (Num 0)) (Vol.new 1 1 2 (Num 0)));
    reflexivity.
Defined.

(** ** Order on numbers *)

Ltac number_cases :=
  unfold JS.gt, JS.lt, Rltb;
  repeat match goal with
         | a : number |- _ => destruct a
         end;
  repeat match goal with
         | |- context [Rlt_dec ?x ?y] => destruct (Rlt_dec x y)
         | H : context [Rlt_dec ?x ?y] |- _ => destruct (Rlt_dec x y)
         end;
  try congruence; try lra.

Lemma gt_irrefl (a : number) : JS.gt a a = false.
Proof. number_cases. Qed.

Lemma gt_trans (a b c : number) :
  JS.gt a b = true -> JS.gt b c = true -> JS.gt a c = true.
Proof. number_cases. Qed.

(** [v] does not exceed [a], and [a'] exceeds [a]: [v] does not exceed
    [a'] either. *)
Lemma gt_false_mono (v a a' : number) :
  JS.gt v a = false -> JS.gt a' a = true -> JS.gt v a' = false.
Proof. number_cases. Qed.

(** ** Nested loops as one pass over the positions visited *)

Lemma for_each_fold_map {S P : Type} (n : nat) (item : nat -> P)
    (step : P -> S -> S) (s : S) :
  for_each n (fun i s => step (item i) s) s
  = fold_left (fun s p => step p s) (item <$> seq 0 n) s.
Proof.
  unfold for_each. generalize (seq 0 n) as l. intros l. revert s.
  induction l as [| i l IH]; intros s; [reflexivity |]. cbn. apply IH.
Qed.

Lemma for_each_fold_bind {S P : Type} (n : nat) (items : nat -> list P)
    (step : P -> S -> S) (s : S) :
  for_each n (fun i s => fold_left (fun s p => step p s) (items i) s) s
  = fold_left (fun s p => step p s) (seq 0 n ≫= items) s.
Proof.
  induction n as [| n IH]; [reflexivity |].
  rewrite for_each_S, IH, seq_S, bind_app, fold_left_app. cbn.
  rewrite app_nil_r. reflexivity.
Qed.

Lemma for_each_pairs {S : Type} (a b : nat) (body : nat -> nat -> S -> S)
    (s : S) :
  for_each a (fun i s => for_each b (fun j s => body i j s) s) s
  = fold_left (fun s p => body (fst p) (snd p) s) (pairs a b) s.
Proof.
  unfold pairs.
  rewrite <- (for_each_fold_bind a _ (fun p s => body (fst p) (snd p) s)).
  apply for_each_ext. intros i s' _.
  apply (for_each_fold_map b (fun j => (i, j))
           (fun p s => body (fst p) (snd p) s)).
Qed.

Lemma elem_of_pairs (a b i j : nat) :
  (i, j) ∈ pairs a b <-> (i < a)%nat /\ (j < b)%nat.
Proof.
  unfold pairs. rewrite list_elem_of_bind. split.
  - intros (i' & Hin & Hi). apply elem_of_seq in Hi.
    apply list_elem_of_fmap in Hin as (j' & Heq & Hj).
    apply elem_of_seq in Hj. inversion Heq; subst. lia.
  - intros [Hi Hj]. exists i. split.
    + apply list_elem_of_fmap. exists j. split; [reflexivity |].
      apply elem_of_seq. lia.
    + apply elem_of_seq. lia.
Qed.

(** ** PoolLayer: one window *)

Lemma window_fold_inv (V : Vol.t) (x y d : Z) (l : list (nat * nat)) :
  window_inv V x y d l
    (fold_left (fun s p => PoolLayer.window_step V x y d (fst p) (snd p) s)
               l (PoolLayer.sentinel, -1, -1)).
Proof.
  induction l as [| p l IH] using rev_ind.
  - exists PoolLayer.sentinel, (-1), (-1). split; [reflexivity |].
    split; [| left; reflexivity].
    intros q Hq. apply elem_of_nil in Hq. contradiction.
  - rewrite fold_left_app. cbn [fold_left].
    destruct IH as (a & winx & winy & -> & Hub & Hcase).
    unfold PoolLayer.window_step.
    fold (window_x x p) (window_y y p).
    fold (window_in V x y p) (window_value V x y d p).
    assert (Hcase' :
      (a, winx, winy) = (PoolLayer.sentinel, -1, -1) \/
      exists p0, p0 ∈ l ++ [p] /\ window_in V x y p0 = true /\
        a = window_value V x y d p0 /\
        winx = window_x x p0 /\ winy = window_y y p0 /\
        JS.gt a PoolLayer.sentinel = true).
    { destruct Hcase as [Hs | (p0 & Hp0 & Hrest)]; [left; exact Hs |].
      right. exists p0. split; [apply elem_of_app; left; exact Hp0 | exact Hrest]. }
    destruct (window_in V x y p) eqn:Hin.
    + destruct (JS.gt (window_value V x y d p) a) eqn:Hg.
      * exists (window_value V x y d p), (window_x x p), (window_y y p).
        split; [reflexivity |]. split.
        -- intros q Hq Hqin. apply elem_of_app in Hq as [Hq | Hq].
           ++ apply (gt_false_mono _ a); [apply Hub; assumption | exact Hg].
           ++ apply list_elem_of_singleton in Hq. subst q. apply gt_irrefl.
        -- right. exists p. split; [apply elem_of_app; right; constructor |].
           split; [exact Hin |]. repeat split.
           destruct Hcase as [Hs | (p0 & _ & _ & _ & _ & _ & Hgs)].
           ++ inversion Hs; subst. exact Hg.
           ++ apply (gt_trans _ a); assumption.
      * exists a, winx, winy. split; [reflexivity |]. split; [| exact Hcase'].
        intros q Hq Hqin. apply elem_of_app in Hq as [Hq | Hq].
        -- apply Hub; assumption.
        -- apply list_elem_of_singleton in Hq. subst q. exact Hg.
    + exists a, winx, winy. split; [reflexivity |]. split; [| exact Hcase'].
      intros q Hq Hqin. apply elem_of_app in Hq as [Hq | Hq].
      * apply Hub; assumption.
      * apply list_elem_of_singleton in Hq. subst q. congruence.
Qed.

Lemma pool_window_fold (L : PoolLayer.t) (V : Vol.t) (x y d : Z) :
  PoolLayer.window L V x y d
  = fold_left (fun s p => PoolLayer.window_step V x y d (fst p) (snd p) s)
      (pairs (Z.to_nat (PoolLayer.sx L)) (Z.to_nat (PoolLayer.sy L)))
      (PoolLayer.sentinel, -1, -1).
Proof.
  unfold PoolLayer.window.
  apply (for_each_pairs _ _ (fun fx fy s => PoolLayer.window_step V x y d fx fy s)).
Qed.

(** The window of [L] at the corner [(x, y)] of channel [d]: nothing in
    it exceeds the value returned; the value is the sentinel [-99999]
    with the coordinates [(-1, -1)] exactly when no value in the window,
    inside the input, exceeds the sentinel, and otherwise it is the
    value at the coordinates returned, which lie in the window and
    inside the input. *)
Lemma pool_window_spec (L : PoolLayer.t) (V : Vol.t) (x y d : Z) :
  let offsets := pairs (Z.to_nat (PoolLayer.sx L)) (Z.to_nat (PoolLayer.sy L)) in
  exists a winx winy,
    PoolLayer.window L V x y d = (a, winx, winy) /\
    (forall q, q ∈ offsets -> window_in V x y q = true ->
       JS.gt (window_value V x y d q) a = false) /\
    ((forall q, q ∈ offsets -> window_in V x y q = true ->
        JS.gt (window_value V x y d q) PoolLayer.sentinel = false) ->
     (a, winx, winy) = (PoolLayer.sentinel, -1, -1)) /\
    ((exists q, q ∈ offsets /\ window_in V x y q = true /\
        JS.gt (window_value V x y d q) PoolLayer.sentinel = true) ->
     exists p, p ∈ offsets /\ window_in V x y p = true /\
       a = window_value V x y d p /\
       winx = window_x x p /\ winy = window_y y p /\
       JS.gt a PoolLayer.sentinel = true).
Proof.
  intros offsets. rewrite pool_window_fold. fold offsets.
  destruct (window_fold_inv V x y d offsets)
    as (a & winx & winy & Hr & Hub & Hcase).
  exists a, winx, winy. split; [exact Hr |]. split; [exact Hub |]. split.
  - intros Hnone. destruct Hcase as [Hs | (p & Hp & Hin & Ha & _ & _ & Hg)].
    + exact Hs.
    + rewrite Ha, (Hnone p Hp Hin) in Hg. discriminate Hg.
  - intros (q & Hq & Hin & Hg).
    destruct Hcase as [Hs | Hsome]; [| exact Hsome].
    inversion Hs; subst. rewrite (Hub q Hq Hin) in Hg. discriminate Hg.
Qed.

(** ** PoolLayer.forward: every output position *)

Lemma getZ_setZ_eq (a : list number) (i : Z) (v : number) :
  0 <= i < Z.of_nat (length a) -> JS.getZ (JS.setZ a i v) i = v.
Proof.
  intros H. unfold JS.getZ, JS.setZ.
  destruct (Z.ltb_spec i 0); [lia |]. apply get_set_eq. lia.
Qed.

Lemma getZ_setZ_ne (a : list number) (i j : Z) (v : number) :
  i <> j -> JS.getZ (JS.setZ a i v) j = JS.getZ a j.
Proof.
  intros H. unfold JS.getZ, JS.setZ.
  destruct (Z.ltb_spec j 0); [reflexivity |].
  destruct (Z.ltb_spec i 0); [reflexivity |].
  apply get_set_ne. lia.
Qed.

Lemma fold_left_fmap {S P Q : Type} (f : P -> Q) (step : S -> Q -> S)
    (l : list P) (s : S) :
  fold_left step (f <$> l) s = fold_left (fun s p => step s (f p)) l s.
Proof. revert s. induction l as [| p l IH]; intros s; [reflexivity | apply IH]. Qed.

Lemma pool_forward_loops_fold (L : PoolLayer.t) (V : Vol.t) :
  PoolLayer.forward_loops L V
  = fold_left (pool_step L V) (positions L)
      (Vol.new (PoolLayer.out_sx L) (PoolLayer.out_sy L)
               (PoolLayer.out_depth L) (Num 0),
       PoolLayer.switchx L, PoolLayer.switchy L, O).
Proof.
  unfold PoolLayer.forward_loops, positions.
  rewrite <- (for_each_fold_bind _ _ (fun p s => pool_step L V s p)).
  apply for_each_ext. intros d s _.
  rewrite fold_left_fmap.
  apply (for_each_pairs _ _ (fun ax ay s => PoolLayer.forward_step L V d ax ay s)).
Qed.

Lemma elem_of_positions (L : PoolLayer.t) (d ax ay : nat) :
  (d, ax, ay) ∈ positions L <->
  (d < Z.to_nat (PoolLayer.out_depth L))%nat /\
  (ax < Z.to_nat (PoolLayer.out_sx L))%nat /\
  (ay < Z.to_nat (PoolLayer.out_sy L))%nat.
Proof.
  unfold positions. rewrite list_elem_of_bind. split.
  - intros (d' & Hin & Hd). apply elem_of_seq in Hd.
    apply list_elem_of_fmap in Hin as ([ax' ay'] & Heq & Hp).
    apply elem_of_pairs in Hp. inversion Heq; subst. cbn. lia.
  - intros (Hd & Hax & Hay). exists d. split.
    + apply list_elem_of_fmap. exists (ax, ay). split; [reflexivity |].
      apply elem_of_pairs. lia.
    + apply elem_of_seq. lia.
Qed.

Lemma NoDup_pairs (a b : nat) : NoDup (pairs a b).
Proof.
  unfold pairs. apply NoDup_bind.
  - intros i1 i2 [i j] _ _ H1 H2.
    apply list_elem_of_fmap in H1 as (j1 & E1 & _).
    apply list_elem_of_fmap in H2 as (j2 & E2 & _). congruence.
  - intros i _. apply NoDup_fmap_2_strong; [| apply NoDup_seq].
    intros j1 j2 _ _ E. congruence.
  - apply NoDup_seq.
Qed.

Lemma NoDup_positions (L : PoolLayer.t) : NoDup (positions L).
Proof.
  unfold positions. apply NoDup_bind.
  - intros d1 d2 [[d ax] ay] _ _ H1 H2.
    apply list_elem_of_fmap in H1 as (p1 & E1 & _).
    apply list_elem_of_fmap in H2 as (p2 & E2 & _). congruence.
  - intros d _. apply NoDup_fmap_2_strong; [| apply NoDup_pairs].
    intros [a1 b1] [a2 b2] _ _ E. cbn in E. congruence.
  - apply NoDup_seq.
Qed.

Lemma mixed_radix_inj (b u u' d d' : Z) :
  0 <= d < b -> 0 <= d' < b -> u * b + d = u' * b + d' -> u = u' /\ d = d'.
Proof. intros Hd Hd' H. assert (u = u') by nia. subst. lia. Qed.

Lemma out_index_inj (L : PoolLayer.t) (p q : nat * nat * nat) :
  p ∈ positions L -> q ∈ positions L ->
  out_index L p = out_index L q -> p = q.
Proof.
  destruct p as [[d ax] ay], q as [[d' ax'] ay'].
  rewrite !elem_of_positions. unfold out_index. cbn [fst snd].
  intros (Hd & Hax & Hay) (Hd' & Hax' & Hay') H.
  apply mixed_radix_inj in H as [H1 H2]; [| lia | lia].
  rewrite (Z.mul_comm _ (Z.of_nat ay)), (Z.mul_comm _ (Z.of_nat ay')) in H1.
  apply mixed_radix_inj in H1 as [H3 H4]; [| lia | lia].
  repeat f_equal; lia.
Qed.

Lemma flat_index_bound (X Y D ax ay d : Z) :
  0 <= ax < X -> 0 <= ay < Y -> 0 <= d < D ->
  0 <= (X * ay + ax) * D + d < X * Y * D.
Proof.
  intros Hax Hay Hd.
  assert (0 <= X * ay + ax <= X * Y - 1) by nia.
  split; nia.
Qed.

Lemma out_index_bound (L : PoolLayer.t) (p : nat * nat * nat) :
  p ∈ positions L ->
  0 <= out_index L p
  < PoolLayer.out_sx L * PoolLayer.out_sy L * PoolLayer.out_depth L.
Proof.
  destruct p as [[d ax] ay]. rewrite elem_of_positions.
  unfold out_index. cbn [fst snd]. intros (Hd & Hax & Hay).
  apply flat_index_bound; lia.
Qed.

Lemma length_positions (L : PoolLayer.t) :
  positions L <> [] ->
  length (positions L)
  = Z.to_nat (PoolLayer.out_sx L * PoolLayer.out_sy L * PoolLayer.out_depth L).
Proof.
  intros Hne.
  assert (Hlen : forall a b, length (pairs a b) = (a * b)%nat).
  { intros a b. unfold pairs. induction a as [| a IH]; [reflexivity |].
    rewrite seq_S, bind_app, length_app, IH. cbn.
    rewrite app_nil_r, length_fmap, length_seq. lia. }
  assert (Hpos : length (positions L)
                 = (Z.to_nat (PoolLayer.out_depth L)
                    * (Z.to_nat (PoolLayer.out_sx L)
                       * Z.to_nat (PoolLayer.out_sy L)))%nat).
  { unfold positions.
    induction (Z.to_nat (PoolLayer.out_depth L)) as [| a IH]; [reflexivity |].
    rewrite seq_S, bind_app, length_app, IH. cbn.
    rewrite app_nil_r, length_fmap, Hlen. lia. }
  rewrite Hpos.
  destruct (positions L) as [| [[d ax] ay] rest] eqn:E; [congruence |].
  assert (Hin : (d, ax, ay) ∈ positions L) by (rewrite E; constructor).
  apply elem_of_positions in Hin as (Hd & Hax & Hay).
  rewrite !Z2Nat.inj_mul by lia. lia.
Qed.

Lemma pool_fold_inv (L : PoolLayer.t) (V : Vol.t)
    (l : list (nat * nat * nat)) (A0 : Vol.t) (swx0 swy0 : list Z) :
  Vol.sx A0 = PoolLayer.out_sx L ->
  Vol.depth A0 = PoolLayer.out_depth L ->
  NoDup (out_index L <$> l) ->
  (forall p, p ∈ l -> 0 <= out_index L p < Z.of_nat (length (Vol.w A0))) ->
  (length l <= length swx0)%nat ->
  (length l <= length swy0)%nat ->
  exists A swx swy,
    fold_left (pool_step L V) l (A0, swx0, swy0, O)
    = (A, swx, swy, length l) /\
    Vol.sx A = Vol.sx A0 /\ Vol.sy A = Vol.sy A0 /\
    Vol.depth A = Vol.depth A0 /\
    length (Vol.w A) = length (Vol.w A0) /\
    length swx = length swx0 /\ length swy = length swy0 /\
    forall k p, l !! k = Some p ->
      JS.getZ (Vol.w A) (out_index L p) = fst (fst (pool_window L V p)) /\
      swx !! k = Some (snd (fst (pool_window L V p))) /\
      swy !! k = Some (snd (pool_window L V p)).
Proof.
  intros Hsx Hdepth. induction l as [| p l IH] using rev_ind;
    intros Hnd Hidx Hlx Hly.
  - exists A0, swx0, swy0. repeat split; try reflexivity;
      rewrite lookup_nil in H; discriminate H.
  - rewrite fmap_app in Hnd. apply NoDup_app in Hnd as (Hnd & Hfresh & _).
    rewrite length_app in Hlx, Hly. cbn [length] in Hlx, Hly.
    destruct IH as (A & swx & swy & Hfold & HAx & HAy & HAd & HAl & Hxl & Hyl & Hall);
      [exact Hnd | | lia | lia |].
    { intros q Hq. apply Hidx, elem_of_app. left. exact Hq. }
    rewrite fold_left_app, Hfold. cbn [fold_left].
    unfold pool_step at 1, PoolLayer.forward_step.
    fold (pool_window L V p).
    destruct (pool_window L V p) as [[a winx] winy] eqn:Hwin.
    eexists _, _, _. split.
    { rewrite length_app. cbn [length]. rewrite Nat.add_1_r. reflexivity. }
    cbn [Vol.set Vol.sx Vol.sy Vol.depth Vol.w].
    rewrite length_setZ, !length_insert.
    split; [exact HAx |]. split; [exact HAy |]. split; [exact HAd |].
    split; [exact HAl |]. split; [exact Hxl |]. split; [exact Hyl |].
    assert (Hi : Vol.index A (Z.of_nat (snd (fst p))) (Z.of_nat (snd p))
                   (Z.of_nat (fst (fst p))) = out_index L p).
    { unfold Vol.index, out_index. rewrite HAx, HAd, Hsx, Hdepth. reflexivity. }
    rewrite Hi.
    intros k q Hk. apply lookup_snoc_Some in Hk as [[Hlt Hk] | [-> <-]].
    + destruct (Hall k q Hk) as (Hq1 & Hq2 & Hq3).
      rewrite getZ_setZ_ne.
      * rewrite !list_lookup_insert_ne by lia. repeat split; assumption.
      * intros Heq. apply (Hfresh (out_index L q)).
        -- apply list_elem_of_fmap. exists q. split; [reflexivity |].
           apply list_elem_of_lookup. exists k. exact Hk.
        -- rewrite <- Heq. cbn. constructor.
    + rewrite Hwin. cbn [fst snd].
      rewrite getZ_setZ_eq.
      * rewrite !list_lookup_insert_eq by lia. repeat split; reflexivity.
      * rewrite HAl. apply Hidx, elem_of_app. right. constructor.
Qed.

Lemma in_bounds_spec (V : Vol.t) (ox oy : Z) :
  PoolLayer.in_bounds V ox oy = true
  <-> 0 <= ox < Vol.sx V /\ 0 <= oy < Vol.sy V.
Proof.
  unfold PoolLayer.in_bounds. rewrite !andb_true_iff.
  rewrite !Z.geb_le, !Z.ltb_lt. lia.
Qed.

(** The offsets the two filter loops visit are the positions of the
    window. *)
Lemma in_window_offsets (L : PoolLayer.t) (V : Vol.t) (ax ay : nat)
    (ox oy : Z) :
  in_window L V ax ay ox oy
  <-> exists q,
        q ∈ pairs (Z.to_nat (PoolLayer.sx L)) (Z.to_nat (PoolLayer.sy L)) /\
        window_in V (PoolLayer.corner L ax) (PoolLayer.corner L ay) q = true /\
        ox = window_x (PoolLayer.corner L ax) q /\
        oy = window_y (PoolLayer.corner L ay) q.
Proof.
  unfold in_window, window_in, window_x, window_y, PoolLayer.corner.
  cbn zeta. split.
  - intros [[Hx Hy] Hin].
    exists (Z.to_nat (ox - (- PoolLayer.pad L + Z.of_nat ax * PoolLayer.stride L)),
            Z.to_nat (oy - (- PoolLayer.pad L + Z.of_nat ay * PoolLayer.stride L))).
    cbn [fst snd]. rewrite !Z2Nat.id by lia.
    split; [apply elem_of_pairs; lia |].
    split; [| lia].
    apply in_bounds_spec.
    replace (_ + (ox - _)) with ox by lia.
    replace (_ + (oy - _)) with oy by lia. exact Hin.
  - intros ([fx fy] & Hq & Hin & -> & ->). cbn [fst snd] in *.
    apply elem_of_pairs in Hq. apply in_bounds_spec in Hin.
    split; [lia | exact Hin].
Qed.

(** C10: [PoolLayer.forward] starts each window at the sentinel
    [-99999].  At every output position [(ax, ay, d)], with [a] the
    output value and [(winx, winy)] the switch pair recorded for it:
    no value of channel [d] at a position of the window inside the
    input exceeds [a]; if some such value exceeds [-99999], then
    [(winx, winy)] is a position of the window inside the input and
    [a] is the value there (so [a] is the maximum over these
    positions); if none does (all are at most [-99999], or the window
    lies outside the input), [a] is [-99999] and the switch pair is
    [(-1, -1)].  The window of [(ax, ay)] is the [sx] by [sy] rectangle
    whose corner is [-pad + ax * stride], [-pad + ay * stride]. *)
Theorem C10_pool_forward_sentinel
    (L : PoolLayer.t) (V : Vol.t) (d ax ay : nat) :
  length (PoolLayer.switchx L)
  = Z.to_nat (PoolLayer.out_sx L * PoolLayer.out_sy L * PoolLayer.out_depth L) ->
  length (PoolLayer.switchy L)
  = Z.to_nat (PoolLayer.out_sx L * PoolLayer.out_sy L * PoolLayer.out_depth L) ->
  (d < Z.to_nat (PoolLayer.out_depth L))%nat ->
  (ax < Z.to_nat (PoolLayer.out_sx L))%nat ->
  (ay < Z.to_nat (PoolLayer.out_sy L))%nat ->
  exists n a winx winy,
    positions L !! n = Some (d, ax, ay) /\
    Vol.get (snd (PoolLayer.forward L V))
            (Z.of_nat ax) (Z.of_nat ay) (Z.of_nat d) = a /\
    PoolLayer.switchx (fst (PoolLayer.forward L V)) !! n = Some winx /\
    PoolLayer.switchy (fst (PoolLayer.forward L V)) !! n = Some winy /\
    (forall ox oy, in_window L V ax ay ox oy ->
       JS.gt (Vol.get V ox oy (Z.of_nat d)) a = false) /\
    ((forall ox oy, in_window L V ax ay ox oy ->
        JS.gt (Vol.get V ox oy (Z.of_nat d)) (Num (-99999)) = false) ->
     a = Num (-99999) /\ winx = -1 /\ winy = -1) /\
    ((exists ox oy, in_window L V ax ay ox oy /\
        JS.gt (Vol.get V ox oy (Z.of_nat d)) (Num (-99999)) = true) ->
     in_window L V ax ay winx winy /\
     a = Vol.get V winx winy (Z.of_nat d) /\
     JS.gt a (Num (-99999)) = true).
Proof.
  intros Hlx Hly Hd Hax Hay.
  set (x := PoolLayer.corner L ax). set (y := PoolLayer.corner L ay).
  set (offsets :=
         pairs (Z.to_nat (PoolLayer.sx L)) (Z.to_nat (PoolLayer.sy L))).
  assert (Hin : (d, ax, ay) ∈ positions L)
    by (apply elem_of_positions; lia).
  assert (Hne : positions L <> []).
  { intros E. rewrite E in Hin. apply elem_of_nil in Hin. exact Hin. }
  pose proof (length_positions L Hne) as Hlen.
  destruct (proj1 (list_elem_of_lookup _ _) Hin) as [n Hn].
  set (A0 := Vol.new (PoolLayer.out_sx L) (PoolLayer.out_sy L)
                     (PoolLayer.out_depth L) (Num 0)).
  destruct (pool_fold_inv L V (positions L) A0
              (PoolLayer.switchx L) (PoolLayer.switchy L))
    as (A & swx & swy & Hfold & HAx & _ & HAd & _ & _ & _ & Hall);
    try reflexivity; try lia.
  { apply NoDup_fmap_2_strong; [| apply NoDup_positions].
    intros p q Hp Hq. apply out_index_inj; assumption. }
  { intros p Hp. pose proof (out_index_bound L p Hp) as Hb.
    unfold A0, Vol.new. cbn [Vol.w]. rewrite length_replicate. lia. }
  destruct (Hall n _ Hn) as (HA & Hswx & Hswy).
  unfold PoolLayer.forward. rewrite pool_forward_loops_fold. fold A0.
  rewrite Hfold. cbn [fst snd PoolLayer.set_state PoolLayer.switchx
                      PoolLayer.switchy].
  destruct (pool_window_spec L V x y (Z.of_nat d))
    as (a & winx & winy & Hwin & Hub & Hnone & Hsome).
  assert (Hpw : pool_window L V (d, ax, ay) = (a, winx, winy)) by exact Hwin.
  rewrite Hpw in HA, Hswx, Hswy. cbn [fst snd] in HA, Hswx, Hswy.
  exists n, a, winx, winy.
  split; [exact Hn |]. split.
  { unfold Vol.get, Vol.index. rewrite HAx, HAd. exact HA. }
  split; [exact Hswx |]. split; [exact Hswy |]. split; [| split].
  - intros ox oy Hw. apply in_window_offsets in Hw as (q & Hq & Hqin & -> & ->).
    exact (Hub q Hq Hqin).
  - intros H.
    assert (Hs : (a, winx, winy) = (PoolLayer.sentinel, -1, -1)).
    { apply Hnone. intros q Hq Hqin.
      apply (H (window_x x q) (window_y y q)).
      apply in_window_offsets. exists q. repeat split; assumption. }
    inversion Hs. repeat split.
  - intros (ox & oy & Hw & Hg).
    apply in_window_offsets in Hw as (q & Hq & Hqin & -> & ->).
    destruct Hsome as (p & Hp & Hpin & Ha & Hx & Hy & Hgs).
    { exists q. repeat split; assumption. }
    split; [| split].
    + apply in_window_offsets. exists p. repeat split; assumption.
    + rewrite Ha, Hx, Hy. reflexivity.
    + exact Hgs.
Qed.

(** The statement above at a 2x2 pooling window over a 2x2 input. *)
Lemma C10_pool_forward_sentinel_witness :
  exists n a winx winy,
    positions pool_2x2 !! n = Some (O, O, O) /\
    Vol.get (snd (PoolLayer.forward pool_2x2 pool_input)) 0 0 0 = a /\
    PoolLayer.switchx (fst (PoolLayer.forward pool_2x2 pool_input)) !! n
    = Some winx /\
    PoolLayer.switchy (fst (PoolLayer.forward pool_2x2 pool_input)) !! n
    = Some winy /\
    (forall ox oy, in_window pool_2x2 pool_input 0 0 ox oy ->
       JS.gt (Vol.get pool_input ox oy 0) a = false) /\
    ((forall ox oy, in_window pool_2x2 pool_input 0 0 ox oy ->
        JS.gt (Vol.get pool_input ox oy 0) (Num (-99999)) = false) ->
     a = Num (-99999) /\ winx = -1 /\ winy = -1) /\
    ((exists ox oy, in_window pool_2x2 pool_input 0 0 ox oy /\
        JS.gt (Vol.get pool_input ox oy 0) (Num (-99999)) = true) ->
     in_window pool_2x2 pool_input 0 0 winx winy /\
     a = Vol.get pool_input winx winy 0 /\
     JS.gt a (Num (-99999)) = true).
Proof.
  apply (C10_pool_forward_sentinel pool_2x2 pool_input O O O);
    [reflexivity | reflexivity | cbn; lia | cbn; lia | cbn; lia].
Defined.

(** ** Serialization round trip *)

Lemma for_each_rel {S S' : Type} (R : S -> S' -> Prop) (n : nat)
    (body : nat -> S -> S) (body' : nat -> S' -> S') (s : S) (s' : S') :
  R s s' ->
  (forall i s s', R s s' -> R (body i s) (body' i s')) ->
  R (for_each n body s) (for_each n body' s').
Proof.
  intros H0 Hstep. induction n as [| n IH]; [exact H0 |].
  rewrite !for_each_S. apply Hstep, IH.
Qed.

Lemma for_each_r_ext {S : Type} (n : nat) (body body' : nat -> S -> result S)
    (s : S) :
  (forall i s, body i s = body' i s) ->
  for_each_r n body s = for_each_r n body' s.
Proof.
  intros H. unfold for_each_r. apply for_each_ext.
  intros i [a | e] _; [apply H | reflexivity].
Qed.

Lemma vol_reload_reads (f : Vol.t) :
  let f' := Vol.fromJSON (Vol.toJSON f) in
  Vol.sx f' = Vol.sx f /\ Vol.sy f' = Vol.sy f /\
  Vol.depth f' = Vol.depth f /\ Vol.w f' = Vol.w f.
Proof. repeat split. Qed.










(** On the record a well-tagged layer serializes to, the tests of
    [fromJSON] choose the class of the layer, whose [fromJSON] finds
    every field it reads. *)
Lemma layer_fromJSON_toJSON (L : LayerType) :
  well_tagged L ->
  Net.layer_fromJSON (Net.layer_toJSON L) = Ok (Net.Loaded (reload L)).
Proof.
  unfold well_tagged.
  destruct L as [L | L | L | L | L | L | L | L | L | L | L | L | L];
    destruct L; cbn [Net.layer_type_of class_tag InputLayer.layer_type
      ReluLayer.layer_type SigmoidLayer.layer_type TanhLayer.layer_type
      DropoutLayer.layer_type ConvLayer.layer_type PoolLayer.layer_type
      LocalResponseNormalizationLayer.layer_type SoftmaxLayer.layer_type
      RegressionLayer.layer_type FullyConnLayer.layer_type
      MaxoutLayer.layer_type SVMLayer.layer_type];
    intros ->; reflexivity.
Qed.


Lemma fromJSON_loop_toJSON (layers : list LayerType) :
  Forall well_tagged layers ->
  Net.fromJSON_loop (map Net.layer_toJSON layers)
  = Ok (Net.Loaded <$> map reload layers).
Proof.
  induction 1 as [| L layers HL _ IH]; [reflexivity |].
  cbn [map Net.fromJSON_loop]. rewrite (layer_fromJSON_toJSON L HL), IH.
  reflexivity.
Qed.

(** Every constructor tags the layer it builds with the tag of its
    class. *)
Lemma constructors_well_tagged :
  (forall opt, well_tagged (Relu (ReluLayer.constructor opt))) /\
  (forall opt, well_tagged (Sigmoid (SigmoidLayer.constructor opt))) /\
  (forall opt, well_tagged (Tanh (TanhLayer.constructor opt))) /\
  (forall opt, well_tagged (Maxout (MaxoutLayer.constructor opt))) /\
  (forall opt, well_tagged (Dropout (DropoutLayer.constructor opt))) /\
  (forall opt, well_tagged (Pool (PoolLayer.constructor opt))) /\
  (forall opt, well_tagged (Softmax (SoftmaxLayer.constructor opt))) /\
  (forall opt, well_tagged (Regression (RegressionLayer.constructor opt))) /\
  (forall opt, well_tagged (SVM (SVMLayer.constructor opt))) /\
  (forall opt draw, well_tagged (Conv (ConvLayer.constructor opt draw))) /\
  (forall opt draw,
     well_tagged (FullyConn (FullyConnLayer.constructor opt draw))).
Proof. repeat split. Qed.




(** ** Loops that can throw *)

Lemma for_each_r_S {S : Type} (n : nat) (body : nat -> S -> result S) (s : S) :
  for_each_r (Datatypes.S n) body s = bind (for_each_r n body s) (body n).
Proof. unfold for_each_r. rewrite for_each_S. reflexivity. Qed.

Lemma for_each_r_ok {S : Type} (n : nat) (body : nat -> S -> result S)
    (f : nat -> S -> S) (s : S) :
  (forall i s, (i < n)%nat -> body i s = Ok (f i s)) ->
  for_each_r n body s = Ok (for_each n f s).
Proof.
  induction n as [| n IH]; intros H; [reflexivity |].
  rewrite for_each_r_S, for_each_S, IH by (intros; apply H; lia).
  cbn. apply H. lia.
Qed.

Lemma for_each_r_throw {S : Type} (n : nat) (body : nat -> S -> result S)
    (e : error) (s : S) :
  (0 < n)%nat -> (forall i s, body i s = Throw e) ->
  for_each_r n body s = Throw e.
Proof.
  intros Hn H. induction n as [| n IH]; [lia |].
  rewrite for_each_r_S. destruct n as [| n].
  - cbn. apply H.
  - rewrite IH by lia. reflexivity.
Qed.

(** A loop that writes [g i] into element [i] of a zero-filled array. *)
Lemma write_loop (g : nat -> number) (n : nat) :
  for_each n (fun i a => JS.set a i (g i)) (util.zeros (Z.of_nat n))
  = map g (seq 0 n).
Proof.
  pose proof (for_each_elementwise (fun i _ => g i) (util.zeros (Z.of_nat n)))
    as H.
  rewrite length_zeros, Nat2Z.id in H. cbn in H. rewrite H.
  apply list_eq. intros i. rewrite list_lookup_imap, list_lookup_fmap.
  unfold util.zeros. rewrite Nat2Z.id.
  destruct (Nat.lt_ge_cases i n) as [Hi | Hi].
  - rewrite lookup_replicate_2 by exact Hi.
    rewrite lookup_seq_lt by exact Hi. reflexivity.
  - rewrite (lookup_ge_None_2 (replicate n (Num 0)) i) by (rewrite length_replicate; exact Hi).
    rewrite lookup_seq_ge by exact Hi. reflexivity.
Qed.

Lemma map_seq_imap {A B : Type} (f : nat -> A -> B) (d : A) (l : list A) :
  map (fun i => f i (default d (l !! i))) (seq 0 (length l)) = imap f l.
Proof.
  apply list_eq. intros i. rewrite list_lookup_imap, list_lookup_fmap.
  destruct (Nat.lt_ge_cases i (length l)) as [Hi | Hi].
  - rewrite lookup_seq_lt by exact Hi.
    destruct (lookup_lt_is_Some_2 l i Hi) as [v Hv]. cbn. rewrite Hv.
    reflexivity.
  - rewrite lookup_seq_ge by exact Hi.
    rewrite lookup_ge_None_2 by exact Hi. reflexivity.
Qed.

Lemma Rleb_true (x y : R) : (x <= y)%R -> Rleb x y = true.
Proof.
  intros H. unfold Rleb. destruct (Rle_dec x y); [reflexivity | contradiction].
Qed.

Lemma Rleb_false (x y : R) : ~ (x <= y)%R -> Rleb x y = false.
Proof.
  intros H. unfold Rleb. destruct (Rle_dec x y); [contradiction | reflexivity].
Qed.

(** ** ReluLayer.backward *)

Lemma le_threshold (v : number) :
  JS.le (if JS.lt v (Num 0) then Num 0 else v) (Num 0) = JS.le v (Num 0).
Proof.
  destruct v as [r | | |]; try reflexivity.
  - cbn [JS.lt]. destruct (Rlt_dec r 0) as [H | H].
    + rewrite Rltb_true by exact H. cbn. rewrite !Rleb_true by lra.
      reflexivity.
    + rewrite Rltb_false by exact H. reflexivity.
  - cbn. apply Rleb_true. lra.
Qed.

Lemma relu_backward_loop (L : ReluLayer.t) (V2 : Vol.t) (n : nat) :
  ReluLayer.out_act L = Some V2 ->
  for_each_r n (ReluLayer.backward_step L) (util.zeros (Z.of_nat n))
  = Ok (map (fun i => if JS.le (JS.get (Vol.w V2) i) (Num 0) then Num 0
                      else JS.get (Vol.dw V2) i) (seq 0 n)).
Proof.
  intros H2. rewrite <- write_loop. apply for_each_r_ok.
  intros i dw _. unfold ReluLayer.backward_step. rewrite H2. cbn.
  destruct (JS.le _ _); reflexivity.
Qed.

(** X1: After [ReluLayer.forward] on a tensor with at least one element,
    [ReluLayer.backward] sets the gradient to 0 where the input is [<= 0] and passes the
    gradient [g] elsewhere, at every element: the test reads the
    output, which [forward] left equal to the input beyond the first
    element. *)
Theorem X1_relu_backward_after_forward (L : ReluLayer.t) (V : Vol.t)
    (g : list number) :
  Vol.w V <> [] ->
  exists L',
    ReluLayer.backward (relu_run L V g) = Ok L' /\
    ReluLayer.in_act L'
    = Some (Vol.set_dw V
              (imap (fun i v => if JS.le v (Num 0) then Num 0 else JS.get g i)
                    (Vol.w V))).
Proof.
  intros Hne.
  destruct (Vol.w V) as [| v ws] eqn:Hw; [contradiction | clear Hne].
  unfold relu_run, ReluLayer.forward. rewrite Hw.
  cbn [length seq for_return ReluLayer.forward_body fst receive fmap
       option_fmap option_map ReluLayer.layer_type ReluLayer.out_sx
       ReluLayer.out_sy ReluLayer.out_depth ReluLayer.in_act
       ReluLayer.out_act].
  unfold ReluLayer.backward. cbn [ReluLayer.in_act deref bind].
  erewrite relu_backward_loop by reflexivity.
  cbn [bind]. eexists. split; [reflexivity |].
  cbn [ReluLayer.in_act]. do 2 f_equal.
  rewrite <- (map_seq_imap
                (fun i v => if JS.le v (Num 0) then Num 0 else JS.get g i) NaN).
  rewrite Hw. apply map_ext_in. intros i _.
  cbn [Vol.dw Vol.set_dw]. unfold Vol.clone. rewrite Hw.
  assert (Hget : forall (c : bool) (A B : Vol.t) k,
             JS.get (Vol.w (Vol.set_dw (if c then A else B) g)) k
             = if c then JS.get (Vol.w A) k else JS.get (Vol.w B) k)
    by (intros [|]; reflexivity).
  rewrite Hget. cbn [Vol.w Vol.set_w]. clear Hget.
  destruct i as [| i].
  - unfold JS.get, JS.set.
    cbn [lookup list_lookup insert list_insert default Datatypes.id].
    rewrite <- (le_threshold v). destruct (JS.lt v (Num 0)); reflexivity.
  - unfold JS.get, JS.set.
    cbn [lookup list_lookup insert list_insert default Datatypes.id].
    destruct (JS.lt v (Num 0)); reflexivity.
Qed.


Lemma X1_relu_backward_after_forward_witness :
  exists L',
    ReluLayer.backward
      (relu_run (ReluLayer.constructor (ReluLayer.mk_options 1 1 2))
                small_tensor [Num 5; Num 7]) = Ok L' /\
    ReluLayer.in_act L'
    = Some (Vol.set_dw small_tensor
              (imap (fun i v => if JS.le v (Num 0) then Num 0
                                else JS.get [Num 5; Num 7] i)
                    (Vol.w small_tensor))).
Proof. apply X1_relu_backward_after_forward. discriminate. Defined.

(** X2: [ReluLayer.backward] throws exactly when a tensor it reads is [undefined]:
    [in_act] always, [out_act] when the loop runs; it throws nothing
    but a TypeError. *)
Theorem X2_relu_backward_throws (L : ReluLayer.t) (e : error) :
  ReluLayer.backward L = Throw e
  <-> e = TypeError /\
      (ReluLayer.in_act L = None \/
       (ReluLayer.out_act L = None /\
        exists V, ReluLayer.in_act L = Some V /\ Vol.w V <> [])).
Proof.
  unfold ReluLayer.backward.
  destruct (ReluLayer.in_act L) as [V |] eqn:Hin; cbn [deref bind].
  - destruct (ReluLayer.out_act L) as [V2 |] eqn:Hout.
    + rewrite (relu_backward_loop L V2 _ Hout). cbn. split; [discriminate |].
      intros [_ [H | [H _]]]; discriminate.
    + destruct (Vol.w V) as [| v ws] eqn:Hw.
      * cbn. split; [discriminate |].
        intros [_ [H | [_ (V' & HV' & Hne)]]]; [discriminate |].
        injection HV' as <-. contradiction.
      * rewrite (for_each_r_throw _ _ TypeError).
        -- cbn. split.
           ++ intros [= <-]. split; [reflexivity |]. right.
              split; [reflexivity |]. exists V. rewrite Hw. split; [reflexivity | discriminate].
           ++ intros [-> _]. reflexivity.
        -- cbn. lia.
        -- intros i s. unfold ReluLayer.backward_step. rewrite Hout. reflexivity.
  - split.
    + intros [= <-]. split; [reflexivity | left; reflexivity].
    + intros [-> _]. reflexivity.
Qed.

(** ** SigmoidLayer *)

Section real_functions.
Local Open Scope R_scope.

Lemma sigmoid_finite (x : R) :
  SigmoidLayer.sigmoid (Num x) = Num (1 / (1 + exp (- x))).
Proof.
  unfold SigmoidLayer.sigmoid. cbn.
  pose proof (exp_pos (- x)). rewrite Reqb_false by lra. reflexivity.
Qed.

Lemma derivable_pt_lim_ext (f g : R -> R) (x l : R) :
  (forall y, f y = g y) ->
  derivable_pt_lim f x l -> derivable_pt_lim g x l.
Proof.
  intros Heq Hf eps Heps. destruct (Hf eps Heps) as [delta Hd].
  exists delta. intros h Hh Hlt. rewrite <- !Heq. apply Hd; assumption.
Qed.

Lemma sigmoid_derivative (x : R) :
  let s := real_fn SigmoidLayer.sigmoid x in
  derivable_pt_lim (real_fn SigmoidLayer.sigmoid) x (s * (1 - s)).
Proof.
  intros s.
  apply (derivable_pt_lim_ext (fct_cte 1 / (fct_cte 1 + comp exp (- id)))%F).
  { intros y. unfold real_fn. rewrite sigmoid_finite. reflexivity. }
  assert (Hs : s = 1 / (1 + exp (- x))).
  { unfold s, real_fn. rewrite sigmoid_finite. reflexivity. }
  pose proof (exp_pos (- x)) as He.
  replace (s * (1 - s))
    with ((0 * (fct_cte 1 + comp exp (- id))%F x
           - (0 + exp ((- id)%F x) * (- 1)) * fct_cte 1 x)
          / Rsqr ((fct_cte 1 + comp exp (- id))%F x)).
  - apply derivable_pt_lim_div.
    + apply derivable_pt_lim_const.
    + apply derivable_pt_lim_plus; [apply derivable_pt_lim_const |].
      apply derivable_pt_lim_comp; [| apply derivable_pt_lim_exp].
      apply derivable_pt_lim_opp, derivable_pt_lim_id.
    + unfold plus_fct, fct_cte, comp, opp_fct, id. lra.
  - rewrite Hs. unfold plus_fct, fct_cte, comp, opp_fct, id, Rsqr.
    field. lra.
Qed.

Lemma sigmoid_range (x : R) : 0 <= 1 / (1 + exp (- x)) <= 1.
Proof.
  pose proof (exp_pos (- x)) as He.
  assert (H : (1 / (1 + exp (- x))) * (1 + exp (- x)) = 1) by (field; lra).
  split; nra.
Qed.

Lemma tanh_finite (x : R) :
  TanhLayer.tanh (Num x) = Num ((exp (2 * x) - 1) / (exp (2 * x) + 1)).
Proof.
  unfold TanhLayer.tanh. cbn.
  pose proof (exp_pos (2 * x)). rewrite Reqb_false by lra. reflexivity.
Qed.

Lemma tanh_exp (x : R) :
  (exp (2 * x) - 1) / (exp (2 * x) + 1) = Rtrigo_def.tanh x.
Proof.
  unfold Rtrigo_def.tanh, sinh, cosh.
  replace (2 * x) with (x + x) by lra. rewrite exp_plus, exp_Ropp.
  pose proof (exp_pos x) as He. field. repeat split; nra.
Qed.

Lemma tanh_range (x : R) :
  -1 <= (exp (2 * x) - 1) / (exp (2 * x) + 1) <= 1.
Proof.
  pose proof (exp_pos (2 * x)) as He.
  assert (H : ((exp (2 * x) - 1) / (exp (2 * x) + 1)) * (exp (2 * x) + 1)
              = exp (2 * x) - 1) by (field; lra).
  split; nra.
Qed.

Lemma tanh_derivative (x : R) :
  let t := real_fn TanhLayer.tanh x in
  derivable_pt_lim (real_fn TanhLayer.tanh) x (1 - t * t).
Proof.
  intros t.
  set (u := comp exp (mult_real_fct 2 id)).
  apply (derivable_pt_lim_ext ((u - fct_cte 1) / (u + fct_cte 1))%F).
  { intros y. unfold real_fn. rewrite tanh_finite. reflexivity. }
  assert (Ht : t = (exp (2 * x) - 1) / (exp (2 * x) + 1)).
  { unfold t, real_fn. rewrite tanh_finite. reflexivity. }
  pose proof (exp_pos (2 * x)) as He.
  assert (Hu : derivable_pt_lim u x (exp (2 * x) * (2 * 1))).
  { unfold u. apply derivable_pt_lim_comp.
    - apply derivable_pt_lim_scal, derivable_pt_lim_id.
    - apply derivable_pt_lim_exp. }
  replace (1 - t * t)
    with (((exp (2 * x) * (2 * 1) - 0) * (u + fct_cte 1)%F x
           - (exp (2 * x) * (2 * 1) + 0) * (u - fct_cte 1)%F x)
          / Rsqr ((u + fct_cte 1)%F x)).
  - apply derivable_pt_lim_div.
    + apply derivable_pt_lim_minus; [exact Hu | apply derivable_pt_lim_const].
    + apply derivable_pt_lim_plus; [exact Hu | apply derivable_pt_lim_const].
    + unfold u, plus_fct, fct_cte, comp, mult_real_fct, id. lra.
  - rewrite Ht.
    unfold u, plus_fct, minus_fct, fct_cte, comp, mult_real_fct, id, Rsqr.
    field. lra.
Qed.

End real_functions.

Lemma get_fmap (f : number -> number) (l : list number) (i : nat) (v : number) :
  l !! i = Some v -> JS.get (f <$> l) i = f v.
Proof.
  intros H. unfold JS.get. rewrite list_lookup_fmap, H. reflexivity.
Qed.

(** The loop of an elementwise [forward] on a zero-filled clone. *)
Lemma elementwise_forward (f : number -> number) (V : Vol.t) :
  well_formed V ->
  for_each (length (Vol.w V))
    (fun i V2w => JS.set V2w i (f (JS.get (Vol.w V) i)))
    (Vol.w (Vol.cloneAndZero V))
  = f <$> Vol.w V.
Proof.
  intros Hwf. unfold Vol.cloneAndZero, Vol.new. cbn [Vol.w].
  rewrite <- Hwf.
  pose proof (write_loop (fun i => f (JS.get (Vol.w V) i)) (length (Vol.w V)))
    as H.
  unfold util.zeros in H. rewrite Nat2Z.id in H. rewrite H.
  unfold JS.get. rewrite (map_seq_imap (fun _ v => f v) NaN).
  apply imap_const.
Qed.

Lemma sigmoid_forward_map (L : SigmoidLayer.t) (V : Vol.t) :
  well_formed V ->
  Vol.w (SigmoidLayer.forward L V).2 = SigmoidLayer.sigmoid <$> Vol.w V.
Proof.
  intros Hwf. unfold SigmoidLayer.forward. cbn [snd Vol.w Vol.set_w].
  apply (elementwise_forward SigmoidLayer.sigmoid V Hwf).
Qed.

(** X3: [SigmoidLayer.forward] returns a tensor of the same length whose
    element [i] is [1 / (1 + exp (- x))] for a finite input element [x],
    a number from 0 to 1 (the ends are kept in the statement: rounding
    reaches them), 1 for [+Infinity], 0 for [-Infinity] and [NaN] for
    [NaN]. *)
Theorem X3_sigmoid_forward_range (L : SigmoidLayer.t) (V : Vol.t) :
  well_formed V ->
  let out := (SigmoidLayer.forward L V).2 in
  length (Vol.w out) = length (Vol.w V) /\
  (forall i x, Vol.w V !! i = Some (Num x) ->
     Vol.w out !! i = Some (Num (1 / (1 + exp (- x)))) /\
     (0 <= 1 / (1 + exp (- x)) <= 1)%R) /\
  (forall i, Vol.w V !! i = Some PInf -> Vol.w out !! i = Some (Num 1)) /\
  (forall i, Vol.w V !! i = Some NInf -> Vol.w out !! i = Some (Num 0)) /\
  (forall i, Vol.w V !! i = Some NaN -> Vol.w out !! i = Some NaN).
Proof.
  intros Hwf out. pose proof (sigmoid_forward_map L V Hwf) as Hmap.
  assert (Hat : forall i v, Vol.w V !! i = Some v ->
                            Vol.w out !! i = Some (SigmoidLayer.sigmoid v)).
  { intros i v Hv. unfold out. rewrite Hmap, list_lookup_fmap, Hv.
    reflexivity. }
  split; [unfold out; rewrite Hmap; apply length_fmap |].
  split; [| split; [| split]].
  - intros i x Hx. split; [| apply sigmoid_range].
    rewrite (Hat i _ Hx), sigmoid_finite. reflexivity.
  - intros i Hi. rewrite (Hat i _ Hi). unfold SigmoidLayer.sigmoid. cbn.
    rewrite Reqb_false by lra. do 2 f_equal. lra.
  - intros i Hi. rewrite (Hat i _ Hi). reflexivity.
  - intros i Hi. rewrite (Hat i _ Hi). reflexivity.
Qed.

Lemma X3_sigmoid_forward_range_witness :
  let out := (SigmoidLayer.forward
                (SigmoidLayer.constructor (SigmoidLayer.mk_options 1 1 2))
                small_tensor).2 in
  length (Vol.w out) = length (Vol.w small_tensor) /\
  (forall i x, Vol.w small_tensor !! i = Some (Num x) ->
     Vol.w out !! i = Some (Num (1 / (1 + exp (- x)))) /\
     (0 <= 1 / (1 + exp (- x)) <= 1)%R) /\
  (forall i, Vol.w small_tensor !! i = Some PInf ->
     Vol.w out !! i = Some (Num 1)) /\
  (forall i, Vol.w small_tensor !! i = Some NInf ->
     Vol.w out !! i = Some (Num 0)) /\
  (forall i, Vol.w small_tensor !! i = Some NaN ->
     Vol.w out !! i = Some NaN).
Proof. apply X3_sigmoid_forward_range. reflexivity. Defined.

Lemma sigmoid_backward_loop (L : SigmoidLayer.t) (V2 : Vol.t) (n : nat) :
  SigmoidLayer.out_act L = Some V2 ->
  for_each_r n (SigmoidLayer.backward_step L) (util.zeros (Z.of_nat n))
  = Ok (map (fun i =>
               let v2wi := JS.get (Vol.w V2) i in
               JS.mul (JS.mul v2wi (JS.sub (Num 1) v2wi))
                      (JS.get (Vol.dw V2) i)) (seq 0 n)).
Proof.
  intros H2. rewrite <- write_loop. apply for_each_r_ok.
  intros i dw _. unfold SigmoidLayer.backward_step. rewrite H2. reflexivity.
Qed.

(** X4: After [SigmoidLayer.forward], [SigmoidLayer.backward] multiplies
    each gradient it received by the derivative of the sigmoid at the input. *)
Theorem X4_sigmoid_backward_derivative (L : SigmoidLayer.t) (V : Vol.t)
    (g : list number) :
  well_formed V ->
  exists L' V',
    SigmoidLayer.backward (sigmoid_run L V g) = Ok L' /\
    SigmoidLayer.in_act L' = Some V' /\
    Vol.w V' = Vol.w V /\
    forall i x gi,
      Vol.w V !! i = Some (Num x) -> g !! i = Some (Num gi) ->
      exists d, derivable_pt_lim (real_fn SigmoidLayer.sigmoid) x d /\
                Vol.dw V' !! i = Some (Num (d * gi)).
Proof.
  intros Hwf. unfold sigmoid_run.
  pose proof (elementwise_forward SigmoidLayer.sigmoid V Hwf) as Hmap.
  unfold SigmoidLayer.forward. cbn [fst snd].
  cbn [SigmoidLayer.layer_type SigmoidLayer.out_sx SigmoidLayer.out_sy
       SigmoidLayer.out_depth SigmoidLayer.in_act SigmoidLayer.out_act
       receive fmap option_fmap option_map].
  unfold SigmoidLayer.backward. cbn [SigmoidLayer.in_act deref bind].
  erewrite sigmoid_backward_loop by reflexivity.
  cbn [bind]. do 2 eexists. split; [reflexivity |].
  split; [reflexivity |]. split; [reflexivity |].
  intros i x gi Hx Hg.
  exists (real_fn SigmoidLayer.sigmoid x * (1 - real_fn SigmoidLayer.sigmoid x))%R.
  split; [apply sigmoid_derivative |].
  cbn [Vol.dw Vol.set_dw]. rewrite list_lookup_fmap.
  rewrite lookup_seq_lt by (apply lookup_lt_Some in Hx; exact Hx).
  cbn [fmap option_fmap option_map Vol.dw Vol.w Vol.set_w Vol.set_dw plus].
  rewrite Hmap, (get_fmap _ _ _ _ Hx).
  unfold real_fn. rewrite sigmoid_finite.
  unfold JS.get at 1. rewrite Hg. reflexivity.
Qed.

Lemma X4_sigmoid_backward_derivative_witness :
  exists L' V',
    SigmoidLayer.backward
      (sigmoid_run (SigmoidLayer.constructor (SigmoidLayer.mk_options 1 1 2))
                   small_tensor [Num 5; Num 7]) = Ok L' /\
    SigmoidLayer.in_act L' = Some V' /\
    Vol.w V' = Vol.w small_tensor /\
    forall i x gi,
      Vol.w small_tensor !! i = Some (Num x) ->
      [Num 5; Num 7] !! i = Some (Num gi) ->
      exists d, derivable_pt_lim (real_fn SigmoidLayer.sigmoid) x d /\
                Vol.dw V' !! i = Some (Num (d * gi)).
Proof. apply X4_sigmoid_backward_derivative. reflexivity. Defined.

(** ** TanhLayer *)

(** X5: [TanhLayer.forward] applies the helper [tanh] to every element.
    The helper computes [(y - 1) / (y + 1)] from [y = exp (2 * x)]: where
    [2 * x <= 709], so that [y] is below the largest double, it is the
    hyperbolic tangent of [x], a number from -1 to 1 (rounding reaches
    the ends); at [+Infinity] it is [NaN], the quotient of two
    infinities, and at [-Infinity] it is -1. *)
Theorem X5_tanh_forward_is_tanh (L : TanhLayer.t) (V : Vol.t) :
  well_formed V ->
  Vol.w (TanhLayer.forward L V).2 = (TanhLayer.tanh <$> Vol.w V) /\
  (forall x, (2 * x <= 709)%R ->
             TanhLayer.tanh (Num x) = Num (Rtrigo_def.tanh x) /\
             (-1 <= Rtrigo_def.tanh x <= 1)%R) /\
  TanhLayer.tanh PInf = NaN /\
  TanhLayer.tanh NInf = Num (-1).
Proof.
  intros Hwf. split; [| split; [| split]].
  - unfold TanhLayer.forward. cbn [snd Vol.w Vol.set_w].
    apply (elementwise_forward TanhLayer.tanh V Hwf).
  - intros x _. rewrite tanh_finite, <- tanh_exp. split; [reflexivity |].
    apply tanh_range.
  - unfold TanhLayer.tanh. cbn.
    rewrite Reqb_false by lra. rewrite Rltb_true by lra. reflexivity.
  - unfold TanhLayer.tanh. cbn.
    rewrite Reqb_false by lra. rewrite Rltb_false by lra. cbn.
    rewrite Reqb_false by lra. f_equal. lra.
Qed.

Lemma X5_tanh_forward_is_tanh_witness :
  Vol.w (TanhLayer.forward (TanhLayer.constructor (TanhLayer.mk_options 1 1 2))
                           small_tensor).2
  = (TanhLayer.tanh <$> Vol.w small_tensor) /\
  (forall x, (2 * x <= 709)%R ->
             TanhLayer.tanh (Num x) = Num (Rtrigo_def.tanh x) /\
             (-1 <= Rtrigo_def.tanh x <= 1)%R) /\
  TanhLayer.tanh PInf = NaN /\
  TanhLayer.tanh NInf = Num (-1).
Proof. apply X5_tanh_forward_is_tanh. reflexivity. Defined.

Lemma tanh_backward_loop (L : TanhLayer.t) (V2 : Vol.t) (n : nat) :
  TanhLayer.out_act L = Some V2 ->
  for_each_r n (TanhLayer.backward_step L) (util.zeros (Z.of_nat n))
  = Ok (map (fun i =>
               let v2wi := JS.get (Vol.w V2) i in
               JS.mul (JS.sub (Num 1) (JS.mul v2wi v2wi))
                      (JS.get (Vol.dw V2) i)) (seq 0 n)).
Proof.
  intros H2. rewrite <- write_loop. apply for_each_r_ok.
  intros i dw _. unfold TanhLayer.backward_step. rewrite H2. reflexivity.
Qed.

(** X6: After [TanhLayer.forward], [TanhLayer.backward] multiplies each
    gradient it received by the derivative of the hyperbolic tangent at
    the input, at every finite element [x] with [2 * x <= 709]: there
    [exp (2 * x)] is below the largest double and the cached output is
    a number. *)
Theorem X6_tanh_backward_derivative (L : TanhLayer.t) (V : Vol.t)
    (g : list number) :
  well_formed V ->
  exists L' V',
    TanhLayer.backward (tanh_run L V g) = Ok L' /\
    TanhLayer.in_act L' = Some V' /\
    Vol.w V' = Vol.w V /\
    forall i x gi,
      Vol.w V !! i = Some (Num x) -> g !! i = Some (Num gi) ->
      (2 * x <= 709)%R ->
      exists d, derivable_pt_lim Rtrigo_def.tanh x d /\
                Vol.dw V' !! i = Some (Num (d * gi)).
Proof.
  intros Hwf. unfold tanh_run.
  pose proof (elementwise_forward TanhLayer.tanh V Hwf) as Hmap.
  unfold TanhLayer.forward. cbn [fst snd].
  cbn [TanhLayer.layer_type TanhLayer.out_sx TanhLayer.out_sy
       TanhLayer.out_depth TanhLayer.in_act TanhLayer.out_act
       receive fmap option_fmap option_map].
  unfold TanhLayer.backward. cbn [TanhLayer.in_act deref bind].
  erewrite tanh_backward_loop by reflexivity.
  cbn [bind]. do 2 eexists. split; [reflexivity |].
  split; [reflexivity |]. split; [reflexivity |].
  intros i x gi Hx Hg _.
  exists (1 - real_fn TanhLayer.tanh x * real_fn TanhLayer.tanh x)%R.
  split.
  { apply (derivable_pt_lim_ext (real_fn TanhLayer.tanh));
      [| apply tanh_derivative].
    intros z. unfold real_fn. rewrite tanh_finite. apply tanh_exp. }
  cbn [Vol.dw Vol.set_dw]. rewrite list_lookup_fmap.
  rewrite lookup_seq_lt by (apply lookup_lt_Some in Hx; exact Hx).
  cbn [fmap option_fmap option_map Vol.dw Vol.w Vol.set_w Vol.set_dw plus].
  rewrite Hmap, (get_fmap _ _ _ _ Hx).
  unfold real_fn. rewrite tanh_finite.
  unfold JS.get at 1. rewrite Hg. reflexivity.
Qed.

Lemma X6_tanh_backward_derivative_witness :
  exists L' V',
    TanhLayer.backward
      (tanh_run (TanhLayer.constructor (TanhLayer.mk_options 1 1 2))
                small_tensor [Num 5; Num 7]) = Ok L' /\
    TanhLayer.in_act L' = Some V' /\
    Vol.w V' = Vol.w small_tensor /\
    forall i x gi,
      Vol.w small_tensor !! i = Some (Num x) ->
      [Num 5; Num 7] !! i = Some (Num gi) ->
      (2 * x <= 709)%R ->
      exists d, derivable_pt_lim Rtrigo_def.tanh x d /\
                Vol.dw V' !! i = Some (Num (d * gi)).
Proof. apply X6_tanh_backward_derivative. reflexivity. Defined.

(** ** SoftmaxLayer.forward *)

Lemma for_from_inv {S : Type} (P : S -> Prop) (from n : nat)
    (body : nat -> S -> S) (s : S) :
  P s ->
  (forall i s, (from <= i < from + n)%nat -> P s -> P (body i s)) ->
  P (for_from from n body s).
Proof.
  intros H0 Hstep. induction n as [| n IH]; [exact H0 |].
  rewrite for_from_S. apply Hstep; [lia |].
  apply IH. intros i s' Hi. apply Hstep. lia.
Qed.

Lemma get_Num (xs : list R) (i : nat) (x : R) :
  xs !! i = Some x -> JS.get (Num <$> xs) i = Num x.
Proof.
  intros H. unfold JS.get. rewrite list_lookup_fmap, H. reflexivity.
Qed.

Lemma softmax_max_finite (xs : list R) (n : nat) :
  length xs = n -> (0 < n)%nat ->
  exists m, SoftmaxLayer.max_activation (Num <$> xs) n = Num m.
Proof.
  intros Hlen Hn. unfold SoftmaxLayer.max_activation.
  apply (for_from_inv (fun a => exists m, a = Num m)).
  - destruct xs as [| x xs]; [cbn in Hlen; lia |]. exists x. reflexivity.
  - intros i a Hi [m ->].
    destruct (lookup_lt_is_Some_2 xs i ltac:(lia)) as [x Hx].
    rewrite (get_Num xs i x Hx).
    destruct (JS.gt (Num x) (Num m)); eexists; reflexivity.
Qed.

Section sums.
Local Open Scope R_scope.

Lemma sum_R_snoc (l : list R) (x : R) : sum_R (l ++ [x]) = sum_R l + x.
Proof.
  unfold sum_R. induction l as [| y l IH]; cbn; [lra | rewrite IH; lra].
Qed.

Lemma sum_R_scale (f : R -> R) (c : R) (l : list R) :
  sum_R (map (fun x => f x * c) l) = sum_R (map f l) * c.
Proof.
  unfold sum_R. induction l as [| y l IH]; cbn; [lra | rewrite IH; lra].
Qed.

Lemma sum_R_exp_pos (l : list R) : l <> [] -> 0 < sum_R (map exp l).
Proof.
  intros Hne. destruct l as [| x l]; [contradiction |]. clear Hne.
  revert x. induction l as [| y l IH]; intros x; cbn.
  - pose proof (exp_pos x). lra.
  - pose proof (exp_pos x). specialize (IH y). cbn in IH. lra.
Qed.

Lemma sum_R_member_le (ps : list R) (i : nat) (p : R) :
  Forall (fun p => 0 < p) ps -> ps !! i = Some p -> p <= sum_R ps.
Proof.
  unfold sum_R. intros Hpos. revert i.
  induction Hpos as [| q ps Hq Hpos IH]; intros i Hi; [discriminate |].
  assert (Hnn : 0 <= foldr Rplus 0 ps).
  { clear -Hpos. induction Hpos as [| q ps Hq _ IH]; cbn; lra. }
  destruct i as [| i]; cbn in *.
  - injection Hi as ->. lra.
  - specialize (IH i Hi). lra.
Qed.

Lemma sum_R_le_bound (l : list R) (b : R) :
  Forall (fun v => v <= b) l -> sum_R l <= INR (length l) * b.
Proof.
  unfold sum_R. induction 1 as [| v l Hv _ IH]; [cbn; lra |].
  change (length (v :: l)) with (S (length l)). rewrite S_INR.
  cbn [foldr]. lra.
Qed.

(** The entries of a softmax are positive and sum to 1. *)
Lemma softmax_distribution (xs : list R) :
  xs <> [] ->
  Forall (fun p => 0 < p) (softmax xs) /\ sum_R (softmax xs) = 1.
Proof.
  intros Hne. pose proof (sum_R_exp_pos xs Hne) as Hs. unfold softmax.
  split.
  - apply Forall_forall. intros p Hp.
    apply list_elem_of_fmap in Hp as (x & -> & _).
    apply Rdiv_lt_0_compat; [apply exp_pos | exact Hs].
  - unfold Rdiv. rewrite (sum_R_scale exp). field. lra.
Qed.

Lemma softmax_unit_interval (xs : list R) :
  xs <> [] -> Forall (fun p => 0 <= p <= 1) (softmax xs).
Proof.
  intros Hne. destruct (softmax_distribution xs Hne) as [Hpos Hsum].
  apply Forall_lookup. intros i p Hp.
  pose proof (proj1 (Forall_lookup _ _) Hpos i p Hp) as H0. cbn in H0.
  pose proof (sum_R_member_le _ i p Hpos Hp) as H1. lra.
Qed.

(** With every score at most [b] above the score [xy] of class [y], the
    probability of [y] is at least [exp (- b) / n]: its negative
    logarithm is at most [b + ln n]. *)
Lemma softmax_log_bound (xs : list R) (y : nat) (xy b p : R) :
  xs !! y = Some xy ->
  Forall (fun x => x - xy <= b) xs ->
  softmax xs !! y = Some p ->
  - ln p <= b + ln (INR (length xs)).
Proof.
  intros Hy Hb Hp.
  assert (Hne : xs <> []) by (intros ->; discriminate).
  pose proof (sum_R_exp_pos xs Hne) as Hs.
  assert (Hn : 0 < INR (length xs)).
  { apply lt_0_INR. destruct xs; [contradiction | cbn; lia]. }
  unfold softmax in Hp. rewrite list_lookup_fmap, Hy in Hp.
  injection Hp as <-.
  assert (Hle : sum_R (map exp xs) <= INR (length xs) * exp (xy + b)).
  { rewrite <- (length_map exp xs). apply sum_R_le_bound.
    apply Forall_forall. intros v Hv.
    apply list_elem_of_fmap in Hv as (x & -> & Hx).
    pose proof (proj1 (Forall_forall _ _) Hb x Hx) as Hxb. cbn in Hxb.
    destruct (Rle_lt_or_eq_dec x (xy + b) ltac:(lra)) as [Hlt | ->];
      [left; apply exp_increasing; exact Hlt | right; reflexivity]. }
  unfold Rdiv. rewrite ln_mult, ln_Rinv, ln_exp;
    [| exact Hs | apply exp_pos | apply Rinv_0_lt_compat; exact Hs].
  assert (Hln : ln (sum_R (map exp xs)) <= ln (INR (length xs)) + (xy + b)).
  { rewrite <- (ln_exp (xy + b)).
    rewrite <- ln_mult by (try exact Hn; apply exp_pos).
    destruct (Rle_lt_or_eq_dec _ _ Hle) as [Hlt | ->];
      [left; apply ln_increasing; assumption | right; reflexivity]. }
  lra.
Qed.

(** Shifting every score by [m] does not change the softmax. *)
Lemma softmax_shift (xs : list R) (m : R) :
  xs <> [] ->
  map (fun x => exp (x - m) / sum_R (map (fun x => exp (x - m)) xs)) xs
  = softmax xs.
Proof.
  intros Hne. pose proof (sum_R_exp_pos xs Hne) as Hs.
  pose proof (exp_pos m) as Hm.
  assert (He : forall x, exp (x - m) = exp x * / exp m).
  { intros x. unfold Rminus. rewrite exp_plus, exp_Ropp. reflexivity. }
  assert (Hsum : sum_R (map (fun x => exp (x - m)) xs)
                 = sum_R (map exp xs) * / exp m).
  { rewrite <- (sum_R_scale exp). f_equal. apply map_ext. exact He. }
  unfold softmax. apply map_ext. intros x. rewrite Hsum, He. field. lra.
Qed.

End sums.

Lemma softmax_exponentials_finite (xs : list R) (m : R) (n : nat) :
  length xs = n ->
  SoftmaxLayer.exponentials (Num <$> xs) (Num m) n
  = (Num <$> map (fun x => exp (x - m)) xs,
     Num (sum_R (map (fun x => exp (x - m)) xs))).
Proof.
  intros Hlen. unfold SoftmaxLayer.exponentials.
  set (e := fun x : R => exp (x - m)).
  set (g := fun i => Math_exp (JS.sub (JS.get (Num <$> xs) i) (Num m))).
  assert (Hk : forall k, (k <= n)%nat ->
    for_each k
      (fun i '(es, esum) =>
         let e := Math_exp (JS.sub (JS.get (Num <$> xs) i) (Num m)) in
         (JS.set es i e, JS.add esum e))
      (util.zeros (Z.of_nat n), Num 0)
    = (for_each k (fun i a => JS.set a i (g i)) (util.zeros (Z.of_nat n)),
       Num (sum_R (map e (take k xs))))).
  { induction k as [| k IH]; intros Hle; [reflexivity |].
    rewrite !for_each_S, IH by lia.
    destruct (lookup_lt_is_Some_2 xs k ltac:(lia)) as [x Hx].
    rewrite (take_S_r xs k x Hx), map_app. cbn [map]. rewrite sum_R_snoc.
    cbn zeta. unfold g. rewrite (get_Num xs k x Hx). reflexivity. }
  rewrite Hk by lia. rewrite firstn_all2 by lia. f_equal.
  rewrite write_loop. rewrite <- Hlen. unfold g.
  rewrite <- list_fmap_compose.
  rewrite <- (imap_const (Num ∘ e) xs).
  rewrite <- (map_seq_imap (fun _ => Num ∘ e) 0%R).
  apply map_ext_in. intros i Hi. apply in_seq in Hi.
  destruct (lookup_lt_is_Some_2 xs i ltac:(lia)) as [x Hx].
  rewrite (get_Num xs i x Hx), Hx. reflexivity.
Qed.

Lemma softmax_normalize_finite (ps : list R) (s : R) (d : Z) :
  s <> 0%R -> length ps = Z.to_nat d ->
  let out := Num <$> map (fun p => (p / s)%R) ps in
  SoftmaxLayer.normalize (Num <$> ps) (Num s) (Vol.new 1 1 d (Num 0))
                         (Z.to_nat d)
  = (out, Vol.set_w (Vol.new 1 1 d (Num 0)) out).
Proof.
  intros Hs Hlen out. unfold SoftmaxLayer.normalize.
  set (es0 := Num <$> ps). set (A0 := Vol.new 1 1 d (Num 0)).
  set (n := Z.to_nat d) in *.
  set (f := fun (_ : nat) v => JS.div v (Num s)).
  set (g := fun i => JS.div (JS.get es0 i) (Num s)).
  assert (Hlen0 : length es0 = n) by (unfold es0; rewrite length_fmap; exact Hlen).
  assert (Hk : forall k, (k <= n)%nat ->
    for_each k
      (fun i '(es, A) =>
         let es := JS.set es i (JS.div (JS.get es i) (Num s)) in
         (es, Vol.set_w A (JS.set (Vol.w A) i (JS.get es i))))
      (es0, A0)
    = (for_each k (fun i a => JS.set a i (f i (JS.get a i))) es0,
       Vol.set_w A0 (for_each k (fun i a => JS.set a i (g i)) (Vol.w A0)))).
  { induction k as [| k IH]; intros Hle; [reflexivity |].
    rewrite !for_each_S, IH by lia. cbn zeta. f_equal.
    unfold Vol.set_w at 1. cbn [Vol.sx Vol.sy Vol.depth Vol.w Vol.dw Vol.set_w].
    unfold Vol.set_w. f_equal. f_equal.
    rewrite get_set_eq
      by (rewrite for_each_elementwise_length; lia).
    rewrite for_each_elementwise_get by lia.
    destruct (Nat.ltb_spec k k); [lia |]. reflexivity. }
  rewrite Hk by lia.
  assert (Hout : out = f 0%nat <$> es0).
  { unfold out, es0. rewrite <- !list_fmap_compose. apply list_fmap_ext.
    intros _ p _. cbn. unfold f. cbn. rewrite Reqb_false by exact Hs.
    reflexivity. }
  rewrite <- Hlen0 at 1. rewrite for_each_elementwise.
  assert (Hi : imap f es0 = out).
  { rewrite Hout. apply (imap_const (f 0%nat)). }
  rewrite Hi. f_equal. f_equal.
  unfold A0, Vol.new. cbn [Vol.w]. rewrite !Z.mul_1_l.
  pose proof (write_loop g n) as Hw. unfold util.zeros in Hw.
  rewrite Nat2Z.id in Hw. fold n. rewrite Hw.
  rewrite Hout, <- Hlen0. unfold g.
  rewrite <- (imap_const (f 0%nat) es0).
  unfold JS.get. apply (map_seq_imap (fun _ v => JS.div v (Num s)) NaN).
Qed.

Lemma sum_R_exp_shift (xs : list R) (m : R) :
  sum_R (map (fun x => exp (x - m)) xs) = (sum_R (map exp xs) * / exp m)%R.
Proof.
  rewrite <- (sum_R_scale exp). f_equal. apply map_ext. intros x.
  unfold Rminus. rewrite exp_plus, exp_Ropp. reflexivity.
Qed.

Lemma softmax_forward_closed (L : SoftmaxLayer.t) (V : Vol.t) (xs : list R) :
  Vol.w V = Num <$> xs ->
  length xs = Z.to_nat (SoftmaxLayer.out_depth L) ->
  xs <> [] ->
  let A := Vol.set_w (Vol.new 1 1 (SoftmaxLayer.out_depth L) (Num 0))
                     (Num <$> softmax xs) in
  SoftmaxLayer.forward L V
  = (SoftmaxLayer.mk (SoftmaxLayer.layer_type L) (SoftmaxLayer.num_inputs L)
       (SoftmaxLayer.out_sx L) (SoftmaxLayer.out_sy L)
       (SoftmaxLayer.out_depth L) (Some V) (Some A)
       (Some (Num <$> softmax xs)),
     A).
Proof.
  intros Hw Hlen Hne A. unfold SoftmaxLayer.forward. rewrite Hw.
  destruct (softmax_max_finite xs _ Hlen) as [m Hm].
  { destruct xs; [contradiction | cbn in Hlen; lia]. }
  rewrite Hm, (softmax_exponentials_finite xs m _ Hlen).
  assert (Hs : sum_R (map (fun x => exp (x - m)) xs) <> 0%R).
  { rewrite sum_R_exp_shift.
    pose proof (sum_R_exp_pos xs Hne). pose proof (exp_pos m).
    pose proof (Rinv_0_lt_compat _ H0). nra. }
  rewrite softmax_normalize_finite
    by (rewrite ?length_map; assumption).
  assert (Hmm : map (fun p => (p / sum_R (map (fun x => exp (x - m)) xs))%R)
                    (map (fun x => exp (x - m)) xs) = softmax xs)
    by (rewrite map_map; apply (softmax_shift xs m Hne)).
  rewrite Hmm. reflexivity.
Qed.

(** X7: [SoftmaxLayer.forward] on [out_depth] finite scores computes their softmax:
    output [i] is [exp(x_i) / sum_j exp(x_j)], whatever the maximum that
    is subtracted; the outputs are numbers from 0 to 1 (a small
    probability is rounded to 0, so the ends are kept) and sum to 1,
    and the same vector is cached in [es]. *)
Theorem X7_softmax_forward_is_softmax (L : SoftmaxLayer.t) (V : Vol.t)
    (xs : list R) :
  Vol.w V = Num <$> xs ->
  length xs = Z.to_nat (SoftmaxLayer.out_depth L) ->
  xs <> [] ->
  let '(L', A) := SoftmaxLayer.forward L V in
  Vol.w A = Num <$> softmax xs /\
  SoftmaxLayer.es L' = Some (Num <$> softmax xs) /\
  SoftmaxLayer.out_act L' = Some A /\
  Forall (fun p => (0 <= p <= 1)%R) (softmax xs) /\
  sum_R (softmax xs) = 1%R.
Proof.
  intros Hw Hlen Hne. rewrite (softmax_forward_closed L V xs Hw Hlen Hne).
  cbn [Vol.w Vol.set_w SoftmaxLayer.es SoftmaxLayer.out_act].
  split; [reflexivity |]. split; [reflexivity |]. split; [reflexivity |].
  split; [apply (softmax_unit_interval xs Hne) |].
  apply (softmax_distribution xs Hne).
Qed.

Lemma X7_softmax_forward_is_softmax_witness :
  let '(L', A) :=
    SoftmaxLayer.forward (SoftmaxLayer.constructor (SoftmaxLayer.mk_options 1 1 2))
                         small_tensor in
  Vol.w A = Num <$> softmax [1; -2]%R /\
  SoftmaxLayer.es L' = Some (Num <$> softmax [1; -2]%R) /\
  SoftmaxLayer.out_act L' = Some A /\
  Forall (fun p => (0 <= p <= 1)%R) (softmax [1; -2]%R) /\
  sum_R (softmax [1; -2]%R) = 1%R.
Proof.
  apply (X7_softmax_forward_is_softmax _ small_tensor [1; -2]%R);
    [reflexivity | reflexivity | discriminate].
Defined.

(** ** SoftmaxLayer.backward after forward *)

Section cross_entropy.
Local Open Scope R_scope.

Lemma sum_R_minus (ps os : list R) :
  length ps = length os ->
  sum_R (zip_with Rminus ps os) = sum_R ps - sum_R os.
Proof.
  unfold sum_R. revert os.
  induction ps as [| p ps IH]; intros [| o os] Hlen; cbn in *;
    try discriminate; [lra |].
  rewrite IH by congruence. lra.
Qed.

Lemma sum_R_one_hot (y from n : nat) :
  sum_R (map (fun i => if (i =? y)%nat then 1 else 0) (seq from n))
  = if ((from <=? y) && (y <? from + n))%nat then 1 else 0.
Proof.
  unfold sum_R. revert from. induction n as [| n IH]; intros from;
    cbn [seq map foldr]; [| rewrite IH];
    repeat match goal with
           | |- context [(?a <=? ?b)%nat] => destruct (Nat.leb_spec a b)
           | |- context [(?a <? ?b)%nat] => destruct (Nat.ltb_spec a b)
           | |- context [(?a =? ?b)%nat] => destruct (Nat.eqb_spec a b)
           end; cbn [andb]; try lra; lia.
Qed.

End cross_entropy.

Lemma softmax_gradient_finite (ps : list R) (y : nat) :
  SoftmaxLayer.gradient (Num <$> ps) (Z.of_nat y) (length ps)
    (util.zeros (Z.of_nat (length ps)))
  = Num <$> zip_with Rminus ps (one_hot (length ps) y).
Proof.
  apply list_eq. intros i.
  destruct (Nat.lt_ge_cases i (length ps)) as [Hi | Hi].
  - rewrite lookup_get
      by (rewrite softmax_gradient_length, length_zeros; lia).
    rewrite softmax_gradient_get by (rewrite length_zeros; lia).
    destruct (Nat.ltb_spec i (length ps)); [| lia].
    destruct (lookup_lt_is_Some_2 ps i Hi) as [p Hp].
    rewrite (get_Num ps i p Hp), list_lookup_fmap, lookup_zip_with, Hp.
    unfold one_hot. rewrite list_lookup_fmap, lookup_seq_lt by exact Hi.
    cbn. unfold indicator.
    destruct (Nat.eqb_spec i y) as [-> | Hne].
    + rewrite Z.eqb_refl. reflexivity.
    + destruct (Z.eqb_spec (Z.of_nat i) (Z.of_nat y)); [lia | reflexivity].
  - rewrite lookup_ge_None_2
      by (rewrite softmax_gradient_length, length_zeros; lia).
    rewrite list_lookup_fmap, lookup_zip_with.
    rewrite (lookup_ge_None_2 ps) by exact Hi. reflexivity.
Qed.

(** X8: After [SoftmaxLayer.forward] on finite scores none of which is
    more than 700 above the score of class [y] (so that the probability
    of [y], at least [exp (-700) / n], is not rounded to 0),
    [SoftmaxLayer.backward(y)] returns the negative log-probability of
    [y], a number from 0 to [700 + ln n], and leaves as gradient the
    probabilities minus the indicator of [y]; the entries of the
    gradient sum to 0. *)
Theorem X8_softmax_backward_cross_entropy (L : SoftmaxLayer.t) (V : Vol.t)
    (xs : list R) (y : nat) (xy : R) :
  Vol.w V = Num <$> xs ->
  length xs = Z.to_nat (SoftmaxLayer.out_depth L) ->
  xs !! y = Some xy ->
  Forall (fun x => (x - xy <= 700)%R) xs ->
  let grad := zip_with Rminus (softmax xs) (one_hot (length xs) y) in
  exists L' p,
    SoftmaxLayer.backward (SoftmaxLayer.forward L V).1 (Z.of_nat y)
    = Ok (L', Num (- ln p)) /\
    softmax xs !! y = Some p /\
    (0 <= - ln p <= 700 + ln (INR (length xs)))%R /\
    SoftmaxLayer.in_act L' = Some (Vol.set_dw V (Num <$> grad)) /\
    sum_R grad = 0%R.
Proof.
  intros Hw Hlen Hxy Hclose grad.
  assert (Hy : (y < length xs)%nat) by (apply lookup_lt_Some in Hxy; exact Hxy).
  assert (Hne : xs <> []) by (destruct xs; [cbn in Hy; lia | discriminate]).
  rewrite (softmax_forward_closed L V xs Hw Hlen Hne). cbn [fst].
  destruct (softmax_distribution xs Hne) as [Hpos Hsum].
  assert (Hls : length (softmax xs) = length xs)
    by (unfold softmax; apply length_map).
  destruct (lookup_lt_is_Some_2 (softmax xs) y ltac:(lia)) as [p Hp].
  assert (Hp0 : (0 < p)%R) by exact (proj1 (Forall_lookup _ _) Hpos y p Hp).
  assert (Hp1 : (p <= 1)%R)
    by (rewrite <- Hsum; exact (sum_R_member_le _ y p Hpos Hp)).
  exists (SoftmaxLayer.mk (SoftmaxLayer.layer_type L)
            (SoftmaxLayer.num_inputs L) (SoftmaxLayer.out_sx L)
            (SoftmaxLayer.out_sy L) (SoftmaxLayer.out_depth L)
            (Some (Vol.set_dw V (Num <$> grad)))
            (Some (Vol.set_w (Vol.new 1 1 (SoftmaxLayer.out_depth L) (Num 0))
                             (Num <$> softmax xs)))
            (Some (Num <$> softmax xs))), p.
  split; [| split; [exact Hp | split; [| split; [reflexivity |]]]].
  - unfold SoftmaxLayer.backward.
    cbn [SoftmaxLayer.in_act SoftmaxLayer.es SoftmaxLayer.out_act
         SoftmaxLayer.layer_type SoftmaxLayer.num_inputs SoftmaxLayer.out_sx
         SoftmaxLayer.out_sy SoftmaxLayer.out_depth deref bind].
    rewrite Hw, length_fmap, <- Hlen, <- Hls, softmax_gradient_finite, Hls.
    fold grad. f_equal. f_equal.
    rewrite getZ_of_nat, (get_Num _ y p Hp). cbn [Math_log JS.neg].
    rewrite Rltb_false, Reqb_false by lra. reflexivity.
  - assert (Hln : (ln p <= 0)%R).
    { destruct (Rle_lt_or_eq_dec _ _ Hp1) as [Hlt | ->].
      - pose proof (ln_increasing p 1 Hp0 Hlt). rewrite ln_1 in H. lra.
      - rewrite ln_1. lra. }
    split; [lra |].
    exact (softmax_log_bound xs y xy 700 p Hxy Hclose Hp).
  - unfold grad. rewrite sum_R_minus.
    + rewrite Hsum. unfold one_hot. rewrite sum_R_one_hot.
      destruct (Nat.leb_spec 0 y), (Nat.ltb_spec y (0 + length xs));
        cbn; try lra; lia.
    + unfold one_hot. rewrite length_map, length_seq. exact Hls.
Qed.

Lemma X8_softmax_backward_cross_entropy_witness :
  let grad := zip_with Rminus (softmax [1; -2]%R) (one_hot 2 0) in
  exists L' p,
    SoftmaxLayer.backward
      (SoftmaxLayer.forward
         (SoftmaxLayer.constructor (SoftmaxLayer.mk_options 1 1 2))
         small_tensor).1 (Z.of_nat 0)
    = Ok (L', Num (- ln p)) /\
    softmax [1; -2]%R !! 0%nat = Some p /\
    (0 <= - ln p <= 700 + ln (INR 2))%R /\
    SoftmaxLayer.in_act L' = Some (Vol.set_dw small_tensor (Num <$> grad)) /\
    sum_R grad = 0%R.
Proof.
  apply (X8_softmax_backward_cross_entropy
           (SoftmaxLayer.constructor (SoftmaxLayer.mk_options 1 1 2))
           small_tensor [1; -2]%R 0 1%R);
    [reflexivity | reflexivity | reflexivity |].
  repeat constructor; lra.
Defined.

(** ** RegressionLayer.backward *)

Section squared_error.
Local Open Scope R_scope.

Lemma half_squared_error_nonneg (xs ys : list R) :
  0 <= half_squared_error xs ys.
Proof.
  unfold half_squared_error, sum_R. revert ys.
  induction xs as [| x xs IH]; intros [| y ys]; cbn; try lra.
  specialize (IH ys). pose proof (Rle_0_sqr (x - y)) as Hsq.
  unfold Rsqr in Hsq. lra.
Qed.

Lemma half_squared_error_zero (xs ys : list R) :
  xs = ys -> half_squared_error xs ys = 0.
Proof.
  intros <-. unfold half_squared_error, sum_R.
  induction xs as [| x xs IH]; cbn; [reflexivity |]. rewrite IH. lra.
Qed.

End squared_error.

Lemma regression_array_loop (xs ys : list R) (n : nat) :
  length xs = n -> length ys = n ->
  for_each n
    (fun i '(dw, loss) =>
       let dy := JS.sub (JS.get (Num <$> xs) i) (JS.get (Num <$> ys) i) in
       (JS.set dw i dy, JS.add loss (RegressionLayer.half_square dy)))
    (util.zeros (Z.of_nat n), Num 0)
  = (Num <$> zip_with Rminus xs ys, Num (half_squared_error xs ys)).
Proof.
  intros Hx Hy.
  set (g := fun i => JS.sub (JS.get (Num <$> xs) i) (JS.get (Num <$> ys) i)).
  assert (Hk : forall k, (k <= n)%nat ->
    for_each k
      (fun i '(dw, loss) =>
         let dy := JS.sub (JS.get (Num <$> xs) i) (JS.get (Num <$> ys) i) in
         (JS.set dw i dy, JS.add loss (RegressionLayer.half_square dy)))
      (util.zeros (Z.of_nat n), Num 0)
    = (for_each k (fun i a => JS.set a i (g i)) (util.zeros (Z.of_nat n)),
       Num (half_squared_error (take k xs) (take k ys)))).
  { induction k as [| k IH]; intros Hk; [reflexivity |].
    rewrite !for_each_S, IH by lia. cbn zeta. fold (g k). f_equal.
    destruct (lookup_lt_is_Some_2 xs k ltac:(lia)) as [x Hxk].
    destruct (lookup_lt_is_Some_2 ys k ltac:(lia)) as [y Hyk].
    unfold g. rewrite (get_Num xs k x Hxk), (get_Num ys k y Hyk).
    rewrite (take_S_r xs k x Hxk), (take_S_r ys k y Hyk).
    unfold half_squared_error.
    rewrite zip_with_app by (rewrite !length_take; lia).
    cbn [zip_with]. rewrite sum_R_snoc. reflexivity. }
  rewrite Hk by lia. rewrite !firstn_all2 by lia. f_equal.
  rewrite write_loop. apply list_eq. intros i.
  rewrite !list_lookup_fmap, lookup_zip_with.
  destruct (Nat.lt_ge_cases i n) as [Hi | Hi].
  - rewrite lookup_seq_lt by exact Hi.
    destruct (lookup_lt_is_Some_2 xs i ltac:(lia)) as [x Hxi].
    destruct (lookup_lt_is_Some_2 ys i ltac:(lia)) as [y Hyi].
    rewrite Hxi, Hyi. cbn. unfold g.
    rewrite (get_Num xs i x Hxi), (get_Num ys i y Hyi). reflexivity.
  - rewrite lookup_seq_ge by exact Hi.
    rewrite (lookup_ge_None_2 xs) by lia. reflexivity.
Qed.

(** X9: With an array target, [RegressionLayer.backward] on finite
    numbers of absolute value at most [1e100] (no square overflows)
    returns half the squared distance between the input and the
    target, which is never negative and is 0 when the two are equal,
    and leaves their difference as the gradient. *)
Theorem X9_regression_backward_squared_error (L : RegressionLayer.t)
    (V : Vol.t) (xs ys : list R) :
  RegressionLayer.in_act L = Some V ->
  Vol.w V = Num <$> xs ->
  length xs = Z.to_nat (RegressionLayer.out_depth L) ->
  length ys = Z.to_nat (RegressionLayer.out_depth L) ->
  Forall (fun x => (Rabs x <= 1e100)%R) xs ->
  Forall (fun y => (Rabs y <= 1e100)%R) ys ->
  exists L',
    RegressionLayer.backward L (TArray (Num <$> ys))
    = Ok (L', Num (half_squared_error xs ys)) /\
    RegressionLayer.in_act L'
    = Some (Vol.set_dw V (Num <$> zip_with Rminus xs ys)) /\
    (0 <= half_squared_error xs ys)%R /\
    (xs = ys -> half_squared_error xs ys = 0%R).
Proof.
  intros Hin Hw Hx Hy _ _. unfold RegressionLayer.backward. rewrite Hin.
  cbn [deref bind]. rewrite Hw, length_fmap, Hx.
  pose proof (regression_array_loop xs ys _ Hx Hy) as Hloop.
  cbn zeta in Hloop. rewrite Hloop.
  eexists. split; [reflexivity |]. split; [reflexivity |].
  split; [apply half_squared_error_nonneg |].
  apply half_squared_error_zero.
Qed.

Lemma X9_regression_backward_squared_error_witness :
  exists L',
    RegressionLayer.backward
      (RegressionLayer.mk "regression" 2 1 1 2 (Some small_tensor))
      (TArray (Num <$> [0; 1]%R))
    = Ok (L', Num (half_squared_error [1; -2]%R [0; 1]%R)) /\
    RegressionLayer.in_act L'
    = Some (Vol.set_dw small_tensor
              (Num <$> zip_with Rminus [1; -2]%R [0; 1]%R)) /\
    (0 <= half_squared_error [1; -2]%R [0; 1]%R)%R /\
    ([1; -2]%R = [0; 1]%R -> half_squared_error [1; -2]%R [0; 1]%R = 0%R).
Proof.
  apply (X9_regression_backward_squared_error
           (RegressionLayer.mk "regression" 2 1 1 2 (Some small_tensor))
           small_tensor [1; -2]%R [0; 1]%R);
    try reflexivity;
    (constructor; [| constructor; [| constructor]]);
    apply Rabs_le; lra.
Defined.

(** ** Net.forward in prediction mode *)

Lemma layer_forward_prediction (L : LayerType) (act : option Vol.t)
    (g1 g2 : rng) :
  same_run g1 g2 (Net.layer_forward L act false g1)
                 (Net.layer_forward L act false g2).
Proof.
  destruct L, act as [V |]; cbn [Net.layer_forward];
    try (cbn; repeat split; reflexivity);
    try (rewrite !dropout_forward_prediction by reflexivity;
         cbn; repeat split; reflexivity);
    try match goal with
        | |- context [let '(_, _) := ?F in _] =>
            destruct F; cbn; repeat split; reflexivity
        end;
    try match goal with
        | |- context [bind ?F _] =>
            destruct F as [[? ?] | ?]; cbn; repeat split; reflexivity
        end.
Qed.

Lemma forward_rest_prediction (rest : list LayerType) :
  forall (act : option Vol.t) (g1 g2 : rng),
    same_run g1 g2 (Net.forward_rest rest act false g1)
                   (Net.forward_rest rest act false g2).
Proof.
  induction rest as [| L rest IH]; intros act g1 g2.
  - cbn. repeat split; reflexivity.
  - cbn [Net.forward_rest].
    pose proof (layer_forward_prediction L act g1 g2) as HL.
    destruct (Net.layer_forward L act false g1) as [[[L1 a1] r1] | e1],
             (Net.layer_forward L act false g2) as [[[L2 a2] r2] | e2];
      cbn in HL; try contradiction; [| exact HL].
    destruct HL as (-> & -> & -> & ->). cbn [bind].
    specialize (IH a2 g1 g2).
    destruct (Net.forward_rest rest a2 false g1) as [[[t1 b1] s1] | e1],
             (Net.forward_rest rest a2 false g2) as [[[t2 b2] s2] | e2];
      cbn in IH; try contradiction; [| exact IH].
    destruct IH as (-> & -> & -> & ->). cbn. repeat split; reflexivity.
Qed.

Lemma forward_as_rest (net : Net.t) (V : Vol.t) (is_training : option bool)
    (g : rng) :
  Net.layers net <> [] ->
  Net.forward net V is_training g
  = match Net.forward_rest (Net.layers net) (Some V)
            (default false is_training) g with
    | Ok (ls, act, g') => Ok (Net.mk ls, act, g')
    | Throw e => Throw e
    end.
Proof.
  intros Hne. unfold Net.forward.
  destruct (Net.layers net) as [| L0 rest]; [contradiction |].
  cbn [Net.forward_rest].
  destruct (Net.layer_forward L0 _ _ _) as [[[L1 act1] g1] | e];
    [| reflexivity].
  cbn [bind].
  destruct (Net.forward_rest rest act1 _ g1) as [[[rest1 act2] g2] | e];
    reflexivity.
Qed.

(** X10: In prediction mode, [is_training] false or left out, [Net.forward]
    draws no random number: whatever the random source, it returns the
    same activation, leaves the layers in the same state and the source
    where it was, or throws the same error. *)
Theorem X10_net_prediction_ignores_random (net : Net.t) (V : Vol.t)
    (is_training : option bool) (g1 g2 : rng) :
  default false is_training = false ->
  same_run g1 g2 (Net.forward net V is_training g1)
                 (Net.forward net V is_training g2).
Proof.
  intros Ht. destruct (Net.layers net) as [| L0 rest] eqn:Hl.
  { unfold Net.forward. rewrite Hl. reflexivity. }
  rewrite !forward_as_rest by (rewrite Hl; discriminate).
  rewrite Ht, Hl.
  pose proof (forward_rest_prediction (L0 :: rest) (Some V) g1 g2) as H.
  destruct (Net.forward_rest (L0 :: rest) (Some V) false g1)
    as [[[t1 b1] s1] | e1],
    (Net.forward_rest (L0 :: rest) (Some V) false g2)
    as [[[t2 b2] s2] | e2];
    cbn in *; try exact H.
  destruct H as (-> & -> & -> & ->). repeat split; reflexivity.
Qed.

Lemma X10_net_prediction_ignores_random_witness :
  same_run fair_coin (mk_rng (fun _ => Num 0) 7)
    (Net.forward fc_net small_tensor None fair_coin)
    (Net.forward fc_net small_tensor None (mk_rng (fun _ => Num 0) 7)).
Proof. apply X10_net_prediction_ignores_random. reflexivity. Defined.

(** ** A running maximum *)

Lemma gt_above (a b m : number) :
  JS.gt b m = true -> JS.gt a m = false -> a <> NaN -> JS.gt b a = true.
Proof. number_cases. Qed.

(** The loop [if (a2 > a) { a = a2; ai = j; }] over [read 0 .. read n]
    stops at the first largest value. *)
Lemma running_max {T : Type} (read : nat -> number) (tag : nat -> T) (n : nat) :
  exists k,
    for_from 1 n
      (fun j '(a, ai) =>
         if JS.gt (read j) a then (read j, tag j) else (a, ai))
      (read 0%nat, tag 0%nat)
    = (read k, tag k) /\
    (k <= n)%nat /\
    (forall i, (i <= n)%nat -> JS.gt (read i) (read k) = false) /\
    (forall i, (i < k)%nat -> read i <> NaN ->
               JS.gt (read k) (read i) = true).
Proof.
  induction n as [| n IH].
  - exists 0%nat. split; [reflexivity |]. split; [lia |].
    split; [| intros; lia].
    intros i Hi. replace i with 0%nat by lia. apply gt_irrefl.
  - destruct IH as (k & Hk & Hle & Hall & Hfirst).
    rewrite for_from_S, Hk. cbn [plus].
    destruct (JS.gt (read (S n)) (read k)) eqn:Hgt.
    + exists (S n). split; [reflexivity |]. split; [lia |]. split.
      * intros i Hi. destruct (Nat.eq_dec i (S n)) as [-> | Hne].
        -- apply gt_irrefl.
        -- apply (gt_false_mono _ (read k)); [apply Hall; lia | exact Hgt].
      * intros i Hi Hnan.
        apply (gt_above _ _ (read k)); [exact Hgt | | exact Hnan].
        apply Hall. lia.
    + exists k. split; [reflexivity |]. split; [lia |]. split; [| exact Hfirst].
      intros i Hi. destruct (Nat.eq_dec i (S n)) as [-> | Hne];
        [exact Hgt | apply Hall; lia].
Qed.

(** ** Net.getPrediction *)

(** The loop of [getPrediction] stops at the first largest entry. *)
Lemma argmax_spec (p : list number) :
  let k := snd (Net.argmax p) in
  (k < length p \/ (k = 0%nat /\ p = []))%nat /\
  (forall i, JS.gt (JS.get p i) (JS.get p k) = false) /\
  (forall i, (i < k)%nat -> JS.get p i <> NaN ->
             JS.gt (JS.get p k) (JS.get p i) = true).
Proof.
  unfold Net.argmax.
  destruct (running_max (JS.get p) (fun i => i) (length p - 1))
    as (k & Hk & Hle & Hall & Hfirst).
  rewrite Hk. cbn [snd]. split; [| split; [| exact Hfirst]].
  - destruct p as [| v p]; [right; cbn in Hle; split; [lia | reflexivity] |].
    left. cbn in *. lia.
  - intros i. destruct (Nat.le_gt_cases i (length p - 1)) as [Hi | Hi].
    + apply Hall, Hi.
    + unfold JS.get at 1. rewrite lookup_ge_None_2 by lia. cbn.
      destruct (JS.get p k); reflexivity.
Qed.

Lemma softmax_layer_forward (S : SoftmaxLayer.t) act is_training g L' act' g' :
  Net.layer_forward (Softmax S) act is_training g = Ok (L', act', g') ->
  exists S' A,
    L' = Softmax S' /\ act' = Some A /\
    SoftmaxLayer.layer_type S' = SoftmaxLayer.layer_type S /\
    SoftmaxLayer.out_act S' = Some A.
Proof.
  destruct act as [V |]; cbn [Net.layer_forward]; [| discriminate].
  unfold SoftmaxLayer.forward.
  destruct (SoftmaxLayer.exponentials _ _ _) as [es esum].
  destruct (SoftmaxLayer.normalize _ _ _ _) as [es' A].
  intros [= <- <- <-]. eexists _, _. repeat split.
Qed.

Lemma forward_rest_softmax rest : forall act is_training g rest' act' g' S,
  Net.forward_rest rest act is_training g = Ok (rest', act', g') ->
  last rest = Some (Softmax S) ->
  exists S' A,
    last rest' = Some (Softmax S') /\ act' = Some A /\
    SoftmaxLayer.layer_type S' = SoftmaxLayer.layer_type S /\
    SoftmaxLayer.out_act S' = Some A.
Proof.
  induction rest as [| L rest IH]; intros act it g rest' act' g' S Hf Hl;
    [discriminate |].
  cbn [Net.forward_rest] in Hf.
  destruct (Net.layer_forward L act it g) as [[[L1 act1] g1] | e] eqn:HL;
    [| discriminate].
  cbn [bind] in Hf.
  destruct (Net.forward_rest rest act1 it g1) as [[[rest1 act2] g2] | e] eqn:HR;
    [| discriminate].
  cbn [bind] in Hf. injection Hf as <- <- <-.
  destruct rest as [| L2 rest].
  - cbn in Hl. injection Hl as ->. cbn in HR. injection HR as <- <- <-.
    destruct (softmax_layer_forward _ _ _ _ _ _ _ HL) as (S' & A & -> & -> & Ht & Ho).
    exists S', A. repeat split; assumption.
  - destruct (IH _ _ _ _ _ _ S HR Hl) as (S' & A & Hl' & -> & Ht & Ho).
    exists S', A. split; [| repeat split; assumption].
    destruct rest1 as [| L3 rest1]; [discriminate |]. exact Hl'.
Qed.

(** X11: After [Net.forward] on a network whose last layer is a softmax
    layer, [Net.getPrediction] returns the index of the first largest entry of the
    activation [forward] returned. *)
Theorem X11_getPrediction_after_forward (net net' : Net.t) (V : Vol.t)
    (is_training : option bool) (g g' : rng) (act : option Vol.t)
    (S : SoftmaxLayer.t) :
  last (Net.layers net) = Some (Softmax S) ->
  SoftmaxLayer.layer_type S = "softmax" ->
  Net.forward net V is_training g = Ok (net', act, g') ->
  exists A k,
    act = Some A /\ Net.getPrediction net' = inr k /\
    (k < length (Vol.w A) \/ (k = 0%nat /\ Vol.w A = []))%nat /\
    (forall i, JS.gt (JS.get (Vol.w A) i) (JS.get (Vol.w A) k) = false) /\
    (forall i, (i < k)%nat -> JS.get (Vol.w A) i <> NaN ->
               JS.gt (JS.get (Vol.w A) k) (JS.get (Vol.w A) i) = true).
Proof.
  intros Hl Ht Hf.
  assert (Hr : exists rest', net' = Net.mk rest' /\
    Net.forward_rest (Net.layers net) (Some V) (default false is_training) g
    = Ok (rest', act, g')).
  { rewrite forward_as_rest in Hf
      by (destruct (Net.layers net); [discriminate Hl | discriminate]).
    destruct (Net.forward_rest _ _ _ _) as [[[ls a] r] | e];
      [| discriminate].
    injection Hf as <- <- <-. eexists. split; reflexivity. }
  destruct Hr as (rest' & -> & Hr).
  destruct (forward_rest_softmax _ _ _ _ _ _ _ S Hr Hl)
    as (S' & A & Hl' & -> & Ht' & Ho).
  exists A, (snd (Net.argmax (Vol.w A))). split; [reflexivity |].
  split; [| apply argmax_spec].
  unfold Net.getPrediction. cbn [Net.layers]. rewrite Hl'.
  cbn [Net.layer_type_of]. rewrite Ht', Ht, Ho. reflexivity.
Qed.

Lemma X11_getPrediction_after_forward_witness :
  exists net' act g',
    Net.forward softmax_net small_tensor None fair_coin = Ok (net', act, g') /\
    exists A k,
      act = Some A /\ Net.getPrediction net' = inr k /\
      (k < length (Vol.w A) \/ (k = 0%nat /\ Vol.w A = []))%nat /\
      (forall i, JS.gt (JS.get (Vol.w A) i) (JS.get (Vol.w A) k) = false) /\
      (forall i, (i < k)%nat -> JS.get (Vol.w A) i <> NaN ->
                 JS.gt (JS.get (Vol.w A) k) (JS.get (Vol.w A) i) = true).
Proof.
  destruct (Net.forward softmax_net small_tensor None fair_coin)
    as [[[net' act] g'] | e] eqn:Hf.
  - exists net', act, g'. split; [reflexivity |].
    apply (X11_getPrediction_after_forward softmax_net net' small_tensor None
             fair_coin g' act
             (SoftmaxLayer.constructor (SoftmaxLayer.mk_options 1 1 2)));
      [reflexivity | reflexivity | exact Hf].
  - exfalso. unfold Net.forward, softmax_net in Hf.
    cbn [Net.layers Net.layer_forward Net.forward_rest] in Hf.
    destruct (SoftmaxLayer.forward _ _) in Hf. discriminate Hf.
Defined.

(** X12: [Net.getPrediction] returns a class only for a network whose last layer
    is a softmax layer holding an output; for every other network it
    throws. *)
Theorem X12_getPrediction_returns (net : Net.t) :
  (exists k, Net.getPrediction net = inr k)
  <-> exists S A,
        last (Net.layers net) = Some (Softmax S) /\
        SoftmaxLayer.layer_type S = "softmax" /\
        SoftmaxLayer.out_act S = Some A.
Proof.
  unfold Net.getPrediction. split.
  - intros [k Hk]. destruct (last (Net.layers net)) as [L |]; [| discriminate].
    destruct (String.eqb (Net.layer_type_of L) "softmax") eqn:Ht;
      [| discriminate].
    destruct L; try discriminate.
    destruct (SoftmaxLayer.out_act L) as [A |] eqn:Ho; [| discriminate].
    exists L, A. repeat split; [| exact Ho].
    apply String.eqb_eq. exact Ht.
  - intros (S & A & -> & Ht & Ho). cbn [Net.layer_type_of].
    rewrite Ht, Ho. eexists. reflexivity.
Qed.

(** ** MaxoutLayer *)

Lemma maxout_group_max_spec (L : MaxoutLayer.t) (read : Z -> number) (ix : Z) :
  1 <= MaxoutLayer.group_size L ->
  exists ai,
    MaxoutLayer.group_max L read ix = (read (ix + ai), ai) /\
    0 <= ai < MaxoutLayer.group_size L /\
    (forall j, 0 <= j < MaxoutLayer.group_size L ->
               JS.gt (read (ix + j)) (read (ix + ai)) = false) /\
    (forall j, 0 <= j < ai -> read (ix + j) <> NaN ->
               JS.gt (read (ix + ai)) (read (ix + j)) = true).
Proof.
  intros Hgs. unfold MaxoutLayer.group_max.
  destruct (running_max (fun j => read (ix + Z.of_nat j)) Z.of_nat
              (Z.to_nat (MaxoutLayer.group_size L) - 1))
    as (k & Hk & Hle & Hall & Hfirst).
  cbn [Z.of_nat] in Hk. rewrite Z.add_0_r in Hk.
  exists (Z.of_nat k). split; [exact Hk |]. split; [lia |]. split.
  - intros j Hj. specialize (Hall (Z.to_nat j) ltac:(lia)).
    rewrite Z2Nat.id in Hall by lia. exact Hall.
  - intros j Hj Hnan. specialize (Hfirst (Z.to_nat j) ltac:(lia)).
    rewrite Z2Nat.id in Hfirst by lia. apply Hfirst, Hnan.
Qed.

(** The loop of the flat branch of [forward], one group at a time. *)
Lemma maxout_forward_flat_inv (L : MaxoutLayer.t) (V V2 : Vol.t) (k : nat) :
  let '(A, sw) :=
    for_each k
      (fun i '(V2, sw) =>
         let ix := Z.of_nat i * MaxoutLayer.group_size L in
         let '(a, ai) := MaxoutLayer.group_max L (JS.getZ (Vol.w V)) ix in
         (Vol.set_w V2 (JS.set (Vol.w V2) i a), <[i := ix + ai]> sw))
      (V2, MaxoutLayer.switches L) in
  length (Vol.w A) = length (Vol.w V2) /\
  length sw = length (MaxoutLayer.switches L) /\
  forall i, (i < k)%nat ->
    let gm := MaxoutLayer.group_max L (JS.getZ (Vol.w V))
                (Z.of_nat i * MaxoutLayer.group_size L) in
    ((i < length (Vol.w V2))%nat -> JS.get (Vol.w A) i = fst gm) /\
    ((i < length (MaxoutLayer.switches L))%nat ->
     sw !! i = Some (Z.of_nat i * MaxoutLayer.group_size L + snd gm)).
Proof.
  induction k as [| k IH].
  - cbn. split; [reflexivity |]. split; [reflexivity |]. intros; lia.
  - rewrite for_each_S.
    destruct (for_each k _ _) as [A sw]. destruct IH as (HlA & Hls & Hi).
    cbn zeta.
    destruct (MaxoutLayer.group_max L (JS.getZ (Vol.w V))
                (Z.of_nat k * MaxoutLayer.group_size L)) as [a ai] eqn:Hgm.
    cbn [Vol.w Vol.set_w]. rewrite length_set, length_insert.
    split; [exact HlA |]. split; [exact Hls |].
    intros i Hlt. destruct (Nat.eq_dec i k) as [-> | Hne].
    + rewrite Hgm. cbn [fst snd]. split; intros Hb.
      * apply get_set_eq. lia.
      * apply list_lookup_insert_eq. lia.
    + destruct (Hi i ltac:(lia)) as [H1 H2]. split; intros Hb.
      * rewrite get_set_ne by congruence. apply H1, Hb.
      * rewrite list_lookup_insert_ne by congruence. apply H2, Hb.
Qed.

Lemma maxout_forward_flat_spec (L : MaxoutLayer.t) (V : Vol.t) (i : nat) :
  MaxoutLayer.out_sx L = 1 -> MaxoutLayer.out_sy L = 1 ->
  1 <= MaxoutLayer.group_size L ->
  Z.of_nat i < MaxoutLayer.out_depth L ->
  (Z.to_nat (MaxoutLayer.out_depth L) <= length (MaxoutLayer.switches L))%nat ->
  let L' := (MaxoutLayer.forward L V).1 in
  let A := (MaxoutLayer.forward L V).2 in
  let lo := Z.of_nat i * MaxoutLayer.group_size L in
  length (MaxoutLayer.switches L') = length (MaxoutLayer.switches L) /\
  MaxoutLayer.in_act L' = Some V /\
  MaxoutLayer.out_act L' = Some A /\
  exists s,
    MaxoutLayer.switches L' !! i = Some s /\
    lo <= s < lo + MaxoutLayer.group_size L /\
    JS.get (Vol.w A) i = JS.getZ (Vol.w V) s /\
    (forall j, lo <= j < lo + MaxoutLayer.group_size L ->
               JS.gt (JS.getZ (Vol.w V) j) (JS.get (Vol.w A) i) = false) /\
    (forall j, lo <= j < s -> JS.getZ (Vol.w V) j <> NaN ->
               JS.gt (JS.get (Vol.w A) i) (JS.getZ (Vol.w V) j) = true).
Proof.
  intros Hx Hy Hgs Hi Hsw. unfold MaxoutLayer.forward.
  rewrite Hx, Hy. cbn [Z.eqb Pos.eqb andb]. unfold MaxoutLayer.forward_flat.
  pose proof (maxout_forward_flat_inv L V
                (Vol.new 1 1 (MaxoutLayer.out_depth L) (Num 0))
                (Z.to_nat (MaxoutLayer.out_depth L))) as Hinv.
  destruct (for_each _ _ _) as [A sw]. destruct Hinv as (HlA & Hls & Hinv).
  cbn [fst snd MaxoutLayer.switches MaxoutLayer.in_act MaxoutLayer.out_act
       MaxoutLayer.set_acts].
  split; [exact Hls |]. split; [reflexivity |]. split; [reflexivity |].
  destruct (Hinv i ltac:(lia)) as [Ha Hs].
  destruct (maxout_group_max_spec L (JS.getZ (Vol.w V))
              (Z.of_nat i * MaxoutLayer.group_size L) Hgs)
    as (ai & Hgm & Hai & Hall & Hfirst).
  rewrite Hgm in Ha, Hs. cbn [fst snd] in Ha, Hs.
  assert (HA : JS.get (Vol.w A) i
               = JS.getZ (Vol.w V) (Z.of_nat i * MaxoutLayer.group_size L + ai)).
  { apply Ha. unfold Vol.new. cbn [Vol.w]. rewrite length_replicate. lia. }
  exists (Z.of_nat i * MaxoutLayer.group_size L + ai).
  split; [apply Hs; lia |]. split; [lia |]. split; [exact HA |].
  rewrite HA. split.
  - intros j Hj.
    replace j with (Z.of_nat i * MaxoutLayer.group_size L
                    + (j - Z.of_nat i * MaxoutLayer.group_size L)) by lia.
    apply Hall. lia.
  - intros j Hj.
    replace j with (Z.of_nat i * MaxoutLayer.group_size L
                    + (j - Z.of_nat i * MaxoutLayer.group_size L)) by lia.
    apply Hfirst. lia.
Qed.

(** X13: In a [MaxoutLayer] over 1x1 tensors, output [i] of [forward] is the first
    largest value of group [i] of the input, and switch [i] is its
    index in the input. *)
Theorem X13_maxout_forward_group_maximum (L : MaxoutLayer.t) (V : Vol.t) (i : nat) :
  MaxoutLayer.out_sx L = 1 -> MaxoutLayer.out_sy L = 1 ->
  1 <= MaxoutLayer.group_size L ->
  Z.of_nat i < MaxoutLayer.out_depth L ->
  (Z.to_nat (MaxoutLayer.out_depth L) <= length (MaxoutLayer.switches L))%nat ->
  let '(L', A) := MaxoutLayer.forward L V in
  let lo := Z.of_nat i * MaxoutLayer.group_size L in
  exists s,
    MaxoutLayer.switches L' !! i = Some s /\
    lo <= s < lo + MaxoutLayer.group_size L /\
    JS.get (Vol.w A) i = JS.getZ (Vol.w V) s /\
    (forall j, lo <= j < lo + MaxoutLayer.group_size L ->
               JS.gt (JS.getZ (Vol.w V) j) (JS.get (Vol.w A) i) = false) /\
    (forall j, lo <= j < s -> JS.getZ (Vol.w V) j <> NaN ->
               JS.gt (JS.get (Vol.w A) i) (JS.getZ (Vol.w V) j) = true).
Proof.
  intros Hx Hy Hgs Hi Hsw.
  pose proof (maxout_forward_flat_spec L V i Hx Hy Hgs Hi Hsw) as H.
  destruct (MaxoutLayer.forward L V) as [L' A]. apply H.
Qed.

Lemma X13_maxout_forward_group_maximum_witness :
  let '(L', A) := MaxoutLayer.forward maxout_4_2 maxout_input in
  let lo := Z.of_nat 1 * MaxoutLayer.group_size maxout_4_2 in
  exists s,
    MaxoutLayer.switches L' !! 1%nat = Some s /\
    lo <= s < lo + MaxoutLayer.group_size maxout_4_2 /\
    JS.get (Vol.w A) 1 = JS.getZ (Vol.w maxout_input) s /\
    (forall j, lo <= j < lo + MaxoutLayer.group_size maxout_4_2 ->
               JS.gt (JS.getZ (Vol.w maxout_input) j) (JS.get (Vol.w A) 1)
               = false) /\
    (forall j, lo <= j < s -> JS.getZ (Vol.w maxout_input) j <> NaN ->
               JS.gt (JS.get (Vol.w A) 1) (JS.getZ (Vol.w maxout_input) j)
               = true).
Proof.
  apply (X13_maxout_forward_group_maximum maxout_4_2 maxout_input 1);
    cbn; try reflexivity; lia.
Defined.

(** The loop of the flat branch of [backward], when switch [i] lies in
    group [i] of the input. *)
Lemma maxout_backward_flat_inv (L : MaxoutLayer.t) (V V2 : Vol.t) (k : nat) :
  let gs := MaxoutLayer.group_size L in
  1 <= gs ->
  (forall i s, MaxoutLayer.switches L !! i = Some s ->
               Z.of_nat i * gs <= s < Z.of_nat i * gs + gs /\
               s < Z.of_nat (length (Vol.dw V))) ->
  let V' :=
    for_each k
      (fun i V =>
         let chain_grad := JS.get (Vol.dw V2) i in
         match MaxoutLayer.switches L !! i with
         | Some s => Vol.set_dw V (JS.setZ (Vol.dw V) s chain_grad)
         | None => V
         end)
      V in
  Vol.w V' = Vol.w V /\
  length (Vol.dw V') = length (Vol.dw V) /\
  forall i s j,
    MaxoutLayer.switches L !! i = Some s ->
    Z.of_nat i * gs <= j < Z.of_nat i * gs + gs ->
    JS.getZ (Vol.dw V') j
    = if (i <? k)%nat && (j =? s) then JS.get (Vol.dw V2) i
      else JS.getZ (Vol.dw V) j.
Proof.
  intros gs Hgs Hsw. induction k as [| k IH].
  - cbn. split; [reflexivity |]. split; [reflexivity |]. intros; reflexivity.
  - cbn zeta in *. rewrite for_each_S.
    destruct IH as (Hw & Hlen & Hget).
    set (Vk := for_each k _ V) in *.
    destruct (MaxoutLayer.switches L !! k) as [sk |] eqn:Hk.
    + cbn [Vol.w Vol.dw Vol.set_dw]. rewrite length_setZ.
      split; [exact Hw |]. split; [exact Hlen |].
      intros i s j Hs Hj. destruct (Hsw k sk Hk) as [Hgk Hbk].
      destruct (Z.eq_dec j sk) as [-> | Hne].
      * assert (i = k) by (fold gs in Hj, Hgk; nia). subst i.
        assert (s = sk) by congruence. subst s.
        rewrite getZ_setZ_eq by (fold gs in Hgk; lia).
        rewrite Z.eqb_refl. destruct (Nat.ltb_spec k (S k)); [reflexivity | lia].
      * rewrite getZ_setZ_ne by congruence. rewrite (Hget i s j Hs Hj).
        destruct (Nat.eq_dec i k) as [-> | Hik].
        -- assert (s = sk) by congruence. subst s.
           destruct (Z.eqb_spec j sk); [contradiction |].
           rewrite !andb_false_r. reflexivity.
        -- destruct (Nat.ltb_spec i k), (Nat.ltb_spec i (S k)); try lia;
             reflexivity.
    + split; [exact Hw |]. split; [exact Hlen |].
      intros i s j Hs Hj. rewrite (Hget i s j Hs Hj).
      destruct (Nat.eq_dec i k) as [-> | Hik]; [congruence |].
      destruct (Nat.ltb_spec i k), (Nat.ltb_spec i (S k)); try lia;
        reflexivity.
Qed.

(** X14: In a [MaxoutLayer] over 1x1 tensors, [backward] after [forward] hands the
    gradient of output [i] to the winner of group [i] and leaves the
    other inputs of the group at 0. *)
Theorem X14_maxout_backward_routes (L : MaxoutLayer.t) (V : Vol.t)
    (g : list number) :
  MaxoutLayer.out_sx L = 1 -> MaxoutLayer.out_sy L = 1 ->
  1 <= MaxoutLayer.group_size L ->
  length (MaxoutLayer.switches L) = Z.to_nat (MaxoutLayer.out_depth L) ->
  MaxoutLayer.out_depth L * MaxoutLayer.group_size L
    <= Z.of_nat (length (Vol.w V)) ->
  exists L' V',
    MaxoutLayer.backward (maxout_run L V g) = Ok L' /\
    MaxoutLayer.in_act L' = Some V' /\
    Vol.w V' = Vol.w V /\
    forall i s j,
      MaxoutLayer.switches (MaxoutLayer.forward L V).1 !! i = Some s ->
      Z.of_nat i * MaxoutLayer.group_size L <= j
        < Z.of_nat i * MaxoutLayer.group_size L + MaxoutLayer.group_size L ->
      JS.getZ (Vol.dw V') j = if j =? s then JS.get g i else Num 0.
Proof.
  intros Hx Hy Hgs Hlen Hin.
  set (L1 := (MaxoutLayer.forward L V).1).
  set (A := (MaxoutLayer.forward L V).2).
  set (gs := MaxoutLayer.group_size L) in *.
  set (N := MaxoutLayer.out_depth L) in *.
  assert (Hdims : MaxoutLayer.out_sx L1 = 1 /\ MaxoutLayer.out_sy L1 = 1 /\
                  MaxoutLayer.out_depth L1 = N /\
                  MaxoutLayer.group_size L1 = gs /\
                  MaxoutLayer.in_act L1 = Some V /\
                  length (MaxoutLayer.switches L1) = Z.to_nat N).
  { unfold L1, MaxoutLayer.forward. rewrite Hx, Hy. cbn [Z.eqb Pos.eqb andb].
    unfold MaxoutLayer.forward_flat.
    pose proof (maxout_forward_flat_inv L V (Vol.new 1 1 N (Num 0))
                  (Z.to_nat N)) as Hinv.
    fold N. destruct (for_each _ _ _) as [A' sw].
    destruct Hinv as (_ & Hls & _). cbn. repeat split; congruence. }
  destruct Hdims as (Hx1 & Hy1 & HN1 & Hgs1 & Hin1 & Hlen1).
  assert (Hsw : forall i s, MaxoutLayer.switches L1 !! i = Some s ->
                  Z.of_nat i * gs <= s < Z.of_nat i * gs + gs /\
                  s < Z.of_nat (length (Vol.w V)) /\ Z.of_nat i < N).
  { intros i s Hs. pose proof (lookup_lt_Some _ _ _ Hs) as Hi.
    rewrite Hlen1 in Hi.
    destruct (maxout_forward_flat_spec L V i Hx Hy Hgs ltac:(fold N; lia)
                ltac:(fold N; lia))
      as (_ & _ & _ & s' & Hs' & Hrange & _).
    fold L1 in Hs'. fold gs in Hrange.
    assert (s' = s) by congruence. subst s'.
    split; [exact Hrange |]. split; [nia | lia]. }
  assert (Hout : 0 < N -> MaxoutLayer.out_act L1 = Some A).
  { intros HN.
    destruct (maxout_forward_flat_spec L V 0 Hx Hy Hgs ltac:(fold N; lia)
                ltac:(fold N; lia)) as (_ & _ & Ho & _).
    exact Ho. }
  unfold maxout_run. fold L1. unfold MaxoutLayer.backward.
  cbn [MaxoutLayer.set_acts MaxoutLayer.in_act MaxoutLayer.out_act
       MaxoutLayer.out_sx MaxoutLayer.out_sy MaxoutLayer.out_depth
       MaxoutLayer.switches].
  rewrite Hin1, Hx1, Hy1, HN1. cbn [deref bind Z.eqb Pos.eqb andb].
  set (V0 := Vol.set_dw V (util.zeros (Z.of_nat (length (Vol.w V))))).
  assert (Hzero : forall j, 0 <= j < Z.of_nat (length (Vol.w V)) ->
                            JS.getZ (Vol.dw V0) j = Num 0).
  { intros j Hj. unfold V0. cbn [Vol.dw Vol.set_dw]. unfold JS.getZ.
    destruct (Z.ltb_spec j 0); [lia |]. apply get_zeros. lia. }
  destruct (Z.ltb_spec 0 N) as [HN | HN].
  - rewrite (Hout HN). cbn [receive fmap option_fmap option_map deref bind].
    eexists _, _. split; [reflexivity |].
    cbn [MaxoutLayer.set_acts MaxoutLayer.in_act]. split; [reflexivity |].
    set (L2 := MaxoutLayer.set_acts _ _ _ _).
    pose proof (maxout_backward_flat_inv L2 V0 (Vol.set_dw A g)
                  (Z.to_nat N)) as Hinv.
    cbn zeta in Hinv.
    assert (Hgs2 : MaxoutLayer.group_size L2 = gs) by exact Hgs1.
    assert (Hsw2 : MaxoutLayer.switches L2 = MaxoutLayer.switches L1)
      by reflexivity.
    assert (HN2 : MaxoutLayer.out_depth L2 = N) by exact HN1.
    rewrite Hgs2, Hsw2 in Hinv.
    destruct Hinv as (Hw & _ & Hget); [lia | |].
    { intros i s Hs. destruct (Hsw i s Hs) as (H1 & H2 & _).
      split; [exact H1 |]. unfold V0. cbn [Vol.dw Vol.set_dw].
      rewrite length_zeros. lia. }
    unfold MaxoutLayer.backward_flat. rewrite HN2, Hsw2.
    split; [exact Hw |].
    intros i s j Hs Hj. rewrite (Hget i s j Hs Hj).
    destruct (Hsw i s Hs) as (H1 & H2 & H3).
    destruct (Nat.ltb_spec i (Z.to_nat N)); [| lia]. cbn [andb Vol.dw Vol.set_dw].
    destruct (j =? s); [reflexivity |]. apply Hzero. nia.
  - eexists _, _. split; [reflexivity |].
    cbn [MaxoutLayer.set_acts MaxoutLayer.in_act]. split; [reflexivity |].
    split; [reflexivity |].
    intros i s j Hs Hj. destruct (Hsw i s Hs) as (_ & _ & H3). lia.
Qed.

Lemma X14_maxout_backward_routes_witness :
  exists L' V',
    MaxoutLayer.backward (maxout_run maxout_4_2 maxout_input [Num 5; Num 7])
    = Ok L' /\
    MaxoutLayer.in_act L' = Some V' /\
    Vol.w V' = Vol.w maxout_input /\
    forall i s j,
      MaxoutLayer.switches (MaxoutLayer.forward maxout_4_2 maxout_input).1 !! i
      = Some s ->
      Z.of_nat i * MaxoutLayer.group_size maxout_4_2 <= j
        < Z.of_nat i * MaxoutLayer.group_size maxout_4_2
          + MaxoutLayer.group_size maxout_4_2 ->
      JS.getZ (Vol.dw V') j = if j =? s then JS.get [Num 5; Num 7] i else Num 0.
Proof.
  apply (X14_maxout_backward_routes maxout_4_2 maxout_input [Num 5; Num 7]);
    cbn; try reflexivity; lia.
Defined.

(** ** DropoutLayer in training mode *)

Lemma insert_imap {A B : Type} (f f' : nat -> A -> B) (l : list A) (k : nat)
    (x : B) :
  (forall i v, i <> k -> l !! i = Some v -> f' i v = f i v) ->
  (forall v, l !! k = Some v -> f' k v = x) ->
  <[k := x]> (imap f l) = imap f' l.
Proof.
  intros Hne Heq. apply list_eq. intros i.
  destruct (Nat.eq_dec i k) as [-> | Hik].
  - destruct (l !! k) as [v |] eqn:Hv.
    + rewrite list_lookup_insert_eq
        by (rewrite length_imap; apply lookup_lt_Some in Hv; exact Hv).
      rewrite list_lookup_imap, Hv. cbn. f_equal. symmetry. apply Heq.
      reflexivity.
    + rewrite list_insert_ge
        by (rewrite length_imap; apply lookup_ge_None in Hv; exact Hv).
      rewrite !list_lookup_imap, Hv. reflexivity.
  - rewrite list_lookup_insert_ne by congruence.
    rewrite !list_lookup_imap. destruct (l !! i) as [v |] eqn:Hv;
      [| reflexivity].
    cbn. f_equal. symmetry. apply Hne; [exact Hik | exact Hv].
Qed.

Lemma imap_agree {A B : Type} (f f' : nat -> A -> B) (l : list A) :
  (forall i v, l !! i = Some v -> f' i v = f i v) ->
  imap f l = imap f' l.
Proof.
  intros H. apply list_eq. intros i. rewrite !list_lookup_imap.
  destruct (l !! i) as [v |] eqn:Hv; [| reflexivity].
  cbn. f_equal. symmetry. apply H. exact Hv.
Qed.

Lemma imap_same {A : Type} (l : list A) : imap (fun _ v => v) l = l.
Proof.
  apply list_eq. intros i. rewrite list_lookup_imap.
  destruct (l !! i); reflexivity.
Qed.

(** The training loop after [k] iterations. *)
Lemma dropout_training_loop (L : DropoutLayer.t) (ws : list number)
    (mask : list bool) (r : rng) (k : nat) :
  for_each k (DropoutLayer.drop_step L) (ws, mask, r)
  = (imap (fun i v => if (i <? k)%nat && drops L r i then Num 0 else v) ws,
     imap (fun i b => if (i <? k)%nat then drops L r i else b) mask,
     mk_rng (draws r) (drawn r + k)).
Proof.
  induction k as [| k IH].
  - cbn. rewrite Nat.add_0_r. destruct r. cbn. f_equal. f_equal.
    + symmetry. apply imap_same.
    + symmetry. apply imap_same.
  - rewrite for_each_S, IH. unfold DropoutLayer.drop_step at 1.
    unfold Math_random. cbn [draws drawn].
    assert (Hd : JS.lt (draws r (drawn r + k)) (DropoutLayer.drop_prob L)
                 = drops L r k) by reflexivity.
    rewrite Hd. replace (S (drawn r + k)) with (drawn r + S k)%nat by lia.
    assert (Hlt : forall i, i <> k -> (i <? S k)%nat = (i <? k)%nat).
    { intros i Hi. destruct (Nat.ltb_spec i (S k)), (Nat.ltb_spec i k);
        try lia; reflexivity. }
    assert (Hkk : (k <? S k)%nat = true) by (apply Nat.ltb_lt; lia).
    destruct (drops L r k) eqn:Hk; f_equal; f_equal.
    + apply insert_imap.
      * intros i v Hi _. rewrite (Hlt i Hi). reflexivity.
      * intros v _. rewrite Hkk, Hk. reflexivity.
    + apply insert_imap.
      * intros i v Hi _. rewrite (Hlt i Hi). reflexivity.
      * intros v _. rewrite Hkk. exact Hk.
    + apply imap_agree. intros i v _.
      destruct (Nat.eq_dec i k) as [-> | Hi].
      * rewrite Hk, !andb_false_r. reflexivity.
      * rewrite (Hlt i Hi). reflexivity.
    + apply insert_imap.
      * intros i v Hi _. rewrite (Hlt i Hi). reflexivity.
      * intros v _. rewrite Hkk. exact Hk.
Qed.

Lemma imap_below {A B : Type} (f : nat -> bool) (x y : nat -> A -> B)
    (l : list A) :
  imap (fun i v => if (i <? length l)%nat && f i then x i v else y i v) l
  = imap (fun i v => if f i then x i v else y i v) l.
Proof.
  apply imap_agree. intros i v Hv. apply lookup_lt_Some in Hv.
  apply Nat.ltb_lt in Hv. rewrite Hv. reflexivity.
Qed.

Lemma dropout_forward_training (L : DropoutLayer.t) (V : Vol.t) (r : rng) :
  DropoutLayer.forward L V (Some true) r
  = let out :=
      Vol.set_w V (imap (fun i v => if drops L r i then Num 0 else v)
                        (Vol.w V)) in
    (DropoutLayer.mk (DropoutLayer.layer_type L) (DropoutLayer.out_sx L)
       (DropoutLayer.out_sy L) (DropoutLayer.out_depth L)
       (DropoutLayer.drop_prob L)
       (imap (fun i b => if (i <? length (Vol.w V))%nat then drops L r i
                         else b)
             (DropoutLayer.dropped L))
       (Some V) (Some out),
     out, mk_rng (draws r) (drawn r + length (Vol.w V))).
Proof.
  unfold DropoutLayer.forward. cbn [default Datatypes.id Vol.clone Vol.w].
  rewrite dropout_training_loop.
  rewrite (imap_below (drops L r) (fun _ _ => Num 0) (fun _ v => v)).
  destruct V; reflexivity.
Qed.

(** X15: In training mode [DropoutLayer.forward] replaces by 0 the elements whose random
    draw is below [drop_prob], keeps the others as they are, records
    the choice in the mask, and consumes one draw for each element. *)
Theorem X15_dropout_training_forward (L : DropoutLayer.t) (V : Vol.t) (r : rng) :
  let '(L1, A, r1) := DropoutLayer.forward L V (Some true) r in
  drawn r1 = (drawn r + length (Vol.w V))%nat /\
  draws r1 = draws r /\
  length (Vol.w A) = length (Vol.w V) /\
  (forall i v, Vol.w V !! i = Some v ->
     Vol.w A !! i = Some (if drops L r i then Num 0 else v)) /\
  (forall i b, DropoutLayer.dropped L !! i = Some b ->
     DropoutLayer.dropped L1 !! i
     = Some (if (i <? length (Vol.w V))%nat then drops L r i else b)) /\
  DropoutLayer.drop_prob L1 = DropoutLayer.drop_prob L.
Proof.
  rewrite dropout_forward_training. cbn zeta.
  cbn [drawn draws Vol.w Vol.set_w DropoutLayer.dropped DropoutLayer.drop_prob].
  split; [reflexivity |]. split; [reflexivity |].
  split; [apply length_imap |]. split; [| split; [| reflexivity]].
  - intros i v Hv. rewrite list_lookup_imap, Hv. reflexivity.
  - intros i b Hb. rewrite list_lookup_imap, Hb. reflexivity.
Qed.

Lemma set_get_id (a : list number) (i : nat) : JS.set a i (JS.get a i) = a.
Proof.
  unfold JS.set, JS.get. destruct (a !! i) as [v |] eqn:Hv.
  - apply list_insert_id. exact Hv.
  - apply list_insert_ge. apply lookup_ge_None. exact Hv.
Qed.

Lemma dropout_backward_loop (L : DropoutLayer.t) (A : Vol.t) (n : nat) :
  DropoutLayer.out_act L = Some A ->
  for_each_r n (DropoutLayer.backward_step L) (util.zeros (Z.of_nat n))
  = Ok (map (fun i => match DropoutLayer.dropped L !! i with
                      | Some true => Num 0
                      | _ => JS.get (Vol.dw A) i
                      end) (seq 0 n)).
Proof.
  intros Ho.
  set (f := fun (i : nat) (v : number) =>
              match DropoutLayer.dropped L !! i with
              | Some true => v
              | _ => JS.get (Vol.dw A) i
              end).
  rewrite (for_each_r_ok n _ (fun i a => JS.set a i (f i (JS.get a i)))).
  - f_equal.
    pose proof (for_each_elementwise f (util.zeros (Z.of_nat n))) as H.
    rewrite length_zeros, Nat2Z.id in H. rewrite H.
    apply list_eq. intros i. rewrite list_lookup_imap, list_lookup_fmap.
    unfold util.zeros. rewrite Nat2Z.id.
    destruct (Nat.lt_ge_cases i n) as [Hi | Hi].
    + rewrite lookup_replicate_2 by exact Hi.
      rewrite lookup_seq_lt by exact Hi. cbn. unfold f.
      destruct (DropoutLayer.dropped L !! i) as [[|] |]; reflexivity.
    + rewrite (lookup_ge_None_2 (replicate n (Num 0)) i)
        by (rewrite length_replicate; exact Hi).
      rewrite lookup_seq_ge by exact Hi. reflexivity.
  - intros i dw _. unfold DropoutLayer.backward_step, f. rewrite Ho.
    destruct (DropoutLayer.dropped L !! i) as [[|] |]; cbn;
      rewrite ?set_get_id; reflexivity.
Qed.

(** X16: After a training pass, [DropoutLayer.backward] hands the gradient of an element
    that was kept to the input unchanged and gives an element that was
    dropped the gradient 0. *)
Theorem X16_dropout_backward_after_training (L : DropoutLayer.t) (V : Vol.t)
    (r : rng) (g : list number) :
  (length (Vol.w V) <= length (DropoutLayer.dropped L))%nat ->
  exists L',
    DropoutLayer.backward (dropout_run L V r g) = Ok L' /\
    DropoutLayer.in_act L'
    = Some (Vol.set_dw V
              (imap (fun i _ => if drops L r i then Num 0 else JS.get g i)
                    (Vol.w V))).
Proof.
  intros Hlen. unfold dropout_run. rewrite dropout_forward_training.
  cbn zeta. cbn [fst DropoutLayer.layer_type DropoutLayer.out_sx
                 DropoutLayer.out_sy DropoutLayer.out_depth
                 DropoutLayer.drop_prob DropoutLayer.dropped
                 DropoutLayer.in_act DropoutLayer.out_act
                 receive fmap option_fmap option_map].
  unfold DropoutLayer.backward. cbn [DropoutLayer.in_act deref bind].
  erewrite dropout_backward_loop by reflexivity.
  cbn [bind]. eexists. split; [reflexivity |].
  cbn [DropoutLayer.in_act DropoutLayer.dropped Vol.dw Vol.set_dw].
  do 2 f_equal.
  rewrite <- (map_seq_imap
                (fun i _ => if drops L r i then Num 0 else JS.get g i) NaN).
  apply map_ext_in. intros i Hi. apply in_seq in Hi.
  rewrite list_lookup_imap.
  destruct (lookup_lt_is_Some_2 (DropoutLayer.dropped L) i ltac:(lia))
    as [b Hb].
  rewrite Hb. cbn [fmap option_fmap option_map].
  destruct (Nat.ltb_spec i (length (Vol.w V))); [| lia].
  destruct (drops L r i); reflexivity.
Qed.

Lemma X16_dropout_backward_after_training_witness :
  exists L',
    DropoutLayer.backward
      (dropout_run (DropoutLayer.constructor
                      (DropoutLayer.mk_options 1 1 2 None))
                   small_tensor fair_coin [Num 5; Num 7]) = Ok L' /\
    DropoutLayer.in_act L'
    = Some (Vol.set_dw small_tensor
              (imap (fun i _ =>
                       if drops (DropoutLayer.constructor
                                   (DropoutLayer.mk_options 1 1 2 None))
                                fair_coin i
                       then Num 0 else JS.get [Num 5; Num 7] i)
                    (Vol.w small_tensor))).
Proof.
  apply X16_dropout_backward_after_training.
  unfold DropoutLayer.constructor, DropoutLayer.no_drops.
  cbn [DropoutLayer.dropped]. rewrite length_map, length_zeros. cbn. lia.
Defined.

(** ** FullyConnLayer.forward *)

Lemma fc_dot_finite (L : FullyConnLayer.t) (xs ws : list R) :
  length xs = Z.to_nat (FullyConnLayer.num_inputs L) ->
  length ws = Z.to_nat (FullyConnLayer.num_inputs L) ->
  FullyConnLayer.dot L (Num <$> xs) (Num <$> ws) = Num (dot_R xs ws).
Proof.
  intros Hx Hw. unfold FullyConnLayer.dot.
  set (D := Z.to_nat (FullyConnLayer.num_inputs L)) in *.
  assert (Hk : forall k, (k <= D)%nat ->
    for_each k
      (fun d a => JS.add a (JS.mul (JS.get (Num <$> xs) d)
                                   (JS.get (Num <$> ws) d)))
      (Num 0)
    = Num (dot_R (take k xs) (take k ws))).
  { induction k as [| k IH]; intros Hk; [reflexivity |].
    rewrite for_each_S, IH by lia.
    destruct (lookup_lt_is_Some_2 xs k ltac:(lia)) as [x Hxk].
    destruct (lookup_lt_is_Some_2 ws k ltac:(lia)) as [w Hwk].
    rewrite (get_Num xs k x Hxk), (get_Num ws k w Hwk).
    rewrite (take_S_r xs k x Hxk), (take_S_r ws k w Hwk).
    unfold dot_R. rewrite zip_with_app
      by (rewrite !length_take; lia).
    cbn [zip_with]. rewrite sum_R_snoc. reflexivity. }
  rewrite Hk by lia. rewrite !firstn_all2 by lia. reflexivity.
Qed.

(** A loop that writes [g i] into element [i] of the weights of a
    tensor. *)
Lemma vol_write_loop (g : nat -> number) (n : nat) (A : Vol.t) :
  for_each n (fun i A => Vol.set_w A (JS.set (Vol.w A) i (g i))) A
  = Vol.set_w A (for_each n (fun i a => JS.set a i (g i)) (Vol.w A)).
Proof.
  induction n as [| n IH]; [destruct A; reflexivity |].
  rewrite !for_each_S, IH. reflexivity.
Qed.

Lemma fc_forward_loop (L : FullyConnLayer.t) (V : Vol.t) :
  (Z.to_nat (FullyConnLayer.out_depth L) <= length (FullyConnLayer.filters L))%nat ->
  for_each_r (Z.to_nat (FullyConnLayer.out_depth L))
    (FullyConnLayer.forward_step L V)
    (Vol.new 1 1 (FullyConnLayer.out_depth L) (Num 0))
  = Ok (Vol.set_w (Vol.new 1 1 (FullyConnLayer.out_depth L) (Num 0))
          (map (fun i =>
                  JS.add (FullyConnLayer.dot L (Vol.w V)
                            (from_option Vol.w []
                               (FullyConnLayer.filters L !! i)))
                         (JS.get (Vol.w (FullyConnLayer.biases L)) i))
               (seq 0 (Z.to_nat (FullyConnLayer.out_depth L))))).
Proof.
  intros Hf.
  set (g := fun i =>
              JS.add (FullyConnLayer.dot L (Vol.w V)
                        (from_option Vol.w [] (FullyConnLayer.filters L !! i)))
                     (JS.get (Vol.w (FullyConnLayer.biases L)) i)).
  rewrite (for_each_r_ok _ _
             (fun i A => Vol.set_w A (JS.set (Vol.w A) i (g i)))).
  - rewrite vol_write_loop. f_equal. f_equal.
    unfold Vol.new. cbn [Vol.w]. rewrite !Z.mul_1_l.
    pose proof (write_loop g (Z.to_nat (FullyConnLayer.out_depth L))) as H.
    unfold util.zeros in H. rewrite Nat2Z.id in H. exact H.
  - intros i A Hi. unfold FullyConnLayer.forward_step.
    destruct (lookup_lt_is_Some_2 (FullyConnLayer.filters L) i ltac:(lia))
      as [f Hfi].
    unfold g. rewrite Hfi. reflexivity.
Qed.

(** X17: On finite numbers [FullyConnLayer.forward] is the affine map of the weights:
    output [i] is the dot product of the input and filter [i], plus
    bias [i]. *)
Theorem X17_fc_forward_affine (L : FullyConnLayer.t) (V : Vol.t)
    (Ws : list (list R)) (bs xs : list R) :
  Vol.w <$> FullyConnLayer.filters L = (fmap Num) <$> Ws ->
  Vol.w (FullyConnLayer.biases L) = Num <$> bs ->
  Vol.w V = Num <$> xs ->
  length Ws = Z.to_nat (FullyConnLayer.out_depth L) ->
  length bs = Z.to_nat (FullyConnLayer.out_depth L) ->
  length xs = Z.to_nat (FullyConnLayer.num_inputs L) ->
  Forall (fun W => length W = Z.to_nat (FullyConnLayer.num_inputs L)) Ws ->
  exists L' A,
    FullyConnLayer.forward L V = Ok (L', A) /\
    FullyConnLayer.out_act L' = Some A /\
    FullyConnLayer.in_act L' = Some V /\
    Vol.w A = Num <$> affine Ws bs xs.
Proof.
  intros HW Hb Hx HlW Hlb Hlx HD.
  assert (Hlf : length (FullyConnLayer.filters L)
                = Z.to_nat (FullyConnLayer.out_depth L)).
  { rewrite <- HlW, <- (length_fmap Vol.w), HW, length_fmap. reflexivity. }
  unfold FullyConnLayer.forward. rewrite fc_forward_loop by lia.
  cbn [bind]. eexists _, _. split; [reflexivity |].
  split; [reflexivity |]. split; [reflexivity |].
  cbn [Vol.w Vol.set_w]. apply list_eq. intros i.
  rewrite !list_lookup_fmap. unfold affine. rewrite lookup_zip_with.
  destruct (Nat.lt_ge_cases i (Z.to_nat (FullyConnLayer.out_depth L)))
    as [Hi | Hi].
  - rewrite lookup_seq_lt by exact Hi.
    destruct (lookup_lt_is_Some_2 Ws i ltac:(lia)) as [W HWi].
    destruct (lookup_lt_is_Some_2 bs i ltac:(lia)) as [b Hbi].
    rewrite HWi, Hbi. cbn.
    assert (Hfi : FullyConnLayer.filters L !! i ≫= (fun f => Some (Vol.w f))
                  = Some (Num <$> W)).
    { pose proof (f_equal (fun l => l !! i) HW) as E. cbn in E.
      rewrite !list_lookup_fmap, HWi in E. cbn in E.
      destruct (FullyConnLayer.filters L !! i); cbn in *; congruence. }
    destruct (FullyConnLayer.filters L !! i) as [f |]; [| discriminate].
    cbn in Hfi. injection Hfi as Hfw. cbn [from_option]. rewrite Hfw, Hx, Hb.
    rewrite fc_dot_finite;
      [| exact Hlx | exact (proj1 (Forall_lookup _ _) HD i W HWi)].
    rewrite (get_Num bs i b Hbi). reflexivity.
  - rewrite lookup_seq_ge by exact Hi.
    rewrite (lookup_ge_None_2 Ws) by lia. reflexivity.
Qed.

Lemma X17_fc_forward_affine_witness :
  exists L' A,
    FullyConnLayer.forward (as_fc conv_1x1) small_tensor = Ok (L', A) /\
    FullyConnLayer.out_act L' = Some A /\
    FullyConnLayer.in_act L' = Some small_tensor /\
    Vol.w A = Num <$> affine [[1; 2]; [3; -1]]%R [0; 0]%R [1; -2]%R.
Proof.
  apply (X17_fc_forward_affine (as_fc conv_1x1) small_tensor
           [[1; 2]; [3; -1]]%R [0; 0]%R [1; -2]%R);
    try reflexivity.
  repeat constructor.
Defined.

(** ** FullyConnLayer.backward *)

Lemma for_each_pair_split (f h : nat -> number -> number) (n : nat)
    (a b : list number) :
  for_each n
    (fun d (s : list number * list number) =>
       (JS.set (fst s) d (f d (JS.get (fst s) d)),
        JS.set (snd s) d (h d (JS.get (snd s) d))))
    (a, b)
  = (for_each n (fun d a => JS.set a d (f d (JS.get a d))) a,
     for_each n (fun d b => JS.set b d (h d (JS.get b d))) b).
Proof.
  induction n as [| n IH]; [reflexivity |].
  rewrite !for_each_S, IH. reflexivity.
Qed.

Lemma fc_backward_inner_spec (tfi : Vol.t) (cg : number) (Vw : list number)
    (n : nat) (a b : list number) :
  let s := for_each n (FullyConnLayer.backward_inner tfi cg Vw) (a, b) in
  length (fst s) = length a /\ length (snd s) = length b /\
  (forall d, (d < length a)%nat ->
     JS.get (fst s) d
     = if (d <? n)%nat
       then JS.add (JS.get a d) (JS.mul (JS.get (Vol.w tfi) d) cg)
       else JS.get a d) /\
  (forall d, (d < length b)%nat ->
     JS.get (snd s) d
     = if (d <? n)%nat then JS.add (JS.get b d) (JS.mul (JS.get Vw d) cg)
       else JS.get b d).
Proof.
  cbn zeta.
  rewrite (for_each_ext n _
             (fun d (s : list number * list number) =>
                (JS.set (fst s) d
                   ((fun d v => JS.add v (JS.mul (JS.get (Vol.w tfi) d) cg))
                      d (JS.get (fst s) d)),
                 JS.set (snd s) d
                   ((fun d v => JS.add v (JS.mul (JS.get Vw d) cg))
                      d (JS.get (snd s) d)))))
    by (intros d [x y] _; reflexivity).
  rewrite (for_each_pair_split
             (fun d v => JS.add v (JS.mul (JS.get (Vol.w tfi) d) cg))
             (fun d v => JS.add v (JS.mul (JS.get Vw d) cg))).
  cbn [fst snd].
  split; [| split; [| split]].
  - exact (for_each_elementwise_length
             (fun d v => JS.add v (JS.mul (JS.get (Vol.w tfi) d) cg)) n a).
  - exact (for_each_elementwise_length
             (fun d v => JS.add v (JS.mul (JS.get Vw d) cg)) n b).
  - intros d Hd.
    exact (for_each_elementwise_get
             (fun d v => JS.add v (JS.mul (JS.get (Vol.w tfi) d) cg))
             n a d Hd).
  - intros d Hd.
    exact (for_each_elementwise_get
             (fun d v => JS.add v (JS.mul (JS.get Vw d) cg)) n b d Hd).
Qed.

Section fc_backward.
Variable L : FullyConnLayer.t.
Variables V A : Vol.t.
Hypothesis Hout : FullyConnLayer.out_act L = Some A.

Let D := Z.to_nat (FullyConnLayer.num_inputs L).
Let g := Vol.dw A.

Lemma fc_backward_loop (Vdw0 bdw0 : list number) (k : nat) :
  (k <= length (FullyConnLayer.filters L))%nat ->
  exists s,
    for_each_r k (FullyConnLayer.backward_step L V)
      (Vdw0, FullyConnLayer.filters L, bdw0) = Ok s /\
    fc_backward_inv L V A Vdw0 bdw0 k s.
Proof.
  induction k as [| k IH]; intros Hk.
  - eexists. split; [reflexivity |]. unfold fc_backward_inv. cbn zeta.
    fold D g. split; [reflexivity |]. split; [reflexivity |]. split; [reflexivity |].
    split; [| split].
    + intros d _. cbn [seq fold_left]. destruct (d <? D)%nat; reflexivity.
    + intros i f Hf. exists f. split; [exact Hf |].
      repeat (split; [reflexivity |]). intros d _. reflexivity.
    + intros i _. reflexivity.
  - destruct IH as ([[Vdw fs] bdw] & Hrun & Hinv); [lia |].
    rewrite for_each_r_S, Hrun. cbn [bind].
    unfold fc_backward_inv in Hinv. cbn zeta in Hinv. fold D g in Hinv.
    destruct Hinv as (HlV & Hlf & Hlb & HV & Hfs & Hb).
    destruct (lookup_lt_is_Some_2 (FullyConnLayer.filters L) k ltac:(lia))
      as [f0 Hf0].
    destruct (Hfs k f0 Hf0) as (tfi & Htfi & Hw & Hdims & Hld & Hdw).
    unfold FullyConnLayer.backward_step. rewrite Hout. cbn [deref bind].
    rewrite Htfi. fold D. fold g.
    pose proof (fc_backward_inner_spec tfi (JS.get g k) (Vol.w V) D
                  Vdw (Vol.dw tfi)) as Hinner.
    cbn zeta in Hinner.
    destruct (for_each D _ (Vdw, Vol.dw tfi)) as [Vdw' fdw'].
    cbn [fst snd] in Hinner. destruct Hinner as (Hl1 & Hl2 & Hg1 & Hg2).
    cbn [bind]. eexists. split; [reflexivity |].
    unfold fc_backward_inv. cbn zeta. fold D g.
    rewrite length_insert, length_set.
    split; [congruence |]. split; [exact Hlf |]. split; [exact Hlb |].
    split; [| split].
    + intros d Hd. rewrite Hg1 by lia. rewrite (HV d Hd).
      destruct (d <? D)%nat; [| reflexivity].
      rewrite seq_S, fold_left_app. cbn [fold_left plus].
      assert (Hwk : fc_weight L k d = JS.get (Vol.w tfi) d)
        by (unfold fc_weight; rewrite Hf0; cbn [from_option]; rewrite Hw;
            reflexivity).
      rewrite Hwk. reflexivity.
    + intros i f Hf. destruct (Nat.eq_dec i k) as [-> | Hne].
      * assert (f = f0) by congruence. subst f.
        eexists. split; [apply list_lookup_insert_eq; lia |].
        cbn [Vol.w Vol.sx Vol.sy Vol.depth Vol.dw Vol.set_dw].
        split; [exact Hw |]. split; [exact Hdims |]. split; [congruence |].
        intros d Hd. rewrite Hg2 by lia. rewrite (Hdw d Hd).
        destruct (Nat.ltb_spec k k); [lia |].
        destruct (Nat.ltb_spec k (S k)); [| lia]. cbn [andb].
        reflexivity.
      * destruct (Hfs i f Hf) as (f' & Hf' & Hw' & Hd' & Hl' & Hdw').
        exists f'. split; [rewrite list_lookup_insert_ne by congruence; exact Hf' |].
        split; [exact Hw' |]. split; [exact Hd' |]. split; [exact Hl' |].
        intros d Hd. rewrite (Hdw' d Hd).
        destruct (Nat.ltb_spec i k), (Nat.ltb_spec i (S k)); try lia;
          reflexivity.
    + intros i Hi. destruct (Nat.eq_dec i k) as [-> | Hne].
      * rewrite get_set_eq by lia. rewrite (Hb k Hi).
        destruct (Nat.ltb_spec k k); [lia |].
        destruct (Nat.ltb_spec k (S k)); [reflexivity | lia].
      * rewrite get_set_ne by congruence. rewrite (Hb i Hi).
        destruct (Nat.ltb_spec i k), (Nat.ltb_spec i (S k)); try lia;
          reflexivity.
Qed.

End fc_backward.

(** X18: [FullyConnLayer.backward] overwrites the gradient of the input with the weighted
    sum of the output gradients, and adds to the gradients of the
    filters and of the biases what this example contributes, leaving
    the weights as they are. *)
Theorem X18_fc_backward_gradients (L : FullyConnLayer.t) (V A : Vol.t) :
  FullyConnLayer.in_act L = Some V ->
  FullyConnLayer.out_act L = Some A ->
  (Z.to_nat (FullyConnLayer.out_depth L)
   <= length (FullyConnLayer.filters L))%nat ->
  let N := Z.to_nat (FullyConnLayer.out_depth L) in
  let D := Z.to_nat (FullyConnLayer.num_inputs L) in
  exists L' V',
    FullyConnLayer.backward L = Ok L' /\
    FullyConnLayer.in_act L' = Some V' /\
    Vol.w V' = Vol.w V /\
    (forall d, (d < length (Vol.w V))%nat ->
       JS.get (Vol.dw V') d
       = if (d <? D)%nat then fc_input_gradient L (Vol.dw A) N d
         else Num 0) /\
    (forall i f, FullyConnLayer.filters L !! i = Some f ->
       exists f',
         FullyConnLayer.filters L' !! i = Some f' /\ Vol.w f' = Vol.w f /\
         forall d, (d < length (Vol.dw f))%nat ->
           JS.get (Vol.dw f') d
           = if (i <? N)%nat && (d <? D)%nat
             then JS.add (JS.get (Vol.dw f) d)
                         (JS.mul (JS.get (Vol.w V) d) (JS.get (Vol.dw A) i))
             else JS.get (Vol.dw f) d) /\
    Vol.w (FullyConnLayer.biases L') = Vol.w (FullyConnLayer.biases L) /\
    (forall i, (i < length (Vol.dw (FullyConnLayer.biases L)))%nat ->
       JS.get (Vol.dw (FullyConnLayer.biases L')) i
       = if (i <? N)%nat
         then JS.add (JS.get (Vol.dw (FullyConnLayer.biases L)) i)
                     (JS.get (Vol.dw A) i)
         else JS.get (Vol.dw (FullyConnLayer.biases L)) i).
Proof.
  intros Hin Hout Hf N D. unfold FullyConnLayer.backward. rewrite Hin.
  cbn [deref bind].
  destruct (fc_backward_loop L V A Hout
              (util.zeros (Z.of_nat (length (Vol.w V))))
              (Vol.dw (FullyConnLayer.biases L)) N Hf)
    as ([[Vdw fs] bdw] & Hrun & Hinv).
  fold N. rewrite Hrun. cbn [bind].
  unfold fc_backward_inv in Hinv. cbn zeta in Hinv. fold D in Hinv.
  destruct Hinv as (HlV & Hlf & Hlb & HV & Hfs & Hb).
  eexists _, _. split; [reflexivity |].
  cbn [FullyConnLayer.in_act FullyConnLayer.filters FullyConnLayer.biases
       Vol.w Vol.dw Vol.set_dw].
  split; [reflexivity |]. split; [reflexivity |].
  split; [| split; [| split; [reflexivity | exact Hb]]].
  - intros d Hd. rewrite length_zeros, Nat2Z.id in HV.
    cbn [Vol.dw Vol.set_dw]. rewrite (HV d Hd), get_zeros by lia.
    reflexivity.
  - intros i f Hfi. destruct (Hfs i f Hfi) as (f' & Hf' & Hw & _ & _ & Hdw).
    exists f'. repeat split; assumption.
Qed.

Lemma X18_fc_backward_gradients_witness :
  let N := Z.to_nat (FullyConnLayer.out_depth fc_ran) in
  let D := Z.to_nat (FullyConnLayer.num_inputs fc_ran) in
  exists L' V',
    FullyConnLayer.backward fc_ran = Ok L' /\
    FullyConnLayer.in_act L' = Some V' /\
    Vol.w V' = Vol.w small_tensor /\
    (forall d, (d < length (Vol.w small_tensor))%nat ->
       JS.get (Vol.dw V') d
       = if (d <? D)%nat then fc_input_gradient fc_ran [Num 5; Num 7] N d
         else Num 0) /\
    (forall i f, FullyConnLayer.filters fc_ran !! i = Some f ->
       exists f',
         FullyConnLayer.filters L' !! i = Some f' /\ Vol.w f' = Vol.w f /\
         forall d, (d < length (Vol.dw f))%nat ->
           JS.get (Vol.dw f') d
           = if (i <? N)%nat && (d <? D)%nat
             then JS.add (JS.get (Vol.dw f) d)
                         (JS.mul (JS.get (Vol.w small_tensor) d)
                                 (JS.get [Num 5; Num 7] i))
             else JS.get (Vol.dw f) d) /\
    Vol.w (FullyConnLayer.biases L') = Vol.w (FullyConnLayer.biases fc_ran) /\
    (forall i, (i < length (Vol.dw (FullyConnLayer.biases fc_ran)))%nat ->
       JS.get (Vol.dw (FullyConnLayer.biases L')) i
       = if (i <? N)%nat
         then JS.add (JS.get (Vol.dw (FullyConnLayer.biases fc_ran)) i)
                     (JS.get [Num 5; Num 7] i)
         else JS.get (Vol.dw (FullyConnLayer.biases fc_ran)) i).
Proof.
  apply (X18_fc_backward_gradients fc_ran small_tensor
           (Vol.mk 1 1 2 [Num (-3); Num 5] [Num 5; Num 7]));
    [reflexivity | reflexivity | cbn; lia].
Defined.

(** ** A 1x1 convolution is a fully connected layer *)

Lemma for_each_r_1 {S : Type} (body : nat -> S -> result S) (s : S) :
  for_each_r 1 body s = body 0%nat s.
Proof. reflexivity. Qed.

Lemma js_mul_comm (a b : number) : JS.mul a b = JS.mul b a.
Proof.
  destruct a as [x | | |], b as [y | | |]; cbn; try reflexivity.
  f_equal. apply Rmult_comm.
Qed.

Lemma convolve_1x1 (L : FullyConnLayer.t) (f V : Vol.t) :
  Vol.sx f = 1 -> Vol.sy f = 1 ->
  Vol.depth f = FullyConnLayer.num_inputs L ->
  Vol.sx V = 1 -> Vol.sy V = 1 ->
  ConvLayer.convolve f V 0 0 = FullyConnLayer.dot L (Vol.w V) (Vol.w f).
Proof.
  intros Hfx Hfy Hfd HVx HVy. unfold ConvLayer.convolve, FullyConnLayer.dot.
  rewrite Hfx, Hfy, HVx, HVy, Hfd. change (Z.to_nat 1) with 1%nat.
  rewrite !for_each_1. cbn [Z.add Z.geb Z.ltb Z.compare andb].
  apply for_each_ext. intros d a _.
  replace ((1 * Z.of_nat 0 + Z.of_nat 0) * FullyConnLayer.num_inputs L
           + Z.of_nat d) with (Z.of_nat d) by lia.
  replace ((1 * (0 + Z.of_nat 0) + (0 + Z.of_nat 0)) * Vol.depth V
           + Z.of_nat d) with (Z.of_nat d) by lia.
  rewrite !getZ_of_nat, js_mul_comm. reflexivity.
Qed.

(** X19: A convolution layer with 1x1 filters and no padding, on a 1x1
    input, returns what the fully connected layer with the same
    filters and biases returns, and throws when that one throws; the
    depth of the output is an integer of 32 bits. *)
Theorem X19_conv_1x1_is_fully_connected (L : ConvLayer.t) (V : Vol.t) :
  int32 (ConvLayer.out_depth L) ->
  ConvLayer.pad L = 0 ->
  ConvLayer.out_sx L = 1 -> ConvLayer.out_sy L = 1 ->
  Vol.sx V = 1 -> Vol.sy V = 1 ->
  Forall (fun f => Vol.sx f = 1 /\ Vol.sy f = 1 /\
                   Vol.depth f = ConvLayer.in_depth L) (ConvLayer.filters L) ->
  returned (ConvLayer.forward L V)
  = returned (FullyConnLayer.forward (as_fc L) V).
Proof.
  intros _ Hpad Hox Hoy HVx HVy Hf.
  unfold ConvLayer.forward, FullyConnLayer.forward, ConvLayer.forward_loops.
  rewrite Hox, Hoy. change (Z.to_nat 1) with 1%nat.
  cbn [as_fc FullyConnLayer.out_depth].
  rewrite (for_each_r_ext _ _ (FullyConnLayer.forward_step (as_fc L) V)).
  - destruct (for_each_r _ _ _); reflexivity.
  - intros d A. rewrite !for_each_r_1.
    unfold ConvLayer.forward_step, FullyConnLayer.forward_step.
    cbn [as_fc FullyConnLayer.filters FullyConnLayer.biases].
    destruct (ConvLayer.filters L !! d) as [f |] eqn:Hd; [| reflexivity].
    cbn [deref bind].
    destruct (proj1 (Forall_lookup _ _) Hf d f Hd) as (Hfx & Hfy & Hfd).
    unfold ConvLayer.corner. rewrite Hpad.
    change (- 0 + Z.of_nat 0 * ConvLayer.stride L) with 0.
    change (Z.of_nat 0) with 0.
    rewrite (convolve_1x1 (as_fc L) f V Hfx Hfy Hfd HVx HVy).
    unfold Vol.set, Vol.set_w. rewrite index_origin, setZ_of_nat.
    reflexivity.
Qed.

Lemma X19_conv_1x1_is_fully_connected_witness :
  returned (ConvLayer.forward conv_1x1 small_tensor)
  = returned (FullyConnLayer.forward (as_fc conv_1x1) small_tensor).
Proof.
  apply X19_conv_1x1_is_fully_connected; try reflexivity.
  - unfold int32. cbn. lia.
  - repeat constructor.
Defined.

(** ** ConvLayer.forward *)

Lemma for_each_r_inv {S : Type} (P : S -> Prop) (n : nat)
    (body : nat -> S -> result S) (s : S) :
  P s ->
  (forall i s, (i < n)%nat -> P s -> exists s', body i s = Ok s' /\ P s') ->
  exists s', for_each_r n body s = Ok s' /\ P s'.
Proof.
  intros H0 Hstep. induction n as [| n IH].
  - exists s. split; [reflexivity | exact H0].
  - destruct IH as (s1 & H1 & HP); [intros; apply Hstep; [lia | assumption] |].
    rewrite for_each_r_S, H1. cbn [bind]. apply Hstep; [lia | exact HP].
Qed.

Lemma for_each_r_throw_at {S : Type} (P : S -> Prop) (n k : nat)
    (body : nat -> S -> result S) (e : error) (s : S) :
  (k < n)%nat -> P s ->
  (forall i s, (i < k)%nat -> P s -> exists s', body i s = Ok s' /\ P s') ->
  (forall s, P s -> body k s = Throw e) ->
  for_each_r n body s = Throw e.
Proof.
  intros Hk H0 Hok Hthrow.
  destruct (for_each_r_inv P k body s H0 Hok) as (s1 & H1 & HP).
  assert (Hn : forall m, (k < m)%nat -> for_each_r m body s = Throw e).
  { induction m as [| m IH]; [lia |]. intros Hm.
    rewrite for_each_r_S. destruct (Nat.eq_dec m k) as [-> | Hne].
    - rewrite H1. cbn [bind]. apply Hthrow, HP.
    - rewrite IH by lia. reflexivity. }
  apply Hn, Hk.
Qed.

(** What the loops of [forward] keep of the output tensor. *)
Lemma conv_forward_step_shape (L : ConvLayer.t) (V : Vol.t) (d ay ax : nat)
    (A : Vol.t) (f : Vol.t) :
  ConvLayer.filters L !! d = Some f ->
  exists A',
    ConvLayer.forward_step L V d ay ax A = Ok A' /\
    Vol.sx A' = Vol.sx A /\ Vol.sy A' = Vol.sy A /\
    Vol.depth A' = Vol.depth A /\ length (Vol.w A') = length (Vol.w A).
Proof.
  intros Hf. unfold ConvLayer.forward_step. rewrite Hf. cbn [deref bind].
  eexists. split; [reflexivity |]. unfold Vol.set.
  cbn [Vol.sx Vol.sy Vol.depth Vol.w]. rewrite length_setZ.
  repeat split; reflexivity.
Qed.

(** X20: When the layer has its [out_depth] filters, [ConvLayer.forward] returns a
    tensor of the layer's output dimensions, with one weight for each
    position, and caches it; the dimensions are integers of 32 bits. *)
Theorem X20_conv_forward_shape (L : ConvLayer.t) (V : Vol.t) :
  int32 (ConvLayer.out_sx L) -> int32 (ConvLayer.out_sy L) ->
  int32 (ConvLayer.out_depth L) ->
  (Z.to_nat (ConvLayer.out_depth L) <= length (ConvLayer.filters L))%nat ->
  exists L' A,
    ConvLayer.forward L V = Ok (L', A) /\
    ConvLayer.in_act L' = Some V /\
    ConvLayer.out_act L' = Some A /\
    Vol.sx A = ConvLayer.out_sx L /\
    Vol.sy A = ConvLayer.out_sy L /\
    Vol.depth A = ConvLayer.out_depth L /\
    length (Vol.w A)
    = Z.to_nat (ConvLayer.out_sx L * ConvLayer.out_sy L * ConvLayer.out_depth L).
Proof.
  intros _ _ _ Hf. unfold ConvLayer.forward, ConvLayer.forward_loops.
  set (A0 := Vol.new (ConvLayer.out_sx L) (ConvLayer.out_sy L)
                     (ConvLayer.out_depth L) (Num 0)).
  set (P := fun A : Vol.t =>
              Vol.sx A = Vol.sx A0 /\ Vol.sy A = Vol.sy A0 /\
              Vol.depth A = Vol.depth A0 /\
              length (Vol.w A) = length (Vol.w A0)).
  destruct (for_each_r_inv P (Z.to_nat (ConvLayer.out_depth L))
              (fun d A =>
                 for_each_r (Z.to_nat (ConvLayer.out_sy L))
                   (fun ay A =>
                      for_each_r (Z.to_nat (ConvLayer.out_sx L))
                        (fun ax A => ConvLayer.forward_step L V d ay ax A) A)
                   A)
              A0) as (A & HA & Hx & Hy & Hd & Hl).
  - repeat split; reflexivity.
  - intros d A Hd HP.
    destruct (lookup_lt_is_Some_2 (ConvLayer.filters L) d ltac:(lia))
      as [f Hfd].
    apply (for_each_r_inv P); [exact HP |]. intros ay A1 _ HP1.
    apply (for_each_r_inv P); [exact HP1 |]. intros ax A2 _ HP2.
    destruct (conv_forward_step_shape L V d ay ax A2 f Hfd)
      as (A' & HA' & H1 & H2 & H3 & H4).
    exists A'. split; [exact HA' |].
    destruct HP2 as (Q1 & Q2 & Q3 & Q4). repeat split; congruence.
  - rewrite HA. cbn [bind]. eexists _, _. split; [reflexivity |].
    cbn [ConvLayer.set_acts ConvLayer.in_act ConvLayer.out_act].
    split; [reflexivity |]. split; [reflexivity |].
    split; [exact Hx |]. split; [exact Hy |]. split; [exact Hd |].
    rewrite Hl. unfold A0, Vol.new. cbn [Vol.w]. apply length_replicate.
Qed.

Lemma X20_conv_forward_shape_witness :
  exists L' A,
    ConvLayer.forward conv_1x1 small_tensor = Ok (L', A) /\
    ConvLayer.in_act L' = Some small_tensor /\
    ConvLayer.out_act L' = Some A /\
    Vol.sx A = ConvLayer.out_sx conv_1x1 /\
    Vol.sy A = ConvLayer.out_sy conv_1x1 /\
    Vol.depth A = ConvLayer.out_depth conv_1x1 /\
    length (Vol.w A)
    = Z.to_nat (ConvLayer.out_sx conv_1x1 * ConvLayer.out_sy conv_1x1
                * ConvLayer.out_depth conv_1x1).
Proof. apply X20_conv_forward_shape; unfold int32; cbn; lia. Defined.

(** X21: When a filter is missing and the output has at least one position,
    [ConvLayer.forward] throws a TypeError: it reads a property of the
    [undefined] filter; the dimensions are integers of 32 bits. *)
Theorem X21_conv_forward_missing_filter (L : ConvLayer.t) (V : Vol.t) :
  int32 (ConvLayer.out_sx L) -> int32 (ConvLayer.out_sy L) ->
  int32 (ConvLayer.out_depth L) ->
  (length (ConvLayer.filters L) < Z.to_nat (ConvLayer.out_depth L))%nat ->
  0 < ConvLayer.out_sx L -> 0 < ConvLayer.out_sy L ->
  ConvLayer.forward L V = Throw TypeError.
Proof.
  intros _ _ _ Hf Hx Hy. unfold ConvLayer.forward, ConvLayer.forward_loops.
  rewrite (for_each_r_throw_at (fun _ => True) _
             (length (ConvLayer.filters L)) _ TypeError);
    [reflexivity | exact Hf | exact I | |].
  - intros d A Hd _.
    destruct (lookup_lt_is_Some_2 (ConvLayer.filters L) d Hd) as [f Hfd].
    destruct (for_each_r_inv (fun _ => True)
                (Z.to_nat (ConvLayer.out_sy L))
                (fun ay A =>
                   for_each_r (Z.to_nat (ConvLayer.out_sx L))
                     (fun ax A => ConvLayer.forward_step L V d ay ax A) A)
                A I) as (A' & HA' & _).
    + intros ay A1 _ _. apply (for_each_r_inv (fun _ => True)); [exact I |].
      intros ax A2 _ _.
      destruct (conv_forward_step_shape L V d ay ax A2 f Hfd) as (A' & HA' & _).
      exists A'. split; [exact HA' | exact I].
    + exists A'. split; [exact HA' | exact I].
  - intros A _.
    apply for_each_r_throw; [lia |]. intros ay A1.
    apply for_each_r_throw; [lia |]. intros ax A2.
    unfold ConvLayer.forward_step.
    rewrite (lookup_ge_None_2 (ConvLayer.filters L)) by lia. reflexivity.
Qed.

Lemma X21_conv_forward_missing_filter_witness :
  ConvLayer.forward conv_without_filters small_tensor = Throw TypeError.
Proof.
  apply X21_conv_forward_missing_filter; unfold int32; cbn; lia.
Defined.

(** ** getParamsAndGrads and serialization *)

Lemma parameters_bind_rel
    (acc acc' : result (list ParamsAndGrads.t))
    (k k' : list ParamsAndGrads.t -> result (list ParamsAndGrads.t)) :
  parameters acc = parameters acc' ->
  (forall r r', map forget_grads r = map forget_grads r' ->
                parameters (k r) = parameters (k' r')) ->
  parameters (bind acc k) = parameters (bind acc' k').
Proof.
  intros Hacc Hk. destruct acc as [r | e], acc' as [r' | e']; cbn in *;
    try discriminate.
  - apply Hk. congruence.
  - exact Hacc.
Qed.

Lemma filters_loop_reload (fs : list Vol.t) (l1 l2 : number) (n : nat) :
  parameters
    (for_each_r n
       (fun i response =>
          bind (deref ((Vol.fromJSON <$> (Vol.toJSON <$> fs)) !! i)) (fun f =>
          Ok (response ++ [ParamsAndGrads.mk (Vol.w f) (Vol.dw f) l2 l1])))
       [])
  = parameters
      (for_each_r n
         (fun i response =>
            bind (deref (fs !! i)) (fun f =>
            Ok (response ++ [ParamsAndGrads.mk (Vol.w f) (Vol.dw f) l2 l1])))
         []).
Proof.
  unfold for_each_r.
  apply (for_each_rel (fun a a' => parameters a = parameters a'));
    [reflexivity |].
  intros i acc acc' Hacc. apply parameters_bind_rel; [exact Hacc |].
  intros r r' Hr. rewrite !list_lookup_fmap.
  destruct (fs !! i) as [f |]; [| reflexivity].
  cbn. rewrite !map_app, Hr. reflexivity.
Qed.

Lemma conv_params_reload (L : ConvLayer.t) :
  parameters (ConvLayer.getParamsAndGrads
                (ConvLayer.fromJSON (ConvLayer.toJSON L)))
  = parameters (ConvLayer.getParamsAndGrads L).
Proof.
  destruct L as [lt l1 l2 fs bs od fsx ind isx isy fsy st pd osx osy ia oa].
  unfold ConvLayer.getParamsAndGrads. cbn.
  apply parameters_bind_rel; [apply filters_loop_reload |].
  intros r r' Hr. cbn. rewrite !map_app, Hr. reflexivity.
Qed.

Lemma fc_params_reload (L : FullyConnLayer.t) :
  parameters (FullyConnLayer.getParamsAndGrads
                (FullyConnLayer.fromJSON (FullyConnLayer.toJSON L)))
  = parameters (FullyConnLayer.getParamsAndGrads L).
Proof.
  destruct L as [lt l1 l2 fs bs od ni osx osy ia oa].
  unfold FullyConnLayer.getParamsAndGrads. cbn.
  apply parameters_bind_rel; [apply filters_loop_reload |].
  intros r r' Hr. cbn. rewrite !map_app, Hr. reflexivity.
Qed.

Lemma layer_params_reload (L : LayerType) :
  parameters (Net.layer_getParamsAndGrads (reload L))
  = parameters (Net.layer_getParamsAndGrads L).
Proof.
  destruct L; try reflexivity.
  - apply conv_params_reload.
  - apply fc_params_reload.
Qed.

(** The inner loop of [Net.getParamsAndGrads] pushes every entry. *)
Lemma push_all {A : Type} (l r : list A) :
  for_each (length l)
    (fun j response =>
       match l !! j with
       | Some e => response ++ [e]
       | None => response
       end) r
  = r ++ l.
Proof.
  induction l as [| e l IH] using rev_ind; [cbn; rewrite app_nil_r; reflexivity |].
  rewrite length_app. cbn [length]. rewrite Nat.add_1_r, for_each_S.
  rewrite (for_each_ext _ _
             (fun j response => match l !! j with
                                | Some e => response ++ [e]
                                | None => response
                                end)).
  - rewrite IH. rewrite lookup_app_r by lia. rewrite Nat.sub_diag. cbn.
    rewrite app_assoc. reflexivity.
  - intros j s Hj. rewrite lookup_app_l by exact Hj. reflexivity.
Qed.

Lemma params_reload (layers : list LayerType) :
  parameters (Net.getParamsAndGrads (Net.mk (map reload layers)))
  = parameters (Net.getParamsAndGrads (Net.mk layers)).
Proof.
  unfold Net.getParamsAndGrads. cbn [Net.layers].
  rewrite length_map. unfold for_each_r.
  apply (for_each_rel (fun a a' => parameters a = parameters a'));
    [reflexivity |].
  intros i acc acc' Hacc. apply parameters_bind_rel; [exact Hacc |].
  intros r r' Hr. rewrite list_lookup_fmap.
  destruct (layers !! i) as [L |]; [| reflexivity].
  cbn [fmap option_fmap option_map deref bind].
  pose proof (layer_params_reload L) as HL.
  destruct (Net.layer_getParamsAndGrads (reload L))
    as [lr | e], (Net.layer_getParamsAndGrads L) as [lr' | e'];
    cbn in HL; try discriminate; cbn [bind].
  - rewrite !push_all. cbn. rewrite !map_app, Hr. congruence.
  - exact HL.
Qed.

(** X22: Serializing a network whose layers carry the tags of their
    classes and loading it again keeps every parameter array that
    [Net.getParamsAndGrads] returns and its decay multipliers, in the
    same order; loading works on everything [toJSON] produces from
    such a network. *)
Theorem X22_params_survive_reload (net : Net.t) :
  Forall well_tagged (Net.layers net) ->
  exists net',
    Net.fromJSON (Net.toJSON net) = Ok (Net.Loaded <$> Net.layers net') /\
    parameters (Net.getParamsAndGrads net')
    = parameters (Net.getParamsAndGrads net).
Proof.
  destruct net as [layers]. cbn [Net.layers]. intros Htags.
  exists (Net.mk (map reload layers)). split.
  - unfold Net.fromJSON, Net.toJSON. cbn [Net.j_layers deref bind Net.layers].
    apply fromJSON_loop_toJSON, Htags.
  - apply params_reload.
Qed.

Lemma X22_params_survive_reload_witness :
  exists net',
    Net.fromJSON (Net.toJSON fc_net) = Ok (Net.Loaded <$> Net.layers net') /\
    parameters (Net.getParamsAndGrads net')
    = parameters (Net.getParamsAndGrads fc_net).
Proof. apply (X22_params_survive_reload fc_net). repeat constructor. Defined.

(** ** PoolLayer.backward *)

Lemma pool_backward_loops_fold (L : PoolLayer.t) (A : Vol.t) (s : Vol.t * nat) :
  PoolLayer.out_act L = Some A ->
  for_each_r (Z.to_nat (PoolLayer.out_depth L))
    (fun d s =>
       for_each_r (Z.to_nat (PoolLayer.out_sx L))
         (fun ax s =>
            for_each_r (Z.to_nat (PoolLayer.out_sy L))
              (fun ay s => PoolLayer.backward_step L d ax ay s) s)
         s)
    s
  = Ok (fold_left (pool_back_step L A) (positions L) s).
Proof.
  intros Ho.
  set (body := fun d ax ay (s : Vol.t * nat) => pool_back_step L A s (d, ax, ay)).
  rewrite (for_each_r_ok _ _
             (fun d s => for_each (Z.to_nat (PoolLayer.out_sx L))
                (fun ax s => for_each (Z.to_nat (PoolLayer.out_sy L))
                   (fun ay s => body d ax ay s) s) s)).
  - f_equal. unfold positions.
    rewrite <- (for_each_fold_bind _ _ (fun p s => pool_back_step L A s p)).
    apply for_each_ext. intros d s' _. rewrite fold_left_fmap.
    apply (for_each_pairs _ _ (fun ax ay s => body d ax ay s)).
  - intros d s' _. apply for_each_r_ok. intros ax s'' _.
    apply for_each_r_ok. intros ay [V n] _.
    unfold PoolLayer.backward_step. rewrite Ho. reflexivity.
Qed.

Lemma fold_left_add_snoc (l : list number) (v a : number) :
  fold_left JS.add (l ++ [v]) a = JS.add (fold_left JS.add l a) v.
Proof. rewrite fold_left_app. reflexivity. Qed.

Lemma pool_backward_fold_inv (L : PoolLayer.t) (V A : Vol.t)
    (l : list (nat * nat * nat)) :
  let s := fold_left (pool_back_step L A) l (V, O) in
  snd s = length l /\
  Vol.sx (fst s) = Vol.sx V /\ Vol.sy (fst s) = Vol.sy V /\
  Vol.depth (fst s) = Vol.depth V /\ Vol.w (fst s) = Vol.w V /\
  length (Vol.dw (fst s)) = length (Vol.dw V) /\
  forall j, 0 <= j < Z.of_nat (length (Vol.dw V)) ->
    JS.getZ (Vol.dw (fst s)) j
    = fold_left JS.add (omap (fun c => c) (imap (pool_contribution L V A j) l))
                (JS.getZ (Vol.dw V) j).
Proof.
  induction l as [| p l IH] using rev_ind.
  - cbn. repeat split; reflexivity.
  - cbn zeta in *. rewrite fold_left_app. cbn [fold_left].
    destruct (fold_left (pool_back_step L A) l (V, O)) as [Vk n].
    cbn [fst snd] in IH. destruct IH as (-> & Hx & Hy & Hd & Hw & Hlen & Hget).
    unfold pool_back_step. cbn [fst snd].
    split; [rewrite length_app; cbn; lia |].
    assert (Hc : forall j,
      omap (fun c => c) (imap (pool_contribution L V A j) (l ++ [p]))
      = omap (fun c => c) (imap (pool_contribution L V A j) l)
        ++ match PoolLayer.switchx L !! length l,
                 PoolLayer.switchy L !! length l with
           | Some x, Some y =>
               if Vol.index V x y (Z.of_nat (fst (fst p))) =? j
               then [Vol.get_grad A (Z.of_nat (snd (fst p)))
                       (Z.of_nat (snd p)) (Z.of_nat (fst (fst p)))]
               else []
           | _, _ => []
           end).
    { intros j. rewrite imap_app, omap_app. f_equal. cbn.
      rewrite Nat.add_0_r. unfold pool_contribution.
      destruct (PoolLayer.switchx L !! length l) as [x |]; [| reflexivity].
      destruct (PoolLayer.switchy L !! length l) as [y |]; [| reflexivity].
      destruct (_ =? j); reflexivity. }
    destruct (PoolLayer.switchx L !! length l) as [x |];
      [destruct (PoolLayer.switchy L !! length l) as [y |] |].
    + unfold Vol.add_grad. cbn [Vol.sx Vol.sy Vol.depth Vol.w Vol.dw].
      rewrite length_setZ.
      repeat (split; [assumption |]).
      intros j Hj. rewrite Hc.
      assert (Hi : Vol.index Vk x y (Z.of_nat (fst (fst p)))
                   = Vol.index V x y (Z.of_nat (fst (fst p))))
        by (unfold Vol.index; rewrite Hx, Hd; reflexivity).
      rewrite Hi. unfold Vol.get_grad at 1. rewrite Hi.
      destruct (Z.eqb_spec (Vol.index V x y (Z.of_nat (fst (fst p)))) j)
        as [-> | Hne].
      * rewrite fold_left_add_snoc, <- (Hget j Hj).
        apply getZ_setZ_eq. lia.
      * rewrite app_nil_r, getZ_setZ_ne by exact Hne.
        apply Hget, Hj.
    + repeat (split; [assumption |]).
      intros j Hj. rewrite Hc, app_nil_r. apply Hget, Hj.
    + repeat (split; [assumption |]).
      intros j Hj. rewrite Hc, app_nil_r. apply Hget, Hj.
Qed.

(** X23: [PoolLayer.backward] gives every input element the sum of the gradients of
    the output positions whose recorded switches name it, added in the
    order the loops visit them; an element no switch names gets 0. *)
Theorem X23_pool_backward_sums (L : PoolLayer.t) (V A : Vol.t) :
  PoolLayer.in_act L = Some V ->
  PoolLayer.out_act L = Some A ->
  exists L' V',
    PoolLayer.backward L = Ok L' /\
    PoolLayer.in_act L' = Some V' /\
    Vol.w V' = Vol.w V /\
    forall j, 0 <= j < Z.of_nat (length (Vol.w V)) ->
      JS.getZ (Vol.dw V') j
      = fold_left JS.add (pool_contributions L V A j) (Num 0).
Proof.
  intros Hin Hout. unfold PoolLayer.backward. rewrite Hin.
  cbn [deref bind]. rewrite (pool_backward_loops_fold L A _ Hout).
  cbn [bind].
  set (V0 := Vol.set_dw V (util.zeros (Z.of_nat (length (Vol.w V))))).
  pose proof (pool_backward_fold_inv L V0 A (positions L)) as Hinv.
  cbn zeta in Hinv.
  destruct (fold_left (pool_back_step L A) (positions L) (V0, O)) as [V' n].
  cbn [fst snd] in Hinv.
  destruct Hinv as (_ & _ & _ & _ & Hw & Hlen & Hget).
  eexists _, V'. split; [reflexivity |].
  split; [reflexivity |]. split; [exact Hw |].
  intros j Hj. rewrite Hget
    by (unfold V0; cbn [Vol.dw Vol.set_dw]; rewrite length_zeros; lia).
  unfold pool_contributions.
  assert (Hz : JS.getZ (Vol.dw V0) j = Num 0).
  { unfold V0. cbn [Vol.dw Vol.set_dw]. unfold JS.getZ.
    destruct (Z.ltb_spec j 0); [lia |]. apply get_zeros. lia. }
  rewrite Hz. reflexivity.
Qed.

Lemma X23_pool_backward_sums_witness :
  exists L' V',
    PoolLayer.backward pool_ran = Ok L' /\
    PoolLayer.in_act L' = Some V' /\
    Vol.w V' = Vol.w pool_input /\
    forall j, 0 <= j < Z.of_nat (length (Vol.w pool_input)) ->
      JS.getZ (Vol.dw V') j
      = fold_left JS.add
          (pool_contributions pool_ran pool_input
             (Vol.mk 1 1 1 [Num 4] [Num 5]) j)
          (Num 0).
Proof. apply X23_pool_backward_sums; reflexivity. Defined.

(** ** smartBackward *)

Lemma or_zero_not_NaN (v : number) : or_zero v <> NaN.
Proof.
  destruct v as [r | | |]; cbn; try discriminate.
  destruct (Reqb r 0); discriminate.
Qed.

Lemma softmax_backward_outcome (L : SoftmaxLayer.t) (n : Z) :
  (exists L' loss, SoftmaxLayer.backward L n = Ok (L', loss)) \/
  SoftmaxLayer.backward L n = Throw TypeError.
Proof.
  unfold SoftmaxLayer.backward.
  destruct (SoftmaxLayer.in_act L); [| right; reflexivity].
  destruct (SoftmaxLayer.es L); [| right; reflexivity].
  left. cbn. eexists _, _. reflexivity.
Qed.

Lemma svm_backward_outcome (L : SVMLayer.t) (n : Z) :
  (exists L' loss, SVMLayer.backward L n = Ok (L', loss)) \/
  SVMLayer.backward L n = Throw TypeError.
Proof.
  unfold SVMLayer.backward.
  destruct (SVMLayer.in_act L); [| right; reflexivity].
  left. cbn. destruct (for_each _ _ _) as [dw loss].
  eexists _, _. reflexivity.
Qed.

(** X24: On a softmax or SVM layer, [smartBackward] throws
    [InvalidCostTypeError] exactly when the target is not a number;
    the only other error is the TypeError of a layer that has not run
    [forward]; and the loss it returns is never [NaN]: [|| 0] turns a
    [NaN] loss into 0. *)
Theorem X24_smartBackward_classification (y : target) (layer : LossLayer) :
  (forall L, layer <> LRegression L) ->
  (smartBackward y layer = Throw InvalidCostType
   <-> forall n, y <> TNumber n) /\
  (forall e, smartBackward y layer = Throw e ->
             e = InvalidCostType \/ e = TypeError) /\
  (forall layer' loss, smartBackward y layer = Ok (layer', loss) ->
                       loss <> NaN).
Proof.
  intros Hreg. destruct layer as [L | L | L]; [destruct (Hreg L eq_refl) | |].
  - destruct y as [n | ys | dim val]; cbn [smartBackward].
    + destruct (softmax_backward_outcome L n) as [(L' & loss & ->) | ->];
        cbn [bind]; (split; [| split]).
      * split; [discriminate |]. intros H. destruct (H n eq_refl).
      * discriminate.
      * intros layer' loss' [= <- <-]. apply or_zero_not_NaN.
      * split; [discriminate |]. intros H. destruct (H n eq_refl).
      * intros e [= <-]. right. reflexivity.
      * discriminate.
    + split; [| split]; [| intros e [= <-]; left; reflexivity | discriminate].
      split; [discriminate | reflexivity].
    + split; [| split]; [| intros e [= <-]; left; reflexivity | discriminate].
      split; [discriminate | reflexivity].
  - destruct y as [n | ys | dim val]; cbn [smartBackward].
    + destruct (svm_backward_outcome L n) as [(L' & loss & ->) | ->];
        cbn [bind]; (split; [| split]).
      * split; [discriminate |]. intros H. destruct (H n eq_refl).
      * discriminate.
      * intros layer' loss' [= <- <-]. apply or_zero_not_NaN.
      * split; [discriminate |]. intros H. destruct (H n eq_refl).
      * intros e [= <-]. right. reflexivity.
      * discriminate.
    + split; [| split]; [| intros e [= <-]; left; reflexivity | discriminate].
      split; [discriminate | reflexivity].
    + split; [| split]; [| intros e [= <-]; left; reflexivity | discriminate].
      split; [discriminate | reflexivity].
Qed.

Lemma X24_smartBackward_classification_witness :
  (smartBackward (TNumber 0) (LSoftmax softmax_cached) = Throw InvalidCostType
   <-> forall n, TNumber 0 <> TNumber n) /\
  (forall e, smartBackward (TNumber 0) (LSoftmax softmax_cached) = Throw e ->
             e = InvalidCostType \/ e = TypeError) /\
  (forall layer' loss,
     smartBackward (TNumber 0) (LSoftmax softmax_cached) = Ok (layer', loss) ->
     loss <> NaN).
Proof. apply X24_smartBackward_classification. discriminate. Defined.

(** ** Worked examples *)

Ltac js_step :=
  cbv - [Rltb Rleb Reqb IZR Rplus Rmult Rminus Rdiv Ropp Rinv R0 R1
         exp ln Rpower Zfloor Rabs].

(** Evaluate a call on concrete numbers, deciding each comparison of
    reals as it comes up. *)
Ltac js_eval :=
  js_step;
  repeat (first [ rewrite Rltb_true by lra
                | rewrite Rltb_false by lra
                | rewrite Rleb_true by lra
                | rewrite Rleb_false by lra
                | rewrite Reqb_true by lra
                | rewrite Reqb_false by lra ]; js_step).

Example relu_forward_empty :
  snd (ReluLayer.forward (ReluLayer.constructor (ReluLayer.mk_options 0 0 0))
                         (Vol.mk 0 0 0 [] []))
  = None.
Proof. reflexivity. Qed.

Example pool_forward_example :
  let '(L, A) := PoolLayer.forward pool_2x2 pool_input in
  Vol.w A = [Num 4] /\ PoolLayer.switchx L = [1] /\ PoolLayer.switchy L = [0].
Proof. js_eval. repeat split. Qed.

Example pool_forward_below_sentinel :
  let '(L, A) :=
    PoolLayer.forward pool_2x2
      (Vol.mk 2 2 1 [Num (-100000); Num (-99999); Num (-100001); Num (-200000)]
              [Num 0; Num 0; Num 0; Num 0]) in
  Vol.w A = [Num (-99999)] /\
  PoolLayer.switchx L = [-1] /\ PoolLayer.switchy L = [-1].
Proof. js_eval. repeat split. Qed.

Example maxout_forward_example :
  let '(L, A) := MaxoutLayer.forward maxout_4_2 maxout_input in
  Vol.w A = [Num 5; Num 7] /\ MaxoutLayer.switches L = [1; 2].
Proof. js_eval. repeat split. Qed.

Example svm_backward_margin_satisfied :
  SVMLayer.backward svm_after_forward 0
  = Ok (SVMLayer.mk "svm" 2 1 1 2
          (Some (Vol.mk 1 1 2 [Num 3; Num 1] [Num 0; Num 0])),
        Num 0).
Proof. js_eval. reflexivity. Qed.

Example svm_backward_margin_violated :
  exists gi gy loss,
    SVMLayer.backward svm_after_forward 1
    = Ok (SVMLayer.mk "svm" 2 1 1 2
            (Some (Vol.mk 1 1 2 [Num 3; Num 1] [Num gi; Num gy])),
          Num loss) /\
    gi = 1%R /\ gy = (-1)%R /\ loss = 3%R.
Proof. eexists _, _, _. split; [js_eval; reflexivity |]. repeat split; lra. Qed.

Example dropout_forward_example :
  snd (fst (DropoutLayer.forward
              (DropoutLayer.constructor
                 (DropoutLayer.mk_options 1 1 2 (Some (Num (1 / 4)))))
              (Vol.mk 1 1 2 [Num 8; Num 4] [Num 0; Num 0])
              None (mk_rng (fun _ => Num 0) O)))
  = Vol.mk 1 1 2 [Num (8 * (1 / 4)); Num (4 * (1 / 4))] [Num 0; Num 0].
Proof. js_eval. reflexivity. Qed.

Example relu_backward_example :
  (fun L => Vol.dw <$> ReluLayer.in_act L)
    <$> match ReluLayer.backward
                (relu_run (ReluLayer.constructor (ReluLayer.mk_options 1 1 2))
                          small_tensor [Num 5; Num 7]) with
        | Ok L => Some L
        | Throw _ => None
        end
  = Some (Some [Num 5; Num 0]).
Proof. js_eval. reflexivity. Qed.

Example relu_backward_before_forward :
  ReluLayer.backward (ReluLayer.constructor (ReluLayer.mk_options 1 1 2))
  = Throw TypeError.
Proof. reflexivity. Qed.

Example maxout_backward_example :
  (fun L => Vol.dw <$> MaxoutLayer.in_act L)
    <$> match MaxoutLayer.backward
                (maxout_run maxout_4_2 maxout_input [Num 5; Num 7]) with
        | Ok L => Some L
        | Throw _ => None
        end
  = Some (Some [Num 0; Num 5; Num 7; Num 0]).
Proof. js_eval. reflexivity. Qed.

Example pool_backward_example :
  (fun L => Vol.dw <$> PoolLayer.in_act L)
    <$> match PoolLayer.backward pool_ran with
        | Ok L => Some L
        | Throw _ => None
        end
  = Some (Some [Num 0; Num (0 + 5); Num 0; Num 0]).
Proof. js_eval. reflexivity. Qed.

Example fc_forward_example :
  returned (FullyConnLayer.forward (as_fc conv_1x1) small_tensor)
  = Ok (Vol.mk 1 1 2 [Num (0 + 1 * 1 + -2 * 2 + 0); Num (0 + 1 * 3 + -2 * -1 + 0)]
               [Num 0; Num 0]).
Proof. js_eval. reflexivity. Qed.

Example fc_backward_example :
  (fun L => (Vol.dw <$> FullyConnLayer.in_act L,
             Vol.dw <$> FullyConnLayer.filters L,
             Vol.dw (FullyConnLayer.biases L)))
    <$> match FullyConnLayer.backward fc_ran with
        | Ok L => Some L
        | Throw _ => None
        end
  = Some (Some [Num (0 + 1 * 5 + 3 * 7); Num (0 + 2 * 5 + -1 * 7)],
          [[Num (0 + 1 * 5); Num (0 + -2 * 5)];
           [Num (0 + 1 * 7); Num (0 + -2 * 7)]],
          [Num (0 + 5); Num (0 + 7)]).
Proof. js_eval. reflexivity. Qed.

Example getPrediction_example :
  Net.getPrediction
    (Net.mk [Softmax (SoftmaxLayer.mk "softmax" 3 1 1 3 None
                        (Some (Vol.mk 1 1 3 [Num (1 / 4); Num (1 / 2); Num (1 / 4)]
                                      [Num 0; Num 0; Num 0]))
                        None)])
  = inr 1%nat.
Proof. js_eval. reflexivity. Qed.

Example getPrediction_not_softmax :
  Net.getPrediction (Net.mk [Relu (ReluLayer.constructor (ReluLayer.mk_options 1 1 2))])
  = inl (Net.Thrown (AssertionFailed
           "getPrediction function assumes softmax as last layer of the net!")).
Proof. reflexivity. Qed.

Example dropout_training_example :
  let '(L, A, r) :=
    DropoutLayer.forward
      (DropoutLayer.constructor (DropoutLayer.mk_options 1 1 2 None))
      small_tensor (Some true) fair_coin in
  Vol.w A = [Num 0; Num (-2)] /\ DropoutLayer.dropped L = [true; false] /\
  drawn r = 2%nat.
Proof. js_eval. repeat split. Qed.

(** ** MaxoutLayer: the two code paths on an input wider than the layer *)

(** C9, at a reloaded 1x1 maxout layer and an input two positions wide:
    the flat branch of [forward] looks at the first position only and
    records one switch, the coordinate branch visits both positions and
    records a switch for each; the layer has four switches after
    [fromJSON], so the second write lands, and the recorded switches
    differ. *)
Lemma C9_maxout_paths_differ_on_wider_input :
  MaxoutLayer.out_sx maxout_reloaded = 1 /\
  MaxoutLayer.out_sy maxout_reloaded = 1 /\
  MaxoutLayer.forward_flat maxout_reloaded maxout_wide_input
    (Vol.new 1 1 1 (Num 0))
  = (Vol.mk 1 1 1 [Num 4] [Num 0], [3; 0; 0; 0]) /\
  fst (MaxoutLayer.forward_coord maxout_reloaded maxout_wide_input
         (Vol.new 1 1 1 (Num 0)))
  = (Vol.mk 1 1 1 [Num 4] [Num 0], [3; 3; 0; 0]).
Proof.
  split; [reflexivity |]. split; [reflexivity |].
  split; js_eval; reflexivity.
Qed.

(** On the layer as the constructor built it the second switch has no
    place, and the two branches agree on the same input. *)
Example maxout_paths_agree_on_built_layer :
  fst (MaxoutLayer.forward_coord maxout_4_4 maxout_wide_input
         (Vol.new 1 1 1 (Num 0)))
  = MaxoutLayer.forward_flat maxout_4_4 maxout_wide_input
      (Vol.new 1 1 1 (Num 0)).
Proof. js_eval. reflexivity. Qed.

(** ** More worked examples *)

(** The scores [3, 1] with true class 1: class 0 violates the margin by
    [3 - 1 + 1]. *)
Example svm_margin_violation_example :
  margin_violation (Vol.w svm_scores) 1 0 = Num (3 - 1 + 1) /\
  violators (Vol.w svm_scores) 1 2 = [0%nat] /\
  hinge_loss (Vol.w svm_scores) 1 2 = Num (0 + (3 - 1 + 1)).
Proof.
  split; [reflexivity |].
  assert (Hv : violators (Vol.w svm_scores) 1 2 = [0%nat]).
  { unfold violators, violates, margin_violation. js_eval. reflexivity. }
  split; [exact Hv |]. unfold hinge_loss. rewrite Hv. reflexivity.
Qed.

(** A 2x2 window with padding 1 over the 2x2 input: the window of the
    output position (0, 0) covers the input at (0, 0) only. *)
Example pool_forward_padded :
  let '(L, A) :=
    PoolLayer.forward
      (PoolLayer.mk "pool" 2 2 1 (Some 2) (Some 2) 2 1 1 2 2
                    [0; 0; 0; 0] [0; 0; 0; 0] None None)
      pool_input in
  Vol.w A = [Num 1; Num 4; Num 3; Num 2] /\
  PoolLayer.switchx L = [0; 0; 1; 1] /\ PoolLayer.switchy L = [0; 1; 0; 1].
Proof. js_eval. repeat split. Qed.

(** [Net.fromJSON] on records it does not expect: a tag no test knows
    leaves [undefined] in the list of layers; the tag of a class with
    weights on a record without filters throws; the tag of the pooling
    layer on a relu record gives a pooling layer without a filter
    size. *)
Example fromJSON_unknown_tag :
  Net.fromJSON
    (Net.mk_json (Some [SerializedRelu (ReluLayer.mk_json "elu" 1 1 2)]))
  = Ok [Net.LoadedUndefined].
Proof. reflexivity. Qed.

Example fromJSON_conv_tag_without_filters :
  Net.fromJSON
    (Net.mk_json (Some [SerializedRelu (ReluLayer.mk_json "conv" 1 1 2)]))
  = Throw TypeError.
Proof. reflexivity. Qed.

Example fromJSON_pool_tag_on_relu_record :
  Net.fromJSON
    (Net.mk_json (Some [SerializedRelu (ReluLayer.mk_json "pool" 1 1 2)]))
  = Ok [Net.LoadedPartial "pool"
          (SerializedRelu (ReluLayer.mk_json "pool" 1 1 2))].
Proof. reflexivity. Qed.

Example fromJSON_without_layers :
  Net.fromJSON (Net.mk_json None) = Throw TypeError.
Proof. reflexivity. Qed.
